(** * Verification of the YOLOToolbox annotation canvas

    A shallow embedding of [core/annotation.py] (class [AnnotationModule]):
    the label codec used by [load_image_data] and [save_annotation], the
    viewport transform ([img_to_screen], [screen_to_img], [on_wheel_event],
    [reset_view_fit]), the mouse gesture handlers and the unsaved-changes
    guard, together with the Python built-ins they rest on.

    Layout: part I holds the definitions (Python numbers, Python strings,
    the annotation module), part II the lemmas and the theorems. *)

From Stdlib Require Import ZArith QArith Qround Qabs Qpower Lia Lqa Psatz.
From Stdlib Require Import List String Ascii Bool.
From Stdlib Require Import Floats.
Import ListNotations.

(* ===================================================================== *)
(** * Part I.  Definitions                                                 *)
(* ===================================================================== *)

(** ** Python exceptions *)

Module PyExn.

Inductive exn : Type :=
| ZeroDivisionError
| ValueError
| IndexError
| OSError
| OverflowError.

Inductive result (A : Type) : Type :=
| Ok (a : A)
| Raise (e : exn).

Arguments Ok {A} a.
Arguments Raise {A} e.

Definition bind {A B : Type} (r : result A) (k : A -> result B) : result B :=
  match r with
  | Ok a => k a
  | Raise e => Raise e
  end.

Definition of_option {A : Type} (e : exn) (o : option A) : result A :=
  match o with
  | Some a => Ok a
  | None => Raise e
  end.

End PyExn.
Export PyExn.

Declare Scope py_scope.
Delimit Scope py_scope with py.
Notation "x <- c ;; k" := (bind c (fun x => k))
  (at level 61, c at next level, right associativity) : py_scope.
Notation "' pat <- c ;; k" := (bind c (fun x => match x with pat => k end))
  (at level 61, pat pattern, c at next level, right associativity) : py_scope.

(** ** Python numbers

    A Python [float] is an IEEE 754 binary64 value.  A finite one is
    modelled by the rational number it denotes; an arithmetic operation
    computes the exact rational result and rounds it to the nearest
    binary64 value, ties to even ([rnd64]): 53 significant bits, least
    exponent [-1074] (subnormals included).  Infinities, NaN and the sign
    of zero are not modelled; every statement below keeps its operands far
    inside the finite range.  A Python [int] is a [Z].  [pynum] is the
    numeric tower as far as the code uses it: an operation on two ints is
    exact, any other converts to float first, and [/] always yields a
    float. *)

Module PyNum.

Local Open Scope Q_scope.

(** Nearest integer, ties to even. *)
Definition rne (q : Q) : Z :=
  let f := Qfloor q in
  match Qcompare (q - inject_Z f) (1 # 2) with
  | Lt => f
  | Gt => (f + 1)%Z
  | Eq => if Z.even f then f else (f + 1)%Z
  end.

(** [ilog2 q] is the integer [e] with [2^e <= q < 2^(e+1)], for [0 < q]. *)
Definition ilog2 (q : Q) : Z :=
  let e := (Z.log2 (Qnum q) - Z.log2 (Z.pos (Qden q)))%Z in
  if Qle_bool (2 ^ e) q then e else (e - 1)%Z.

(** Exponent of the last significant bit of the binary64 format at [q]. *)
Definition fexp (q : Q) : Z := Z.max (ilog2 (Qabs q) - 52) (-1074).

(** Round to nearest binary64, ties to even. *)
Definition rnd64 (q : Q) : Q :=
  if Qeq_bool q 0 then 0
  else let e := fexp q in Qred (inject_Z (rne (q / 2 ^ e)) * 2 ^ e).

(** Unit roundoff [2^-53]. *)
Definition u64 : Q := 1 # 9007199254740992.

(** [int(x)] on a float: truncation toward zero. *)
Definition trunc (q : Q) : Z := Z.quot (Qnum q) (Z.pos (Qden q)).

Inductive pynum : Type :=
| PyInt (z : Z)
| PyFloat (q : Q).

(** [float(a)]: an int is rounded to the nearest binary64. *)
Definition to_float (a : pynum) : Q :=
  match a with
  | PyInt z => rnd64 (inject_Z z)
  | PyFloat q => q
  end.

Definition py_add (a b : pynum) : pynum :=
  match a, b with
  | PyInt x, PyInt y => PyInt (x + y)
  | _, _ => PyFloat (rnd64 (to_float a + to_float b))
  end.

Definition py_sub (a b : pynum) : pynum :=
  match a, b with
  | PyInt x, PyInt y => PyInt (x - y)
  | _, _ => PyFloat (rnd64 (to_float a - to_float b))
  end.

Definition py_mul (a b : pynum) : pynum :=
  match a, b with
  | PyInt x, PyInt y => PyInt (x * y)
  | _, _ => PyFloat (rnd64 (to_float a * to_float b))
  end.

(** True division [a / b]: always a float; of two ints the correctly
    rounded quotient.  A zero divisor raises [ZeroDivisionError]. *)
Definition py_truediv (a b : pynum) : result pynum :=
  match a, b with
  | PyInt x, PyInt y =>
      if (y =? 0)%Z then Raise ZeroDivisionError
      else Ok (PyFloat (rnd64 (inject_Z x / inject_Z y)))
  | _, _ =>
      if Qeq_bool (to_float b) 0 then Raise ZeroDivisionError
      else Ok (PyFloat (rnd64 (to_float a / to_float b)))
  end.

(** [int(a)]. *)
Definition py_int (a : pynum) : Z :=
  match a with
  | PyInt z => z
  | PyFloat q => trunc q
  end.

(** [min(a, b)] and [max(a, b)] on floats: the first argument wins a tie. *)
Definition fmin (a b : Q) : Q := if Qle_bool a b then a else b.
Definition fmax (a b : Q) : Q := if Qle_bool b a then a else b.

(** The float literals of the module. *)
Definition f_1_1 : Q := rnd64 (11 # 10).
Definition f_0_9 : Q := rnd64 (9 # 10).
Definition f_0_01 : Q := rnd64 (1 # 100).
Definition f_0_95 : Q := rnd64 (95 # 100).
Definition f_50 : Q := 50.
Definition f_2 : Q := 2.

(** Reading of the kernel's binary64 floats, used to test [rnd64] against
    the hardware arithmetic. *)
Definition SF2Q (x : spec_float) : option Q :=
  match x with
  | S754_zero _ => Some 0
  | S754_finite s m e =>
      Some (Qred (inject_Z (if s then Z.neg m else Z.pos m) * 2 ^ e))
  | _ => None
  end.

Definition Prim2Q (x : float) : option Q := SF2Q (Prim2SF x).

End PyNum.
Export PyNum.

(** ** Python strings

    [str.strip], [str.split] without arguments, [int(s)], [float(s)],
    [str(n)] and the [.6f] format, on strings of one-byte characters.
    [int] and [float] read an optional sign and decimal digits ([float]
    also a fraction and a decimal exponent); digit-group underscores and
    non-ASCII digits are not modelled, and the spellings of infinity and
    NaN are rejected here: in [load_image_data] such a token makes the
    following [int(...)] raise, so the line raises either way. *)

Module PyStr.

Local Open Scope string_scope.
Local Open Scope Z_scope.

(** [c.isspace()] for a character below 256. *)
Definition is_space (c : ascii) : bool :=
  let n := Z.of_nat (nat_of_ascii c) in
  ((9 <=? n) && (n <=? 13)) || ((28 <=? n) && (n <=? 32))
  || (n =? 133) || (n =? 160).

Definition is_empty (s : string) : bool :=
  match s with
  | EmptyString => true
  | String _ _ => false
  end.

Fixpoint lstrip (s : string) : string :=
  match s with
  | EmptyString => EmptyString
  | String c s' => if is_space c then lstrip s' else s
  end.

Fixpoint rstrip (s : string) : string :=
  match s with
  | EmptyString => EmptyString
  | String c s' =>
      let r := rstrip s' in
      if is_empty r && is_space c then EmptyString else String c r
  end.

Definition strip (s : string) : string := rstrip (lstrip s).

(** [split_acc cur s]: the words of [s], [cur] being the word under way. *)
Fixpoint split_acc (cur : string) (s : string) : list string :=
  match s with
  | EmptyString => if is_empty cur then [] else [cur]
  | String c s' =>
      if is_space c then
        if is_empty cur then split_acc EmptyString s'
        else cur :: split_acc EmptyString s'
      else split_acc (cur ++ String c EmptyString) s'
  end.

(** [s.split()]. *)
Definition split (s : string) : list string := split_acc EmptyString s.

Definition digit_of (c : ascii) : option Z :=
  let n := Z.of_nat (nat_of_ascii c) in
  if (48 <=? n) && (n <=? 57) then Some (n - 48) else None.

Definition digit_char (d : Z) : ascii := ascii_of_nat (Z.to_nat (48 + d)).

Fixpoint parse_digits (acc : Z) (s : string) : option Z :=
  match s with
  | EmptyString => Some acc
  | String c s' =>
      match digit_of c with
      | Some d => parse_digits (10 * acc + d) s'
      | None => None
      end
  end.

(** One or more decimal digits. *)
Definition parse_nat (s : string) : option Z :=
  if is_empty s then None else parse_digits 0 s.

(** An optional sign, then what [p] reads. *)
Definition signed {A : Type} (neg : A -> A) (p : string -> option A)
    (s : string) : option A :=
  match s with
  | String "-" r => option_map neg (p r)
  | String "+" r => p r
  | _ => p s
  end.

(** [int(s)]; [None] stands for [ValueError]. *)
Definition int_of_string (s : string) : option Z := signed Z.opp parse_nat s.

(** The part of [s] before its first character in [p], and the part after
    it when there is one. *)
Fixpoint break_at (p : ascii -> bool) (s : string) : string * option string :=
  match s with
  | EmptyString => (EmptyString, None)
  | String c s' =>
      if p c then (EmptyString, Some s')
      else let '(a, b) := break_at p s' in (String c a, b)
  end.

Definition is_dot (c : ascii) : bool := (Z.of_nat (nat_of_ascii c) =? 46).
Definition is_exp (c : ascii) : bool :=
  let n := Z.of_nat (nat_of_ascii c) in (n =? 101) || (n =? 69).

Definition pow10 (e : Z) : Q := Qpower 10 e.

(** Digits with an optional fraction: the exact value. *)
Definition parse_decimal (s : string) : option Q :=
  let '(ip, fp) := break_at is_dot s in
  let fp := match fp with Some f => f | None => EmptyString end in
  if is_empty ip && is_empty fp then None
  else
    match parse_digits 0 ip, parse_digits 0 fp with
    | Some i, Some f =>
        Some (inject_Z i + inject_Z f / pow10 (Z.of_nat (String.length fp)))%Q
    | _, _ => None
    end.

(** Mantissa and optional decimal exponent: the exact value. *)
Definition parse_unsigned_float (s : string) : option Q :=
  let '(m, e) := break_at is_exp s in
  match parse_decimal m, e with
  | Some v, None => Some v
  | Some v, Some es =>
      match int_of_string es with
      | Some k => Some (v * pow10 k)%Q
      | None => None
      end
  | None, _ => None
  end.

(** [float(s)]: the decimal value rounded to the nearest binary64;
    [None] stands for [ValueError]. *)
Definition float_of_string (s : string) : option Q :=
  option_map rnd64 (signed Qopp parse_unsigned_float s).

(** Decimal digits of [n], most significant first, in front of [acc]. *)
Fixpoint digits_fuel (fuel : nat) (n : Z) (acc : string) : string :=
  match fuel with
  | O => acc
  | S f =>
      let acc' := String (digit_char (n mod 10)) acc in
      if n <? 10 then acc' else digits_fuel f (n / 10) acc'
  end.

Definition str_nat (n : Z) : string :=
  digits_fuel (S (Z.to_nat (Z.log2 n))) n EmptyString.

(** [str(z)]. *)
Definition str_int (z : Z) : string :=
  if z <? 0 then String "-" (str_nat (- z)) else str_nat z.

(** The six fraction digits of [m], with leading zeros. *)
Definition pad6 (m : Z) : string :=
  String (digit_char (m / 100000 mod 10))
  (String (digit_char (m / 10000 mod 10))
  (String (digit_char (m / 1000 mod 10))
  (String (digit_char (m / 100 mod 10))
  (String (digit_char (m / 10 mod 10))
  (String (digit_char (m mod 10)) EmptyString))))).

(** [format(q, '.6f')]: the decimal expansion of the exact value of [q],
    rounded to six fraction digits, ties to even. *)
Definition format_6f (q : Q) : string :=
  let n := rne (Qabs q * 1000000) in
  let body := str_nat (n / 1000000) ++ String "." (pad6 (n mod 1000000)) in
  if Qle_bool 0 q then body else String "-" body.

Definition newline : string := String (ascii_of_nat 10) EmptyString.

End PyStr.
Export PyStr.

(** ** The annotation module ([core/annotation.py])

    [Session] holds the attributes of an [AnnotationModule] instance; its
    [ui] field holds what the code reads from and writes to its Qt widgets.
    What the user or the environment supplies is a parameter of the
    handler: the mouse event, the answer to a question dialog, the row
    highlighted in the box table, the file system, and the I/O operation
    that fails (if any).  Repaint requests ([update()]) have no effect on
    the state and are left out; dialog and status texts are named by
    constructors. *)

Module Annotation.

Local Open Scope string_scope.
Local Open Scope Z_scope.
Local Open Scope py_scope.

(** *** Python lists *)

Definition len {A : Type} (l : list A) : Z := Z.of_nat (List.length l).

(** [l[i]], a negative [i] counting from the end. *)
Definition py_getitem {A : Type} (l : list A) (i : Z) : result A :=
  let j := if i <? 0 then i + len l else i in
  if (0 <=? j) && (j <? len l)
  then of_option IndexError (nth_error l (Z.to_nat j))
  else Raise IndexError.

Fixpoint list_update {A : Type} (f : A -> A) (k : nat) (l : list A) : list A :=
  match l, k with
  | [], _ => []
  | a :: l', O => f a :: l'
  | a :: l', S k' => a :: list_update f k' l'
  end.

(** [l[i][field] = value]: the element at [i] is updated in place. *)
Definition py_update {A : Type} (f : A -> A) (l : list A) (i : Z)
    : result (list A) :=
  let j := if i <? 0 then i + len l else i in
  if (0 <=? j) && (j <? len l)
  then Ok (list_update f (Z.to_nat j) l)
  else Raise IndexError.

Fixpoint list_delete {A : Type} (k : nat) (l : list A) : list A :=
  match l, k with
  | [], _ => []
  | _ :: l', O => l'
  | a :: l', S k' => a :: list_delete k' l'
  end.

(** *** Paths and the file system

    A path is the tuple of its [pathlib] parts. *)

Definition Path : Type := list string.

Definition path_eqb (p q : Path) : bool :=
  if list_eq_dec string_dec p q then true else false.

(** The part of a name before its last dot, and the part after it. *)
Fixpoint rsplit_dot (s : list ascii) : option (list ascii * list ascii) :=
  match s with
  | [] => None
  | c :: s' =>
      match rsplit_dot s' with
      | Some (a, b) => Some (c :: a, b)
      | None => if is_dot c then Some ([], s') else None
      end
  end.

(** The name with its suffix (a last dot that is neither the first nor the
    last character, and what follows) replaced by [.txt]. *)
Definition name_with_txt (nm : string) : string :=
  let stem :=
    match rsplit_dot (list_ascii_of_string nm) with
    | Some (a :: a', _ :: _) => string_of_list_ascii (a :: a')
    | _ => nm
    end in
  stem ++ ".txt".

(** [p.name]: the last part, unless it is the root. *)
Definition path_name (p : Path) : string :=
  let nm := last p "" in
  if String.eqb nm "/" then "" else nm.

(** [p.with_suffix('.txt')]; a path without a name raises [ValueError]. *)
Definition with_suffix_txt (p : Path) : result Path :=
  if is_empty (path_name p) then Raise ValueError
  else Ok (removelast p ++ [name_with_txt (path_name p)])%list.

Definition parent (p : Path) : Path := removelast p.

(** The parts with the last ["images"] replaced by ["labels"]; [None] when
    no part is ["images"]. *)
Fixpoint replace_last_images (parts : list string) : option (list string) :=
  match parts with
  | [] => None
  | p :: ps =>
      match replace_last_images ps with
      | Some ps' => Some (p :: ps')
      | None => if String.eqb p "images" then Some ("labels" :: ps) else None
      end
  end.

(** A text file is the list of its lines, each with its line end (the
    last one may lack it); [images] gives the width and height of what
    [cv2.imread] can decode. *)
Record FileSystem : Type := {
  files : Path -> option (list string);
  dirs : Path -> bool;
  images : Path -> option (Z * Z)
}.

Definition path_exists (fs : FileSystem) (p : Path) : bool :=
  match files fs p with
  | Some _ => true
  | None => dirs fs p
  end.

Definition fs_write (p : Path) (content : list string) (fs : FileSystem)
    : FileSystem :=
  {| files := fun q => if path_eqb q p then Some content else files fs q;
     dirs := dirs fs;
     images := images fs |}.

(** The file object of [open(p, 'w')] keeps the text handed to [write] in
    a buffer and passes it on to the file when the buffer is full and when
    the file is closed, at the end of the [with] block.  A fault of the
    device during a save is [Some (k, m)]: the [k]-th I/O operation of the
    save raises [OSError], [open] being operation 0, the [i]-th [write]
    operation [i], and the closing of the file the operation after the
    last [write]; when that happens the first [m] characters of the text
    handed to [write] have reached the file, and no more will. *)
Definition Fault : Type := option (nat * nat).

(** The number of operations after [open] that succeed. *)
Definition io_budget (fault : Fault) : option nat :=
  option_map (fun f => Nat.pred (fst f)) fault.

Definition flushed (fault : Fault) : nat :=
  match fault with
  | Some (_, m) => m
  | None => O
  end.

(** The first [n] characters of a text given by its lines. *)
Fixpoint text_prefix (n : nat) (lines : list string) : list string :=
  match lines, n with
  | [], _ => []
  | _ :: _, O => []
  | l :: ls, S _ =>
      if (n <? String.length l)%nat then [substring 0 n l]
      else l :: text_prefix (n - String.length l) ls
  end.

(** [open(p, 'w')]: the file is created or emptied. *)
Definition open_w (fault : Fault) (fs : FileSystem) (p : Path)
    : result FileSystem :=
  match fault with
  | Some (O, _) => Raise OSError
  | _ => if dirs fs (parent p) then Ok (fs_write p [] fs) else Raise OSError
  end.

(** [open(p, 'r')] and the lines of the file. *)
Definition open_r (fs : FileSystem) (p : Path) : result (list string) :=
  of_option OSError (files fs p).

(** *** Data *)

Record Box : Type := mkBox {
  class_id : Z;
  class_name : string;
  x1 : Z;
  y1 : Z;
  x2 : Z;
  y2 : Z
}.

(** The provisional box: a dict with the four coordinates only. *)
Record Rect : Type := mkRect {
  r_x1 : Z;
  r_y1 : Z;
  r_x2 : Z;
  r_y2 : Z
}.

(** An entry of [image_list_data]. *)
Record ImageRecord : Type := {
  path : Path;
  name : string;
  has_annotation : bool;
  annot_count : Z;
  label_types : list string;
  txt_path : option Path
}.

Definition set_has_annotation (v : bool) (r : ImageRecord) : ImageRecord :=
  {| path := path r; name := name r; has_annotation := v;
     annot_count := annot_count r; label_types := label_types r;
     txt_path := txt_path r |}.

Definition set_annot_count (v : Z) (r : ImageRecord) : ImageRecord :=
  {| path := path r; name := name r; has_annotation := has_annotation r;
     annot_count := v; label_types := label_types r;
     txt_path := txt_path r |}.

Definition set_txt_path (v : option Path) (r : ImageRecord) : ImageRecord :=
  {| path := path r; name := name r; has_annotation := has_annotation r;
     annot_count := annot_count r; label_types := label_types r;
     txt_path := v |}.

Inductive Cursor : Type := ArrowCursor | CrossCursor | ClosedHandCursor.

Inductive MouseButton : Type :=
| LeftButton | RightButton | MiddleButton | OtherButton.

(** A mouse event: its button, [position()] and [position().toPoint()]. *)
Record MouseEvent : Type := {
  button : MouseButton;
  position : Q * Q;
  to_point : Z * Z
}.

(** The answer to a [QMessageBox.question]. *)
Inductive Reply : Type := Yes | No | Cancel.

(** The message boxes the module shows. *)
Inductive Message : Type :=
| CannotReadImage
| SelectClassFirst
| SaveFailed (e : exn).

(** The texts of the status label. *)
Inductive Status : Type :=
| StReady
| StAnnotating (nm : string)
| StBrowseHint
| StDrawing
| StBrowse
| StSaved (nm : string).

(** A row of the image table: file name, annotated or not, number of
    boxes, class names. *)
Record ListRow : Type := {
  cell_name : string;
  cell_status : bool;
  cell_count : Z;
  cell_types : list string
}.

Definition set_cell_status (v : bool) (r : ListRow) : ListRow :=
  {| cell_name := cell_name r; cell_status := v; cell_count := cell_count r;
     cell_types := cell_types r |}.

Definition set_cell_count (v : Z) (r : ListRow) : ListRow :=
  {| cell_name := cell_name r; cell_status := cell_status r; cell_count := v;
     cell_types := cell_types r |}.

(** A row of the box table: class name and the four coordinates. *)
Definition InfoRow : Type := (string * Z * Z * Z * Z)%type.

Record View : Type := {
  scale_factor : Q;
  offset : Z * Z
}.

Record Gesture : Type := {
  drawing : bool;
  panning : bool;
  last_mouse_pos : Z * Z;
  start_point : option (Z * Z);
  current_box : option Rect
}.

Definition set_drawing (v : bool) (r : Gesture) : Gesture :=
  {| drawing := v; panning := panning r; last_mouse_pos := last_mouse_pos r;
     start_point := start_point r; current_box := current_box r |}.

Definition set_panning (v : bool) (r : Gesture) : Gesture :=
  {| drawing := drawing r; panning := v; last_mouse_pos := last_mouse_pos r;
     start_point := start_point r; current_box := current_box r |}.

Definition set_last_mouse_pos (v : Z * Z) (r : Gesture) : Gesture :=
  {| drawing := drawing r; panning := panning r; last_mouse_pos := v;
     start_point := start_point r; current_box := current_box r |}.

Definition set_start_point (v : option (Z * Z)) (r : Gesture) : Gesture :=
  {| drawing := drawing r; panning := panning r;
     last_mouse_pos := last_mouse_pos r; start_point := v;
     current_box := current_box r |}.

Definition set_current_box (v : option Rect) (r : Gesture) : Gesture :=
  {| drawing := drawing r; panning := panning r;
     last_mouse_pos := last_mouse_pos r; start_point := start_point r;
     current_box := v |}.

Record Widgets : Type := {
  image_list : list ListRow;
  image_list_selection : option Z;
  annot_info_table : list InfoRow;
  class_combo_items : list string;
  class_combo_index : Z;
  btn_draw_box : bool;
  btn_save_annot : bool;
  cursor : Cursor;
  status_label : Status;
  label_size : Z * Z;
  dialogs : list Message;
  console : list exn
}.

Definition set_image_list (v : list ListRow) (r : Widgets) : Widgets :=
  {| image_list := v; image_list_selection := image_list_selection r;
     annot_info_table := annot_info_table r;
     class_combo_items := class_combo_items r;
     class_combo_index := class_combo_index r;
     btn_draw_box := btn_draw_box r; btn_save_annot := btn_save_annot r;
     cursor := cursor r; status_label := status_label r;
     label_size := label_size r; dialogs := dialogs r;
     console := console r |}.

Definition set_image_list_selection (v : option Z) (r : Widgets) : Widgets :=
  {| image_list := image_list r; image_list_selection := v;
     annot_info_table := annot_info_table r;
     class_combo_items := class_combo_items r;
     class_combo_index := class_combo_index r;
     btn_draw_box := btn_draw_box r; btn_save_annot := btn_save_annot r;
     cursor := cursor r; status_label := status_label r;
     label_size := label_size r; dialogs := dialogs r;
     console := console r |}.

Definition set_annot_info_table (v : list InfoRow) (r : Widgets) : Widgets :=
  {| image_list := image_list r;
     image_list_selection := image_list_selection r; annot_info_table := v;
     class_combo_items := class_combo_items r;
     class_combo_index := class_combo_index r;
     btn_draw_box := btn_draw_box r; btn_save_annot := btn_save_annot r;
     cursor := cursor r; status_label := status_label r;
     label_size := label_size r; dialogs := dialogs r;
     console := console r |}.

Definition set_btn_draw_box (v : bool) (r : Widgets) : Widgets :=
  {| image_list := image_list r;
     image_list_selection := image_list_selection r;
     annot_info_table := annot_info_table r;
     class_combo_items := class_combo_items r;
     class_combo_index := class_combo_index r; btn_draw_box := v;
     btn_save_annot := btn_save_annot r; cursor := cursor r;
     status_label := status_label r; label_size := label_size r;
     dialogs := dialogs r; console := console r |}.

Definition set_btn_save_annot (v : bool) (r : Widgets) : Widgets :=
  {| image_list := image_list r;
     image_list_selection := image_list_selection r;
     annot_info_table := annot_info_table r;
     class_combo_items := class_combo_items r;
     class_combo_index := class_combo_index r;
     btn_draw_box := btn_draw_box r; btn_save_annot := v; cursor := cursor r;
     status_label := status_label r; label_size := label_size r;
     dialogs := dialogs r; console := console r |}.

Definition set_cursor (v : Cursor) (r : Widgets) : Widgets :=
  {| image_list := image_list r;
     image_list_selection := image_list_selection r;
     annot_info_table := annot_info_table r;
     class_combo_items := class_combo_items r;
     class_combo_index := class_combo_index r;
     btn_draw_box := btn_draw_box r; btn_save_annot := btn_save_annot r;
     cursor := v; status_label := status_label r; label_size := label_size r;
     dialogs := dialogs r; console := console r |}.

Definition set_status_label (v : Status) (r : Widgets) : Widgets :=
  {| image_list := image_list r;
     image_list_selection := image_list_selection r;
     annot_info_table := annot_info_table r;
     class_combo_items := class_combo_items r;
     class_combo_index := class_combo_index r;
     btn_draw_box := btn_draw_box r; btn_save_annot := btn_save_annot r;
     cursor := cursor r; status_label := v; label_size := label_size r;
     dialogs := dialogs r; console := console r |}.

Definition set_dialogs (v : list Message) (r : Widgets) : Widgets :=
  {| image_list := image_list r;
     image_list_selection := image_list_selection r;
     annot_info_table := annot_info_table r;
     class_combo_items := class_combo_items r;
     class_combo_index := class_combo_index r;
     btn_draw_box := btn_draw_box r; btn_save_annot := btn_save_annot r;
     cursor := cursor r; status_label := status_label r;
     label_size := label_size r; dialogs := v; console := console r |}.

Definition set_console (v : list exn) (r : Widgets) : Widgets :=
  {| image_list := image_list r;
     image_list_selection := image_list_selection r;
     annot_info_table := annot_info_table r;
     class_combo_items := class_combo_items r;
     class_combo_index := class_combo_index r;
     btn_draw_box := btn_draw_box r; btn_save_annot := btn_save_annot r;
     cursor := cursor r; status_label := status_label r;
     label_size := label_size r; dialogs := dialogs r; console := v |}.

Record Session : Type := {
  boxes : list Box;
  current_image_path : option Path;
  image_list_data : list ImageRecord;
  classes : list string;
  current_cv_img : option (Z * Z);
  qt_pixmap : option (Z * Z);
  is_modified : bool;
  last_selected_row : Z;
  img_width : Z;
  img_height : Z;
  view : View;
  gesture : Gesture;
  ui : Widgets
}.

Definition set_boxes (v : list Box) (r : Session) : Session :=
  {| boxes := v; current_image_path := current_image_path r;
     image_list_data := image_list_data r; classes := classes r;
     current_cv_img := current_cv_img r; qt_pixmap := qt_pixmap r;
     is_modified := is_modified r; last_selected_row := last_selected_row r;
     img_width := img_width r; img_height := img_height r; view := view r;
     gesture := gesture r; ui := ui r |}.

Definition set_current_image_path (v : option Path) (r : Session) : Session :=
  {| boxes := boxes r; current_image_path := v;
     image_list_data := image_list_data r; classes := classes r;
     current_cv_img := current_cv_img r; qt_pixmap := qt_pixmap r;
     is_modified := is_modified r; last_selected_row := last_selected_row r;
     img_width := img_width r; img_height := img_height r; view := view r;
     gesture := gesture r; ui := ui r |}.

Definition set_image_list_data (v : list ImageRecord) (r : Session) : Session :=
  {| boxes := boxes r; current_image_path := current_image_path r;
     image_list_data := v; classes := classes r;
     current_cv_img := current_cv_img r; qt_pixmap := qt_pixmap r;
     is_modified := is_modified r; last_selected_row := last_selected_row r;
     img_width := img_width r; img_height := img_height r; view := view r;
     gesture := gesture r; ui := ui r |}.

Definition set_current_cv_img (v : option (Z * Z)) (r : Session) : Session :=
  {| boxes := boxes r; current_image_path := current_image_path r;
     image_list_data := image_list_data r; classes := classes r;
     current_cv_img := v; qt_pixmap := qt_pixmap r;
     is_modified := is_modified r; last_selected_row := last_selected_row r;
     img_width := img_width r; img_height := img_height r; view := view r;
     gesture := gesture r; ui := ui r |}.

Definition set_qt_pixmap (v : option (Z * Z)) (r : Session) : Session :=
  {| boxes := boxes r; current_image_path := current_image_path r;
     image_list_data := image_list_data r; classes := classes r;
     current_cv_img := current_cv_img r; qt_pixmap := v;
     is_modified := is_modified r; last_selected_row := last_selected_row r;
     img_width := img_width r; img_height := img_height r; view := view r;
     gesture := gesture r; ui := ui r |}.

Definition set_is_modified (v : bool) (r : Session) : Session :=
  {| boxes := boxes r; current_image_path := current_image_path r;
     image_list_data := image_list_data r; classes := classes r;
     current_cv_img := current_cv_img r; qt_pixmap := qt_pixmap r;
     is_modified := v; last_selected_row := last_selected_row r;
     img_width := img_width r; img_height := img_height r; view := view r;
     gesture := gesture r; ui := ui r |}.

Definition set_last_selected_row (v : Z) (r : Session) : Session :=
  {| boxes := boxes r; current_image_path := current_image_path r;
     image_list_data := image_list_data r; classes := classes r;
     current_cv_img := current_cv_img r; qt_pixmap := qt_pixmap r;
     is_modified := is_modified r; last_selected_row := v;
     img_width := img_width r; img_height := img_height r; view := view r;
     gesture := gesture r; ui := ui r |}.

Definition set_img_width (v : Z) (r : Session) : Session :=
  {| boxes := boxes r; current_image_path := current_image_path r;
     image_list_data := image_list_data r; classes := classes r;
     current_cv_img := current_cv_img r; qt_pixmap := qt_pixmap r;
     is_modified := is_modified r; last_selected_row := last_selected_row r;
     img_width := v; img_height := img_height r; view := view r;
     gesture := gesture r; ui := ui r |}.

Definition set_img_height (v : Z) (r : Session) : Session :=
  {| boxes := boxes r; current_image_path := current_image_path r;
     image_list_data := image_list_data r; classes := classes r;
     current_cv_img := current_cv_img r; qt_pixmap := qt_pixmap r;
     is_modified := is_modified r; last_selected_row := last_selected_row r;
     img_width := img_width r; img_height := v; view := view r;
     gesture := gesture r; ui := ui r |}.

Definition set_view (v : View) (r : Session) : Session :=
  {| boxes := boxes r; current_image_path := current_image_path r;
     image_list_data := image_list_data r; classes := classes r;
     current_cv_img := current_cv_img r; qt_pixmap := qt_pixmap r;
     is_modified := is_modified r; last_selected_row := last_selected_row r;
     img_width := img_width r; img_height := img_height r; view := v;
     gesture := gesture r; ui := ui r |}.

Definition set_gesture (v : Gesture) (r : Session) : Session :=
  {| boxes := boxes r; current_image_path := current_image_path r;
     image_list_data := image_list_data r; classes := classes r;
     current_cv_img := current_cv_img r; qt_pixmap := qt_pixmap r;
     is_modified := is_modified r; last_selected_row := last_selected_row r;
     img_width := img_width r; img_height := img_height r; view := view r;
     gesture := v; ui := ui r |}.

Definition set_ui (v : Widgets) (r : Session) : Session :=
  {| boxes := boxes r; current_image_path := current_image_path r;
     image_list_data := image_list_data r; classes := classes r;
     current_cv_img := current_cv_img r; qt_pixmap := qt_pixmap r;
     is_modified := is_modified r; last_selected_row := last_selected_row r;
     img_width := img_width r; img_height := img_height r; view := view r;
     gesture := gesture r; ui := v |}.

Definition upd_ui (f : Widgets -> Widgets) (s : Session) : Session :=
  set_ui (f (ui s)) s.

Definition upd_gesture (f : Gesture -> Gesture) (s : Session) : Session :=
  set_gesture (f (gesture s)) s.

Definition show_message (m : Message) (s : Session) : Session :=
  upd_ui (fun w => set_dialogs (dialogs w ++ [m])%list w) s.

Definition has_pixmap (s : Session) : bool :=
  match qt_pixmap s with
  | Some _ => true
  | None => false
  end.

(** *** Label codec: one line of a label file *)

(** The body of the loop of [load_image_data]: [Ok None] for a line with
    fewer than five words, [Ok (Some b)] for a decoded box. *)
Definition parse_label_line (cls : list string) (W H : Z) (line : string)
    : result (option Box) :=
  let parts := split (strip line) in
  if 5 <=? len parts then
    cid <- of_option ValueError (int_of_string (nth 0 parts "")) ;;
    xc <- of_option ValueError (float_of_string (nth 1 parts "")) ;;
    yc <- of_option ValueError (float_of_string (nth 2 parts "")) ;;
    w <- of_option ValueError (float_of_string (nth 3 parts "")) ;;
    h <- of_option ValueError (float_of_string (nth 4 parts "")) ;;
    hw <- py_truediv (PyFloat w) (PyInt 2) ;;
    hh <- py_truediv (PyFloat h) (PyInt 2) ;;
    let bx1 := py_int (py_mul (py_sub (PyFloat xc) hw) (PyInt W)) in
    let by1 := py_int (py_mul (py_sub (PyFloat yc) hh) (PyInt H)) in
    let bx2 := py_int (py_mul (py_add (PyFloat xc) hw) (PyInt W)) in
    let by2 := py_int (py_mul (py_add (PyFloat yc) hh) (PyInt H)) in
    cname <- (if cid <? len cls then py_getitem cls cid
              else Ok (str_int cid)) ;;
    Ok (Some (mkBox cid cname bx1 by1 bx2 by2))
  else Ok None.

(** The loop over the lines, inside the [try]: the first line that raises
    ends the loop; the boxes appended before it stay in [self.boxes]. *)
Fixpoint load_lines (cls : list string) (W H : Z) (lines : list string)
    (acc : list Box) : list Box * option exn :=
  match lines with
  | [] => (acc, None)
  | l :: ls =>
      match parse_label_line cls W H l with
      | Raise e => (acc, Some e)
      | Ok None => load_lines cls W H ls acc
      | Ok (Some b) => load_lines cls W H ls (acc ++ [b])%list
      end
  end.

(** The line [save_annotation] writes for a box. *)
Definition encode_box (b : Box) (W H : Z) : result string :=
  sx <- py_truediv (PyInt (x1 b + x2 b)) (PyFloat f_2) ;;
  xc <- py_truediv sx (PyInt W) ;;
  sy <- py_truediv (PyInt (y1 b + y2 b)) (PyFloat f_2) ;;
  yc <- py_truediv sy (PyInt H) ;;
  w <- py_truediv (PyInt (x2 b - x1 b)) (PyFloat (to_float (PyInt W))) ;;
  h <- py_truediv (PyInt (y2 b - y1 b)) (PyFloat (to_float (PyInt H))) ;;
  Ok (str_int (class_id b) ++ " " ++ format_6f (to_float xc) ++ " "
      ++ format_6f (to_float yc) ++ " " ++ format_6f (to_float w) ++ " "
      ++ format_6f (to_float h) ++ newline).

(** The loop of [save_annotation] over the boxes: the lines handed to
    [write] so far, the number of I/O operations that still succeed
    ([None]: all of them), and the exception that ended the loop, if
    any. *)
Fixpoint write_boxes (budget : option nat) (bs : list Box) (W H : Z)
    (written : list string) : list string * option nat * option exn :=
  match bs with
  | [] => (written, budget, None)
  | b :: bs' =>
      match encode_box b W H with
      | Raise e => (written, budget, Some e)
      | Ok line =>
          match budget with
          | Some O => ((written ++ [line])%list, Some O, Some OSError)
          | Some (S k) => write_boxes (Some k) bs' W H (written ++ [line])%list
          | None => write_boxes None bs' W H (written ++ [line])%list
          end
      end
  end.

(** *** QPoint

    The coordinates of a [QPoint] are C ints.  [setX] and [setY] raise
    [OverflowError] for a Python int outside their range; [+=] and [-]
    compute in C, where the result wraps around. *)

Definition fits_int (z : Z) : bool := (- 2 ^ 31 <=? z) && (z <? 2 ^ 31).

Definition wrap_int (z : Z) : Z := (z + 2 ^ 31) mod 2 ^ 32 - 2 ^ 31.

Definition qpoint_add (p q : Z * Z) : Z * Z :=
  (wrap_int (fst p + fst q), wrap_int (snd p + snd q)).

Definition qpoint_sub (p q : Z * Z) : Z * Z :=
  (wrap_int (fst p - fst q), wrap_int (snd p - snd q)).

(** *** Viewport transform *)

Definition img_to_screen (v : View) (x y : pynum) : Z * Z :=
  let sx := py_add (py_mul x (PyFloat (scale_factor v)))
                   (PyInt (fst (offset v))) in
  let sy := py_add (py_mul y (PyFloat (scale_factor v)))
                   (PyInt (snd (offset v))) in
  (py_int sx, py_int sy).

Definition screen_to_img (v : View) (sx sy : pynum) : result (Z * Z) :=
  ix <- py_truediv (py_sub sx (PyInt (fst (offset v))))
                   (PyFloat (scale_factor v)) ;;
  iy <- py_truediv (py_sub sy (PyInt (snd (offset v))))
                   (PyFloat (scale_factor v)) ;;
  Ok (py_int ix, py_int iy).

Definition reset_view_fit (s : Session) : result Session :=
  if negb (has_pixmap s) then Ok s
  else
    let '(label_w, label_h) := label_size (ui s) in
    if (label_w =? 0) || (label_h =? 0) then Ok s
    else
      scale_w <- py_truediv (PyInt label_w) (PyInt (img_width s)) ;;
      scale_h <- py_truediv (PyInt label_h) (PyInt (img_height s)) ;;
      let sf := py_mul (PyFloat (fmin (to_float scale_w) (to_float scale_h)))
                       (PyFloat f_0_95) in
      let new_w := py_mul (PyInt (img_width s)) sf in
      let new_h := py_mul (PyInt (img_height s)) sf in
      ox <- py_truediv (py_sub (PyInt label_w) new_w) (PyInt 2) ;;
      oy <- py_truediv (py_sub (PyInt label_h) new_h) (PyInt 2) ;;
      Ok (set_view {| scale_factor := to_float sf;
                      offset := (py_int ox, py_int oy) |} s).

(** [on_wheel_event]: [angle] is [event.angleDelta().y()], [mouse_pos]
    is [event.position()].  The scale is assigned first, then the two
    coordinates of the offset, one after the other: the result is the
    session when the handler ends and the exception that ended it, if
    any. *)
Definition on_wheel_event (angle : Z) (mouse_pos : Q * Q) (s : Session)
    : Session * option exn :=
  if negb (has_pixmap s) then (s, None)
  else
    let zoom_in := 0 <? angle in
    let old_scale := scale_factor (view s) in
    let zoom_rate := if zoom_in then f_1_1 else f_0_9 in
    let sf := to_float (py_mul (PyFloat old_scale) (PyFloat zoom_rate)) in
    let sf := fmax f_0_01 (fmin sf f_50) in
    let '(old_x, old_y) := offset (view s) in
    let s := set_view {| scale_factor := sf; offset := (old_x, old_y) |} s in
    let vec_x := py_sub (PyFloat (fst mouse_pos)) (PyInt old_x) in
    let vec_y := py_sub (PyFloat (snd mouse_pos)) (PyInt old_y) in
    match py_truediv (PyFloat sf) (PyFloat old_scale) with
    | Raise e => (s, Some e)
    | Ok ratio =>
        let ox :=
          py_int (py_sub (PyFloat (fst mouse_pos)) (py_mul vec_x ratio)) in
        if negb (fits_int ox) then (s, Some OverflowError)
        else
          let s := set_view {| scale_factor := sf; offset := (ox, old_y) |} s in
          let oy :=
            py_int (py_sub (PyFloat (snd mouse_pos)) (py_mul vec_y ratio)) in
          if negb (fits_int oy) then (s, Some OverflowError)
          else (set_view {| scale_factor := sf; offset := (ox, oy) |} s, None)
    end.

(** *** Widgets refreshed from the model *)

Definition update_annot_info_table (s : Session) : Session :=
  upd_ui (set_annot_info_table
            (map (fun b => (class_name b, x1 b, y1 b, x2 b, y2 b)) (boxes s)))
         s.

(** [QTableWidget.setItem] on the cells 1 and 2 of a row; a row the table
    does not have is left alone. *)
Definition table_set_row (row : Z) (status : bool) (count : Z)
    (t : list ListRow) : list ListRow :=
  if (0 <=? row) && (row <? len t)
  then list_update (fun r => set_cell_count count (set_cell_status status r))
                   (Z.to_nat row) t
  else t.

Definition update_image_list_ui_item (row : Z) (s : Session)
    : result Session :=
  _ <- py_getitem (image_list_data s) row ;;
  Ok (upd_ui (fun w =>
        set_image_list
          (table_set_row row (0 <? len (boxes s)) (len (boxes s))
                         (image_list w)) w) s).

(** [QTableWidget.selectRow]: a row the table does not have is ignored. *)
Definition select_row (row : Z) (w : Widgets) : Widgets :=
  if (0 <=? row) && (row <? len (image_list w))
  then set_image_list_selection (Some row) w
  else w.

Definition clear_selection (w : Widgets) : Widgets :=
  set_image_list_selection None w.

(** *** Drawing gesture *)

Definition cancel_drawing (s : Session) : Session :=
  let s := upd_gesture (set_drawing false) s in
  let s := upd_ui (set_btn_draw_box false) s in
  let s := upd_ui (set_cursor ArrowCursor) s in
  let s := upd_gesture (set_start_point None) s in
  let s := upd_gesture (set_current_box None) s in
  upd_ui (set_status_label StBrowseHint) s.

(** The pointer position of an event in image coordinates, clamped into
    the image. *)
Definition clamped_img_pos (ev : MouseEvent) (s : Session) : result (Z * Z) :=
  '(ix, iy) <- screen_to_img (view s) (PyFloat (fst (position ev)))
                                      (PyFloat (snd (position ev))) ;;
  Ok (Z.max 0 (Z.min ix (img_width s)), Z.max 0 (Z.min iy (img_height s))).

Definition start_panning (ev : MouseEvent) (s : Session) : Session :=
  let s := upd_gesture (set_panning true) s in
  let s := upd_gesture (set_last_mouse_pos (to_point ev)) s in
  upd_ui (set_cursor ClosedHandCursor) s.

Definition on_mouse_press (ev : MouseEvent) (s : Session) : result Session :=
  if negb (has_pixmap s) then Ok s
  else
    match button ev with
    | RightButton | MiddleButton => Ok (start_panning ev s)
    | LeftButton =>
        if drawing (gesture s) then
          '(ix, iy) <- clamped_img_pos ev s ;;
          let s := upd_gesture (set_start_point (Some (ix, iy))) s in
          Ok (upd_gesture (set_current_box (Some (mkRect ix iy ix iy))) s)
        else Ok (start_panning ev s)
    | OtherButton => Ok s
    end.

Definition on_mouse_move (ev : MouseEvent) (s : Session) : result Session :=
  if negb (has_pixmap s) then Ok s
  else if panning (gesture s) then
    let delta := qpoint_sub (to_point ev) (last_mouse_pos (gesture s)) in
    let s := set_view {| scale_factor := scale_factor (view s);
                         offset := qpoint_add (offset (view s)) delta |} s in
    Ok (upd_gesture (set_last_mouse_pos (to_point ev)) s)
  else
    match drawing (gesture s), start_point (gesture s) with
    | true, Some (sx, sy) =>
        '(ix, iy) <- clamped_img_pos ev s ;;
        Ok (upd_gesture
              (set_current_box
                 (Some (mkRect (Z.min sx ix) (Z.min sy iy)
                               (Z.max sx ix) (Z.max sy iy)))) s)
    | _, _ => Ok s
    end.

(** [self.image_list_data[row]['annot_count'] = len(self.boxes)] followed
    by [update_image_list_ui_item(row)], when a row is selected. *)
Definition sync_annot_count (s : Session) : result Session :=
  if 0 <=? last_selected_row s then
    l <- py_update (set_annot_count (len (boxes s))) (image_list_data s)
                   (last_selected_row s) ;;
    update_image_list_ui_item (last_selected_row s) (set_image_list_data l s)
  else Ok s.

Definition current_text (w : Widgets) : string :=
  if 0 <=? class_combo_index w
  then nth (Z.to_nat (class_combo_index w)) (class_combo_items w) ""
  else "".

Definition on_mouse_release (ev : MouseEvent) (s : Session) : result Session :=
  if negb (has_pixmap s) then Ok s
  else if panning (gesture s) then
    let s := upd_gesture (set_panning false) s in
    Ok (upd_ui (set_cursor (if drawing (gesture s) then CrossCursor
                            else ArrowCursor)) s)
  else
    match drawing (gesture s), start_point (gesture s) with
    | true, Some (sx, sy) =>
        if class_combo_index (ui s) =? -1 then
          Ok (cancel_drawing (show_message SelectClassFirst s))
        else
          '(ix, iy) <- clamped_img_pos ev s ;;
          let bx1 := Z.min sx ix in
          let by1 := Z.min sy iy in
          let bx2 := Z.max sx ix in
          let by2 := Z.max sy iy in
          s <- (if (2 <? bx2 - bx1) && (2 <? by2 - by1) then
                  let cid := class_combo_index (ui s) in
                  let b := mkBox cid (current_text (ui s)) bx1 by1 bx2 by2 in
                  let s := set_boxes (boxes s ++ [b])%list s in
                  let s := set_is_modified true s in
                  let s := update_annot_info_table s in
                  sync_annot_count s
                else Ok s) ;;
          Ok (cancel_drawing s)
    | _, _ => Ok s
    end.

(** The slot of [btn_draw_box.clicked]; [checked] is the state of the
    toggle button after the click. *)
Definition enable_draw_box (checked : bool) (s : Session) : Session :=
  if negb (has_pixmap s) then upd_ui (set_btn_draw_box false) s
  else
    let s := upd_gesture (set_drawing checked) s in
    if checked then
      upd_ui (set_status_label StDrawing) (upd_ui (set_cursor CrossCursor) s)
    else
      upd_ui (set_status_label StBrowse) (upd_ui (set_cursor ArrowCursor) s).

(** *** Editing the box list *)

(** [row] is [annot_info_table.currentRow()]. *)
Definition delete_selected_box (row : Z) (s : Session) : result Session :=
  if (0 <=? row) && (row <? len (boxes s)) then
    let s := set_boxes (list_delete (Z.to_nat row) (boxes s)) s in
    let s := set_is_modified true s in
    let s := update_annot_info_table s in
    sync_annot_count s
  else Ok s.

(** [confirmed]: the question dialog was answered with yes. *)
Definition clear_all_boxes (confirmed : bool) (s : Session) : result Session :=
  match boxes s with
  | [] => Ok s
  | _ :: _ =>
      if confirmed then
        let s := set_boxes [] s in
        let s := set_is_modified true s in
        let s := update_annot_info_table s in
        if 0 <=? last_selected_row s then
          l <- py_update (set_annot_count 0) (image_list_data s)
                         (last_selected_row s) ;;
          l <- py_update (set_has_annotation false) l (last_selected_row s) ;;
          update_image_list_ui_item (last_selected_row s)
                                    (set_image_list_data l s)
        else Ok s
      else Ok s
  end.

(** *** Saving *)

Definition is_falsy_path (p : option Path) : bool :=
  match p with
  | None | Some [] => true
  | Some (_ :: _) => false
  end.

(** The destination of [save_annotation]: the label path of the record,
    else the sibling under [labels] when its directory exists, else the
    image path with the suffix [.txt]. *)
Definition resolve_save_path (fs : FileSystem) (s : Session) (img_path : Path)
    : result Path :=
  save_path <- with_suffix_txt img_path ;;
  let curr_row := last_selected_row s in
  recorded <- (if 0 <=? curr_row then
                 d <- py_getitem (image_list_data s) curr_row ;;
                 Ok (txt_path d)
               else Ok None) ;;
  if negb (is_falsy_path recorded) then
    Ok (match recorded with Some p => p | None => save_path end)
  else
    match replace_last_images img_path with
    | Some parts =>
        match with_suffix_txt parts with
        | Ok label_path =>
            if path_exists fs (parent label_path) then Ok label_path
            else Ok save_path
        | Raise _ => Ok save_path
        end
    | None => Ok save_path
    end.

(** The body of the [try] of [save_annotation]: the file system and the
    session when the body ends, and the exception that ended it, if any.
    The [with] block closes the file however the loop ends; the file then
    holds all the text handed to [write], unless the device failed, in a
    [write] or in the closing: then it holds what had reached it. *)
Definition save_try (fault : Fault) (fs : FileSystem) (s : Session)
    (save_path : Path) : FileSystem * Session * option exn :=
  match open_w fault fs save_path with
  | Raise e => (fs, s, Some e)
  | Ok fs0 =>
      let '(written, remaining, err) :=
        write_boxes (io_budget fault) (boxes s) (img_width s) (img_height s)
                    [] in
      let device_failed :=
        match remaining with Some O => true | _ => false end in
      let content :=
        if device_failed then text_prefix (flushed fault) written
        else written in
      let fs1 := fs_write save_path content fs0 in
      match (if device_failed then Some OSError else err) with
      | Some e => (fs1, s, Some e)
      | None =>
          let s := upd_ui (set_status_label (StSaved (path_name save_path))) s in
          let s := set_is_modified false s in
          let curr_row := last_selected_row s in
          if 0 <=? curr_row then
            let r :=
              l <- py_update (set_txt_path (Some save_path))
                             (image_list_data s) curr_row ;;
              l <- py_update (set_has_annotation (0 <? len (boxes s)))
                             l curr_row ;;
              Ok (set_image_list_data l s) in
            match r with
            | Raise e => (fs1, s, Some e)
            | Ok s' =>
                match update_image_list_ui_item curr_row s' with
                | Raise e => (fs1, s', Some e)
                | Ok s'' => (fs1, s'', None)
                end
            end
          else (fs1, s, None)
      end
  end.

Definition save_annotation (fault : Fault) (fs : FileSystem) (s : Session)
    : result (FileSystem * Session) :=
  if is_falsy_path (current_image_path s) then Ok (fs, s)
  else
    let img_path :=
      match current_image_path s with Some p => p | None => [] end in
    save_path <- resolve_save_path fs s img_path ;;
    let '(fs', s', err) := save_try fault fs s save_path in
    match err with
    | None => Ok (fs', s')
    | Some e => Ok (fs', show_message (SaveFailed e) s')
    end.

(** *** Switching images *)

(** Returns whether the switch may go on. *)
Definition check_unsaved_changes (reply : Reply) (fault : Fault)
    (fs : FileSystem) (s : Session) : result (bool * FileSystem * Session) :=
  if is_modified s then
    match reply with
    | Yes =>
        '(fs', s') <- save_annotation fault fs s ;;
        Ok (true, fs', s')
    | No => Ok (true, fs, s)
    | Cancel => Ok (false, fs, s)
    end
  else Ok (true, fs, s).

Definition load_image_data (fs : FileSystem) (row : Z) (s : Session)
    : result Session :=
  if row <? 0 then Ok s
  else
    let s := set_last_selected_row row s in
    data <- py_getitem (image_list_data s) row ;;
    let s := set_current_image_path (Some (path data)) s in
    let s := set_current_cv_img (images fs (path data)) s in
    match images fs (path data) with
    | None => Ok (show_message CannotReadImage s)
    | Some (w, h) =>
        let s := set_qt_pixmap (Some (w, h)) s in
        let s := set_img_width w (set_img_height h s) in
        let s := set_boxes [] s in
        let s := upd_gesture (set_current_box None) s in
        let s := set_is_modified false s in
        let s :=
          match txt_path data with
          | Some p =>
              if negb (is_falsy_path (Some p)) && path_exists fs p then
                match open_r fs p with
                | Raise e => upd_ui (fun u => set_console (console u ++ [e])%list u) s
                | Ok lines =>
                    let '(bs, err) := load_lines (classes s) w h lines [] in
                    let s := set_boxes bs s in
                    match err with
                    | Some e =>
                        upd_ui (fun u => set_console (console u ++ [e])%list u) s
                    | None => s
                    end
                end
              else s
          | None => s
          end in
        let s := update_annot_info_table s in
        let s := upd_ui (set_btn_save_annot true) s in
        let s := upd_ui (set_status_label (StAnnotating (name data))) s in
        reset_view_fit s
    end.

(** The slot of [image_list.cellClicked]. *)
Definition on_image_list_clicked (row : Z) (reply : Reply) (fault : Fault)
    (fs : FileSystem) (s : Session) : result (FileSystem * Session) :=
  if row =? last_selected_row s then Ok (fs, s)
  else
    '(go, fs', s') <- check_unsaved_changes reply fault fs s ;;
    if negb go then
      if negb (last_selected_row s' =? -1)
      then Ok (fs', upd_ui (select_row (last_selected_row s')) s')
      else Ok (fs', upd_ui clear_selection s')
    else
      s'' <- load_image_data fs' row s' ;;
      Ok (fs', s'').

(** A click on a row of the image table: Qt highlights the row, then
    emits [cellClicked]. *)
Definition click_image_list (row : Z) (reply : Reply) (fault : Fault)
    (fs : FileSystem) (s : Session) : result (FileSystem * Session) :=
  on_image_list_clicked row reply fault fs
    (upd_ui (set_image_list_selection (Some row)) s).

End Annotation.
Export Annotation.

(** ** Vocabulary of the statements *)

Module Spec.

Local Open Scope Z_scope.

(** Every character of a string satisfies [p]. *)
Fixpoint string_forall (p : ascii -> bool) (s : string) : bool :=
  match s with
  | EmptyString => true
  | String c s' => p c && string_forall p s'
  end.

(** The characters of a printed number: digits, the dot, the minus sign. *)
Definition is_number_char (c : ascii) : bool :=
  let n := Z.of_nat (nat_of_ascii c) in
  ((48 <=? n) && (n <=? 57)) || (n =? 46) || (n =? 45).

(** A word as [split] yields them: not empty, no white space. *)
Definition is_word (s : string) : bool :=
  negb (is_empty s) && string_forall (fun c => negb (is_space c)) s.












(** [screen_to_img] after [img_to_screen] gives the point back within
    one pixel per coordinate. *)
Definition round_trip_within_1 (v : View) (x y : Z) : Prop :=
  exists ix iy,
    screen_to_img v (PyInt (fst (img_to_screen v (PyInt x) (PyInt y))))
                    (PyInt (snd (img_to_screen v (PyInt x) (PyInt y))))
    = Ok (ix, iy) /\
    Z.abs (ix - x) <= 1 /\ Z.abs (iy - y) <= 1.

(** The exact image coordinate shown at the screen coordinate [c], and
    the exact screen coordinate of the image coordinate [p], along one
    axis of a view with the given scale and offset. *)
Definition img_coord (scale : Q) (off : Z) (c : Q) : Q :=
  ((c - inject_Z off) / scale)%Q.

Definition screen_coord (scale : Q) (off : Z) (p : Q) : Q :=
  (p * scale + inject_Z off)%Q.

(** How far from the cursor, on the screen of [s'], the image point lies
    that was under the cursor on the screen of [s]. *)
Definition anchor_drift (s s' : Session) (mouse : Q * Q) : Q * Q :=
  ((screen_coord (scale_factor (view s')) (fst (offset (view s')))
      (img_coord (scale_factor (view s)) (fst (offset (view s))) (fst mouse))
    - fst mouse)%Q,
   (screen_coord (scale_factor (view s')) (snd (offset (view s')))
      (img_coord (scale_factor (view s)) (snd (offset (view s))) (snd mouse))
    - snd mouse)%Q).

(** The zoom step keeps the image point under the cursor exactly. *)
Definition anchor_kept (angle : Z) (mouse : Q * Q) (s : Session) : Prop :=
  exists s',
    on_wheel_event angle mouse s = (s', None) /\
    (fst (anchor_drift s s' mouse) == 0)%Q /\
    (snd (anchor_drift s s' mouse) == 0)%Q.

(** A box as the drawing gesture stores them, inside a [W] x [H] image. *)
Definition valid_box (b : Box) (W H : Z) : Prop :=
  0 <= class_id b /\
  0 <= x1 b /\ x1 b < x2 b /\ x2 b <= W /\
  0 <= y1 b /\ y1 b < y2 b /\ y2 b <= H.

(** Saving a box and loading the saved line gives the box back: the same
    class id, each coordinate within one pixel. *)
Definition round_trip_box (cls : list string) (b : Box) (W H : Z) : Prop :=
  exists line b',
    encode_box b W H = Ok line /\
    parse_label_line cls W H line = Ok (Some b') /\
    class_id b' = class_id b /\
    Z.abs (x1 b' - x1 b) <= 1 /\ Z.abs (y1 b' - y1 b) <= 1 /\
    Z.abs (x2 b' - x2 b) <= 1 /\ Z.abs (y2 b' - y2 b) <= 1.

(** The text of a file given by its lines. *)
Definition text_of (lines : list string) : string :=
  fold_right append EmptyString lines.

(** [t] is the beginning of [u]. *)
Definition is_prefix_of (t u : string) : Prop :=
  exists rest, (t ++ rest)%string = u.

(** The lines of a complete label file for a list of boxes. *)
Fixpoint encode_all (bs : list Box) (W H : Z) : result (list string) :=
  match bs with
  | [] => Ok []
  | b :: bs' =>
      bind (encode_box b W H) (fun line =>
      bind (encode_all bs' W H) (fun lines => Ok (line :: lines)))
  end.

(** What an atomic save would guarantee: whatever fails, the destination
    holds its former content or the complete new one. *)
Definition save_is_atomic (fault : Fault) (fs : FileSystem) (s : Session)
    : Prop :=
  forall img p lines fs' s',
    current_image_path s = Some img ->
    resolve_save_path fs s img = Ok p ->
    encode_all (boxes s) (img_width s) (img_height s) = Ok lines ->
    save_annotation fault fs s = Ok (fs', s') ->
    files fs' p = files fs p \/ files fs' p = Some lines.

End Spec.
Export Spec.

(** ** Sample data *)

Module Samples.

Local Open Scope string_scope.
Local Open Scope Z_scope.

Definition sample_image : Path := ["/"; "data"; "images"; "a.jpg"].
Definition sample_label : Path := ["/"; "data"; "labels"; "a.txt"].

Definition sample_record : ImageRecord :=
  {| path := sample_image; name := "a.jpg"; has_annotation := true;
     annot_count := 1; label_types := ["bird"];
     txt_path := Some sample_label |}.

Definition sample_box : Box := mkBox 2 "bird" 100 100 300 300.

Definition sample_ui : Widgets :=
  {| image_list :=
       [{| cell_name := "a.jpg"; cell_status := true; cell_count := 1;
           cell_types := ["bird"] |}];
     image_list_selection := Some 0;
     annot_info_table := [("bird", 100, 100, 300, 300)];
     class_combo_items := ["cat"; "dog"; "bird"];
     class_combo_index := 2;
     btn_draw_box := false;
     btn_save_annot := true;
     cursor := ArrowCursor;
     status_label := StAnnotating "a.jpg";
     label_size := (1200, 900);
     dialogs := [];
     console := [] |}.

(** A 1000 x 800 image with one box, shown at scale 1 with no offset. *)
Definition sample_session : Session :=
  {| boxes := [sample_box];
     current_image_path := Some sample_image;
     image_list_data := [sample_record];
     classes := ["cat"; "dog"; "bird"];
     current_cv_img := Some (1000, 800);
     qt_pixmap := Some (1000, 800);
     is_modified := false;
     last_selected_row := 0;
     img_width := 1000;
     img_height := 800;
     view := {| scale_factor := 1; offset := (0, 0) |};
     gesture := {| drawing := false; panning := false;
                   last_mouse_pos := (0, 0); start_point := None;
                   current_box := None |};
     ui := sample_ui |}.

(** The same session in the middle of a drawing gesture started at the
    image point (5, 5). *)
Definition drawing_session : Session :=
  set_gesture {| drawing := true; panning := false; last_mouse_pos := (0, 0);
                 start_point := Some (5, 5);
                 current_box := Some (mkRect 5 5 5 5) |}
    (upd_ui (set_btn_draw_box true) sample_session).




(** A left-button event at the screen position (-100, -100). *)
Definition far_event : MouseEvent :=
  {| button := LeftButton; position := ((-100)%Q, (-100)%Q);
     to_point := (-100, -100) |}.

(** Label lines: a well-formed one, one whose class id is no number, and
    one with too few words. *)
Definition good_line : string := "2 0.200000 0.250000 0.200000 0.250000".
Definition bad_number_line : string := "x 0.200000 0.250000 0.200000 0.250000".
Definition short_line : string := "2 0.200000".

Definition old_line : string := "1 0.500000 0.500000 0.100000 0.100000".

Definition sample_fs (label_lines : list string) : FileSystem :=
  {| files := fun p => if path_eqb p sample_label then Some label_lines
                       else None;
     dirs := fun p => path_eqb p ["/"; "data"; "labels"]
                      || path_eqb p ["/"; "data"; "images"];
     images := fun p => if path_eqb p sample_image then Some (1000, 800)
                        else None |}.

(** The sample session with unsaved changes. *)
Definition modified_session : Session := set_is_modified true sample_session.

(** The sample session with a second box, unsaved. *)
Definition two_box_session : Session :=
  set_is_modified true
    (set_boxes [sample_box; mkBox 0 "cat" 10 20 110 220] sample_session).

(** The lines a complete save of [two_box_session] writes. *)
Definition line1 : string := good_line ++ newline.
Definition line2 : string := "0 0.060000 0.150000 0.100000 0.250000" ++ newline.

(** The view at scale 1/4 with no offset. *)
Definition quarter_view : View := {| scale_factor := (1 # 4)%Q; offset := (0, 0) |}.

(** A view at scale 3/2 with a negative offset. *)
Definition zoomed_view : View := {| scale_factor := (3 # 2)%Q; offset := (-40, 25) |}.

(** A box four pixels wide in an image ten million pixels wide. *)
Definition narrow_box : Box := mkBox 2 "bird" 0 0 4 4.

End Samples.
Export Samples.

(** ** The dataset panel, the painter and the event dispatch

    The rest of [core/annotation.py]: [__init__], [load_classes],
    [load_dataset] with [update_image_list_ui], [on_paint_event], and the
    signal connections of [init_ui].  The texts [load_classes] and
    [load_dataset] put on the status label and in their message box are
    outputs the code never reads back; the two functions return them
    beside the session. *)

From Stdlib Require Import Sorted Permutation.

Module Dataset.

Local Open Scope string_scope.
Local Open Scope Z_scope.
Local Open Scope py_scope.

(** *** Names and their order *)

(** [PurePath.suffix] of a name: its last dot, when that is neither the
    first nor the last character, and what follows. *)
Definition suffix (nm : string) : string :=
  match rsplit_dot (list_ascii_of_string nm) with
  | Some (_ :: _, b :: b') => String "." (string_of_list_ascii (b :: b'))
  | _ => ""
  end.

(** [c.lower()] for a character below 256. *)
Definition lower_char (c : ascii) : ascii :=
  let n := Z.of_nat (nat_of_ascii c) in
  if ((65 <=? n) && (n <=? 90))
     || ((192 <=? n) && (n <=? 222) && negb (n =? 215))
  then ascii_of_nat (Z.to_nat (n + 32))
  else c.

Fixpoint lower (s : string) : string :=
  match s with
  | EmptyString => EmptyString
  | String c s' => String (lower_char c) (lower s')
  end.

(** [x in l] for strings. *)
Definition mem (x : string) (l : list string) : bool :=
  existsb (String.eqb x) l.

Definition img_exts : list string :=
  [".jpg"; ".jpeg"; ".png"; ".bmp"; ".tiff"].

Definition is_image_file (p : Path) : bool :=
  mem (lower (suffix (path_name p))) img_exts.

(** The order of [pathlib] paths: the order of their part lists, strings
    being compared character by character. *)
Fixpoint path_compare (p q : Path) : comparison :=
  match p, q with
  | [], [] => Eq
  | [], _ :: _ => Lt
  | _ :: _, [] => Gt
  | a :: p', b :: q' =>
      match String.compare a b with
      | Eq => path_compare p' q'
      | c => c
      end
  end.

Definition path_leb (p q : Path) : bool :=
  match path_compare p q with
  | Gt => false
  | _ => true
  end.

Fixpoint insert_sorted (p : Path) (l : list Path) : list Path :=
  match l with
  | [] => [p]
  | q :: l' => if path_leb p q then p :: l else q :: insert_sorted p l'
  end.

(** [sorted(l)]: the order is total and two paths that compare equal are
    the same path, so every sorting algorithm returns this list. *)
Definition sorted (l : list Path) : list Path :=
  fold_right insert_sorted [] l.

(** *** Scanning a dataset directory *)

(** [[l.strip() for l in f if l.strip()]]. *)
Definition stripped_lines (f : list string) : list string :=
  map strip (filter (fun l => negb (is_empty (strip l))) f).

(** [types.add(t)] on a set kept as a list without duplicates.  Python
    leaves the order of [list(set)] open; here it is the order of
    insertion. *)
Definition set_add (t : string) (types : list string) : list string :=
  if mem t types then types else (types ++ [t])%list.

(** The class named on a label line, as [load_dataset] reads it. *)
Definition line_type (cls : list string) (line : string) : result string :=
  w <- py_getitem (split line) 0 ;;
  cid <- of_option ValueError (int_of_string w) ;;
  if cid <? len cls then py_getitem cls cid else Ok (str_int cid).

(** The loop over the lines of a label file, inside the [try]: the first
    line that raises ends it, the types added before stay. *)
Fixpoint scan_types (cls : list string) (lines : list string)
    (types : list string) : list string :=
  match lines with
  | [] => types
  | line :: ls =>
      match line_type cls line with
      | Ok t => scan_types cls ls (set_add t types)
      | Raise _ => types
      end
  end.

(** The label file of an image: the file beside it, else the file under
    the sibling [labels] directory. *)
Definition find_label (fs : FileSystem) (img_path : Path)
    : result (option Path) :=
  beside <- with_suffix_txt img_path ;;
  if path_exists fs beside then Ok (Some beside)
  else
    match replace_last_images img_path with
    | Some parts =>
        match with_suffix_txt parts with
        | Ok possible =>
            if path_exists fs possible then Ok (Some possible) else Ok None
        | Raise _ => Ok None
        end
    | None => Ok None
    end.

(** The body of the loop of [load_dataset]: the record of one image. *)
Definition scan_image (fs : FileSystem) (cls : list string) (img_path : Path)
    : result ImageRecord :=
  txt <- find_label fs img_path ;;
  let '(count, types) :=
    match txt with
    | Some p =>
        match open_r fs p with
        | Ok f =>
            let lines := stripped_lines f in
            (len lines, scan_types cls lines [])
        | Raise _ => (0, [])
        end
    | None => (0, [])
    end in
  Ok {| path := img_path;
        name := path_name img_path;
        has_annotation := match txt with Some _ => true | None => false end;
        annot_count := count;
        label_types := types;
        txt_path := txt |}.

Fixpoint scan_all (fs : FileSystem) (cls : list string) (imgs : list Path)
    : result (list ImageRecord) :=
  match imgs with
  | [] => Ok []
  | p :: ps =>
      d <- scan_image fs cls p ;;
      ds <- scan_all fs cls ps ;;
      Ok (d :: ds)
  end.

Definition row_of_record (d : ImageRecord) : ListRow :=
  {| cell_name := name d;
     cell_status := has_annotation d;
     cell_count := annot_count d;
     cell_types := label_types d |}.

(** [setRowCount] removes the rows beyond the new count, and with them
    their highlight; then every cell is set from the records. *)
Definition update_image_list_ui (s : Session) : Session :=
  upd_ui (fun w =>
    let rows := map row_of_record (image_list_data s) in
    let sel :=
      match image_list_selection w with
      | Some r => if r <? len rows then Some r else None
      | None => None
      end in
    set_image_list_selection sel (set_image_list rows w)) s.

(** What the dataset panel tells the user: the text it sets on the status
    label, or the error box it shows. *)
Inductive Report : Type :=
| LoadedClasses (n : Z)
| LoadClassesFailed (e : exn)
| LoadedImages (n : Z).

(** [load_dataset]: [dataset_dir] is the text of the directory field,
    [listing] what [path.rglob("*")] yields. *)
Definition load_dataset (dataset_dir : string) (listing : list Path)
    (fs : FileSystem) (s : Session) : result (Session * option Report) :=
  if is_empty dataset_dir then Ok (s, None)
  else
    let img_files := sorted (filter is_image_file listing) in
    data <- scan_all fs (classes s) img_files ;;
    let s := set_image_list_data data s in
    let s := update_image_list_ui s in
    let s := set_last_selected_row (-1) s in
    let s := set_current_image_path None s in
    let s := set_boxes [] s in
    let s := set_is_modified false s in
    let s := set_qt_pixmap None s in
    Ok (s, Some (LoadedImages (len (image_list_data s)))).

(** *** Loading the class names *)

Definition set_classes (v : list string) (r : Session) : Session :=
  {| boxes := boxes r; current_image_path := current_image_path r;
     image_list_data := image_list_data r; classes := v;
     current_cv_img := current_cv_img r; qt_pixmap := qt_pixmap r;
     is_modified := is_modified r; last_selected_row := last_selected_row r;
     img_width := img_width r; img_height := img_height r; view := view r;
     gesture := gesture r; ui := ui r |}.

Definition set_class_combo_items (v : list string) (r : Widgets) : Widgets :=
  {| image_list := image_list r;
     image_list_selection := image_list_selection r;
     annot_info_table := annot_info_table r;
     class_combo_items := v;
     class_combo_index := class_combo_index r;
     btn_draw_box := btn_draw_box r; btn_save_annot := btn_save_annot r;
     cursor := cursor r; status_label := status_label r;
     label_size := label_size r; dialogs := dialogs r;
     console := console r |}.

Definition set_class_combo_index (v : Z) (r : Widgets) : Widgets :=
  {| image_list := image_list r;
     image_list_selection := image_list_selection r;
     annot_info_table := annot_info_table r;
     class_combo_items := class_combo_items r;
     class_combo_index := v;
     btn_draw_box := btn_draw_box r; btn_save_annot := btn_save_annot r;
     cursor := cursor r; status_label := status_label r;
     label_size := label_size r; dialogs := dialogs r;
     console := console r |}.

(** [load_classes].  [yaml_names] stands for the YAML branch (the names
    [yaml.safe_load] and the conversion to strings yield: [Ok None] when
    the document has no usable [names]); the text branch reads the file.
    The combo box has a placeholder text, so that filling it while it is
    empty selects no item. *)
Definition load_classes (yaml_names : result (option (list string)))
    (file_path : Path) (fs : FileSystem) (s : Session) : Session * Report :=
  let file_ext := lower (suffix (path_name file_path)) in
  let r :=
    if mem file_ext [".yaml"; ".yml"] then
      names <- yaml_names ;;
      Ok (match names with
          | Some l => set_classes l s
          | None => s
          end)
    else
      f <- open_r fs file_path ;;
      Ok (set_classes (stripped_lines f) s) in
  match r with
  | Ok s =>
      let s := upd_ui (fun w =>
                 set_class_combo_index (-1)
                   (set_class_combo_items (classes s) w)) s in
      (s, LoadedClasses (len (classes s)))
  | Raise e => (s, LoadClassesFailed e)
  end.

End Dataset.
Export Dataset.

(** ** Painting *)

Module Painter.

Local Open Scope Z_scope.

Inductive Colour : Type := Grey | White | Black | Green | Blue.

(** The calls [on_paint_event] makes on its painter. *)
Inductive Paint : Type :=
| FillRect (x y w h : Z) (c : Colour)
| DrawHint (w h : Z)
| DrawPixmap (x y : Z) (w h : Q)
| DrawRect (x y w h : Z) (pen : Colour) (dashed : bool)
| DrawText (x y : Z) (text : string).

(** The three calls for a stored box; [advance] and [th] are the font
    metrics ([horizontalAdvance] and [height]). *)
Definition paint_box (advance : string -> Z) (th : Z) (v : View) (b : Box)
    : list Paint :=
  let '(sx1, sy1) := img_to_screen v (PyInt (x1 b)) (PyInt (y1 b)) in
  let '(sx2, sy2) := img_to_screen v (PyInt (x2 b)) (PyInt (y2 b)) in
  let w := sx2 - sx1 in
  let h := sy2 - sy1 in
  [DrawRect sx1 sy1 w h Green false;
   FillRect sx1 (sy1 - th) (advance (class_name b) + 4) th Green;
   DrawText (sx1 + 2) (sy1 - 2) (class_name b)].

Definition paint_current (v : View) (r : Rect) : list Paint :=
  let '(sx1, sy1) := img_to_screen v (PyInt (r_x1 r)) (PyInt (r_y1 r)) in
  let '(sx2, sy2) := img_to_screen v (PyInt (r_x2 r)) (PyInt (r_y2 r)) in
  [DrawRect sx1 sy1 (sx2 - sx1) (sy2 - sy1) Blue true].

Definition on_paint_event (advance : string -> Z) (th : Z) (s : Session)
    : list Paint :=
  let '(label_w, label_h) := label_size (ui s) in
  let background := FillRect 0 0 label_w label_h Grey in
  if negb (has_pixmap s) then [background; DrawHint label_w label_h]
  else
    let v := view s in
    let target :=
      DrawPixmap (fst (offset v)) (snd (offset v))
        (to_float (py_mul (PyInt (img_width s)) (PyFloat (scale_factor v))))
        (to_float (py_mul (PyInt (img_height s)) (PyFloat (scale_factor v)))) in
    (background :: target :: flat_map (paint_box advance th v) (boxes s))
    ++ match current_box (gesture s) with
       | Some r => paint_current v r
       | None => []
       end.

End Painter.
Export Painter.

(** ** The module as a whole *)

Module Events.

Local Open Scope Z_scope.
Local Open Scope py_scope.

(** The state [__init__] and [init_ui] set up.  [img_width] and
    [img_height] do not exist before the first image is loaded; nothing
    reads them before. *)
Definition init_session (size : Z * Z) : Session :=
  {| boxes := [];
     current_image_path := None;
     image_list_data := [];
     classes := [];
     current_cv_img := None;
     qt_pixmap := None;
     is_modified := false;
     last_selected_row := -1;
     img_width := 0;
     img_height := 0;
     view := {| scale_factor := 1; offset := (0, 0) |};
     gesture := {| drawing := false; panning := false;
                   last_mouse_pos := (0, 0); start_point := None;
                   current_box := None |};
     ui := {| image_list := [];
              image_list_selection := None;
              annot_info_table := [];
              class_combo_items := [];
              class_combo_index := -1;
              btn_draw_box := false;
              btn_save_annot := false;
              cursor := ArrowCursor;
              status_label := StReady;
              label_size := size;
              dialogs := [];
              console := [] |} |}.

(** What the user and the window system do to the tab: the signals and
    event handlers [init_ui] connects, each with what it brings along, and
    the choice of an item of the class combo box, which no handler is
    connected to. *)
Inductive Event : Type :=
| MousePress (ev : MouseEvent)
| MouseMove (ev : MouseEvent)
| MouseRelease (ev : MouseEvent)
| Wheel (angle : Z) (pos : Q * Q)
| DrawBoxClicked
| DeleteBoxClicked (row : Z)
| ClearAllClicked (confirmed : bool)
| SaveClicked (fault : Fault)
| ResetViewClicked
| ImageListClicked (row : Z) (reply : Reply) (fault : Fault)
| LoadDatasetClicked (dataset_dir : string) (listing : list Path)
| ClassesFileChosen (yaml_names : result (option (list string)))
    (file_path : Path)
| ClassChosen (index : Z).

(** A click on the toggle button: Qt flips the button, then emits
    [clicked(checked)]. *)
Definition click_draw_box (s : Session) : Session :=
  let checked := negb (btn_draw_box (ui s)) in
  enable_draw_box checked (upd_ui (set_btn_draw_box checked) s).

Definition handle (e : Event) (st : FileSystem * Session)
    : result (FileSystem * Session) :=
  let '(fs, s) := st in
  match e with
  | MousePress ev => s' <- on_mouse_press ev s ;; Ok (fs, s')
  | MouseMove ev => s' <- on_mouse_move ev s ;; Ok (fs, s')
  | MouseRelease ev => s' <- on_mouse_release ev s ;; Ok (fs, s')
  | Wheel angle pos =>
      match on_wheel_event angle pos s with
      | (s', None) => Ok (fs, s')
      | (_, Some e) => Raise e
      end
  | DrawBoxClicked => Ok (fs, click_draw_box s)
  | DeleteBoxClicked row => s' <- delete_selected_box row s ;; Ok (fs, s')
  | ClearAllClicked confirmed =>
      s' <- clear_all_boxes confirmed s ;; Ok (fs, s')
  | SaveClicked fault => save_annotation fault fs s
  | ResetViewClicked => s' <- reset_view_fit s ;; Ok (fs, s')
  | ImageListClicked row reply fault => click_image_list row reply fault fs s
  | LoadDatasetClicked dataset_dir listing =>
      '(s', _) <- load_dataset dataset_dir listing fs s ;; Ok (fs, s')
  | ClassesFileChosen yaml_names file_path =>
      Ok (fs, fst (load_classes yaml_names file_path fs s))
  | ClassChosen index => Ok (fs, upd_ui (set_class_combo_index index) s)
  end.


End Events.
Export Events.

(** ** Vocabulary of the statements on the whole module *)

Module Props.

Local Open Scope Z_scope.

Definition path_le (p q : Path) : Prop := path_leb p q = true.

(** A label type is a class name or the printed id of a class beyond the
    list. *)
Definition known_type (cls : list string) (t : string) : Prop :=
  In t cls \/ exists cid, len cls <= cid /\ t = str_int cid.

(** Every image the file system can decode has sides from 1 to [2^20]
    pixels, the largest [cv2.imread] decodes. *)
Definition decodable (fs : FileSystem) : Prop :=
  forall p w h, images fs p = Some (w, h) ->
    1 <= w <= 2 ^ 20 /\ 1 <= h <= 2 ^ 20.

(** A path with a last part that is not empty. *)
Definition named (p : Path) : Prop := is_empty (path_name p) = false.

(** What the handlers rely on without testing it: the image table has a
    row per record, the selected row is a row of the table or none, a
    loaded image has its sides, the scale is positive, the label has a
    size, and the image paths have names. *)
Record consistent (s : Session) : Prop := {
  rows_match : len (image_list (ui s)) = len (image_list_data s);
  row_in_range :
    last_selected_row s = -1 \/
    0 <= last_selected_row s < len (image_list_data s);
  image_sized :
    has_pixmap s = true ->
    1 <= img_width s <= 2 ^ 20 /\ 1 <= img_height s <= 2 ^ 20;
  scale_positive : (0 < scale_factor (view s))%Q;
  label_sized : 0 <= fst (label_size (ui s)) /\ 0 <= snd (label_size (ui s));
  records_named : Forall (fun d => named (path d)) (image_list_data s);
  current_named : forall p, current_image_path s = Some p -> named p
}.

(** What a handler leaves alone when it edits boxes, gestures or
    widgets only. *)
Definition same_frame (s s' : Session) : Prop :=
  len (image_list (ui s')) = len (image_list (ui s)) /\
  map path (image_list_data s') = map path (image_list_data s) /\
  last_selected_row s' = last_selected_row s /\
  has_pixmap s' = has_pixmap s /\
  img_width s' = img_width s /\
  img_height s' = img_height s /\
  scale_factor (view s') = scale_factor (view s) /\
  label_size (ui s') = label_size (ui s) /\
  current_image_path s' = current_image_path s.

(** The boxes [load_image_data] reads for a record: those of its label
    file up to the first line that raises, none without a file. *)
Definition boxes_of_record (fs : FileSystem) (cls : list string) (w h : Z)
    (d : ImageRecord) : list Box :=
  match txt_path d with
  | Some p =>
      if negb (is_falsy_path (Some p)) && path_exists fs p then
        match files fs p with
        | Some lines => fst (load_lines cls w h lines [])
        | None => []
        end
      else []
  | None => []
  end.

(** The rows of the box table for a list of boxes. *)
Definition info_rows (bs : list Box) : list InfoRow :=
  map (fun b => (class_name b, x1 b, y1 b, x2 b, y2 b)) bs.

(** The box table shows the box list. *)
Definition table_synced (s : Session) : Prop :=
  annot_info_table (ui s) = info_rows (boxes s).

(** The box list and the box table are left alone. *)
Definition same_boxes (s s' : Session) : Prop :=
  boxes s' = boxes s /\ annot_info_table (ui s') = annot_info_table (ui s).

(** While the pan is under way: the offset has moved by as much as the
    pointer since the press at [p0], the rest is as after the press. *)
Definition pan_rel (s0 s1 : Session) (p0 q : Z * Z) : Prop :=
  has_pixmap s1 = true /\
  panning (gesture s1) = true /\
  last_mouse_pos (gesture s1) = q /\
  offset (view s1)
  = (fst (offset (view s0)) + (fst q - fst p0),
     snd (offset (view s0)) + (snd q - snd p0)) /\
  scale_factor (view s1) = scale_factor (view s0) /\
  boxes s1 = boxes s0 /\
  is_modified s1 = is_modified s0 /\
  drawing (gesture s1) = drawing (gesture s0) /\
  start_point (gesture s1) = start_point (gesture s0) /\
  current_box (gesture s1) = current_box (gesture s0) /\
  image_list_data s1 = image_list_data s0.

(** The presses that start a pan. *)
Definition starts_pan (ev : MouseEvent) (s : Session) : Prop :=
  button ev = RightButton \/ button ev = MiddleButton \/
  (button ev = LeftButton /\ drawing (gesture s) = false).

(** The session after a save to [p] on which nothing failed, a row being
    selected. *)
Definition saved_state (p : Path) (s : Session) : Session :=
  let k := Z.to_nat (last_selected_row s) in
  let n := len (boxes s) in
  upd_ui (fun w =>
            set_image_list
              (table_set_row (last_selected_row s) (0 <? n) n (image_list w)) w)
    (set_image_list_data
       (list_update (set_has_annotation (0 <? n)) k
          (list_update (set_txt_path (Some p)) k (image_list_data s)))
       (set_is_modified false
          (upd_ui (set_status_label (StSaved (path_name p))) s))).

(** A box read back agrees with the box saved: the same class id, each
    coordinate within one pixel. *)
Definition close_box (b b' : Box) : Prop :=
  class_id b' = class_id b /\
  Z.abs (x1 b' - x1 b) <= 1 /\ Z.abs (y1 b' - y1 b) <= 1 /\
  Z.abs (x2 b' - x2 b) <= 1 /\ Z.abs (y2 b' - y2 b) <= 1.

(** The events Qt can deliver in a state: a click on the image table
    names one of its rows, a choice in the combo box one of its items. *)
Definition valid_event (e : Event) (s : Session) : bool :=
  match e with
  | ImageListClicked row _ _ =>
      (0 <=? row) && (row <? len (image_list (ui s)))
  | ClassChosen index =>
      (0 <=? index) && (index <? len (class_combo_items (ui s)))
  | _ => true
  end.

Fixpoint valid_run (es : list Event) (st : FileSystem * Session) : bool :=
  match es with
  | [] => true
  | e :: es' =>
      valid_event e (snd st)
      && match handle e st with
         | Ok st' => valid_run es' st'
         | Raise _ => true
         end
  end.

End Props.
Export Props.

(** ** More sample data *)

Module Samples2.

Local Open Scope string_scope.
Local Open Scope Z_scope.

(** What a walk through [/data] yields: two images, the two directories,
    a label file and a text file. *)
Definition sample_listing : list Path :=
  [ ["/"; "data"; "images"];
    ["/"; "data"; "images"; "b.PNG"];
    sample_image;
    ["/"; "data"; "labels"];
    sample_label;
    ["/"; "data"; "notes.txt"] ].

End Samples2.
Export Samples2.

Module Samples3.

Local Open Scope string_scope.
Local Open Scope Z_scope.

Definition left_at (x y : Z) : MouseEvent :=
  {| button := LeftButton; position := (inject_Z x, inject_Z y);
     to_point := (x, y) |}.







(** A session from start to save: load the dataset, open the first image,
    switch draw mode on, drag a box, save. *)
Definition sample_run : list Event :=
  [ LoadDatasetClicked "/data" sample_listing;
    ClassesFileChosen (Ok (Some ["cat"; "dog"; "bird"]))
                      ["/"; "data"; "data.yaml"];
    ImageListClicked 0 No None;
    ClassChosen 1;
    DrawBoxClicked;
    MousePress (left_at 200 200);
    MouseMove (left_at 400 300);
    MouseRelease (left_at 400 300);
    Wheel 120 (300, 300)%Q;
    SaveClicked None ].

End Samples3.
Export Samples3.

Module Samples4.

Local Open Scope string_scope.
Local Open Scope Z_scope.

(** An image file that cannot be decoded, and its record. *)
Definition broken_image : Path := ["/"; "data"; "images"; "c.jpg"].

Definition broken_record : ImageRecord :=
  {| path := broken_image; name := "c.jpg"; has_annotation := false;
     annot_count := 0; label_types := []; txt_path := None |}.

(** The session with two unsaved boxes and a second row for the broken
    image. *)
Definition two_image_session : Session :=
  upd_ui (set_image_list
            [row_of_record sample_record; row_of_record broken_record])
    (set_image_list_data [sample_record; broken_record] two_box_session).

End Samples4.
Export Samples4.

Module Samples5.

Local Open Scope Z_scope.

(** The state after a click on the row of the broken image: its row and
    path are current, the two unsaved boxes are still there. *)
Definition stranded_session : Session :=
  set_current_image_path (Some broken_image)
    (set_last_selected_row 1 two_image_session).

End Samples5.
Export Samples5.

(* ===================================================================== *)
(** * Part II.  Lemmas and theorems                                        *)
(* ===================================================================== *)

(** ** Rounding to binary64 *)

Section Rounding.

Local Open Scope Q_scope.

Lemma rne_bounds (q : Q) :
  inject_Z (Qfloor q) <= inject_Z (rne q) /\ inject_Z (rne q) <= inject_Z (Qfloor q) + 1.
Proof.
  unfold rne. cbv zeta.
  destruct (Qcompare _ _); try destruct (Z.even _);
    rewrite ?inject_Z_plus; change (inject_Z 1) with 1; split; lra.
Qed.

Lemma rne_err (q : Q) : Qabs (inject_Z (rne q) - q) <= 1 # 2.
Proof.
  pose proof (Qfloor_le q) as Hl. pose proof (Qlt_floor q) as Hu.
  rewrite inject_Z_plus in Hu. change (inject_Z 1) with 1 in Hu.
  unfold rne. cbv zeta.
  destruct (Qcompare (q - inject_Z (Qfloor q)) (1 # 2)) eqn:E.
  - apply Qeq_alt in E.
    destruct (Z.even _); rewrite ?inject_Z_plus; change (inject_Z 1) with 1;
      apply Qabs_case; intros; lra.
  - apply Qlt_alt in E. apply Qabs_case; intros; lra.
  - apply Qgt_alt in E. rewrite inject_Z_plus; change (inject_Z 1) with 1.
    apply Qabs_case; intros; lra.
Qed.

Lemma rne_ge (q : Q) (k : Z) : inject_Z k <= q -> (k <= rne q)%Z.
Proof.
  intros H. apply Qfloor_resp_le in H. rewrite Qfloor_Z in H.
  pose proof (rne_bounds q) as [Hb _]. rewrite <- Zle_Qle in Hb. lia.
Qed.

Lemma rne_le (q : Q) (k : Z) : q <= inject_Z k -> (rne q <= k)%Z.
Proof.
  intros H.
  destruct (Qlt_le_dec q (inject_Z k)) as [Hlt | Hge].
  - assert (Hf : (Qfloor q < k)%Z).
    { rewrite Zlt_Qlt. eapply Qle_lt_trans; [apply Qfloor_le | exact Hlt]. }
    pose proof (rne_bounds q) as [_ Hb].
    change 1 with (inject_Z 1) in Hb. rewrite <- inject_Z_plus, <- Zle_Qle in Hb. lia.
  - assert (Heq : q == inject_Z k) by lra.
    unfold rne. cbv zeta. rewrite (Qfloor_comp _ _ Heq), Qfloor_Z.
    destruct (Qcompare (q - inject_Z k) (1 # 2)) eqn:E.
    + apply Qeq_alt in E. lra.
    + lia.
    + apply Qgt_alt in E. lra.
Qed.

Lemma pow2_pos (e : Z) : 0 < 2 ^ e.
Proof. apply Qpower_0_lt. reflexivity. Qed.

Lemma pow2_add (a b : Z) : 2 ^ (a + b) == 2 ^ a * 2 ^ b.
Proof. apply Qpower_plus. discriminate. Qed.

Lemma pow2_inject (a : Z) : (0 <= a)%Z -> inject_Z (2 ^ a) == 2 ^ a.
Proof. intros. now rewrite Zpower_Qpower. Qed.

Lemma Q_as_fraction (q : Q) : q * inject_Z (Z.pos (Qden q)) == inject_Z (Qnum q).
Proof.
  destruct q as [n d]. unfold Qeq, Qmult, inject_Z. simpl. lia.
Qed.

Lemma ilog2_spec (q : Q) : 0 < q -> 2 ^ ilog2 q <= q /\ q < 2 ^ (ilog2 q + 1).
Proof.
  intros Hq.
  assert (Hn : (0 < Qnum q)%Z).
  { destruct q as [n d]. unfold Qlt in Hq. simpl in *. lia. }
  pose proof (Z.log2_spec _ Hn) as [Ha1 Ha2].
  pose proof (Z.log2_spec (Z.pos (Qden q)) (Pos2Z.is_pos _)) as [Hb1 Hb2].
  pose proof (Z.log2_nonneg (Qnum q)) as Ha0.
  pose proof (Z.log2_nonneg (Z.pos (Qden q))) as Hb0.
  pose proof (Q_as_fraction q) as Hfr.
  set (a := Z.log2 (Qnum q)) in *. set (b := Z.log2 (Z.pos (Qden q))) in *.
  rewrite Zle_Qle, pow2_inject in Ha1, Hb1 by lia.
  rewrite Zlt_Qlt in Ha2, Hb2. rewrite <- Z.add_1_r, pow2_inject in Ha2, Hb2 by lia.
  set (N := inject_Z (Qnum q)) in *. set (D := inject_Z (Z.pos (Qden q))) in *.
  assert (HD : 0 < D) by (unfold D; rewrite <- (Zlt_Qlt 0); lia).
  pose proof (pow2_pos b) as Hpb. pose proof (pow2_pos (a - b - 1)) as Hpl.
  pose proof (pow2_pos (a - b + 1)) as Hpu.
  assert (Hup : 2 ^ (a - b + 1) * 2 ^ b == 2 ^ (a + 1)).
  { rewrite <- pow2_add. now replace (a - b + 1 + b)%Z with (a + 1)%Z by lia. }
  assert (Hlo : 2 ^ (a - b - 1) * 2 ^ (b + 1) == 2 ^ a).
  { rewrite <- pow2_add. now replace (a - b - 1 + (b + 1))%Z with a by lia. }
  assert (Hlt : q < 2 ^ (a - b + 1)).
  { apply Qnot_le_lt. intros Hc.
    assert (2 ^ (a - b + 1) * 2 ^ b <= q * D) by (apply Qmult_le_compat_nonneg; split; lra).
    lra. }
  assert (Hgt : 2 ^ (a - b - 1) <= q).
  { apply Qnot_lt_le. intros Hc.
    assert (q * D <= 2 ^ (a - b - 1) * D) by (apply Qmult_le_compat_r; lra).
    assert (2 ^ (a - b - 1) * D < 2 ^ (a - b - 1) * 2 ^ (b + 1)) by (apply Qmult_lt_l; lra).
    lra. }
  unfold ilog2. fold a b. cbv zeta.
  destruct (Qle_bool (2 ^ (a - b)) q) eqn:E.
  - apply Qle_bool_iff in E. split; assumption.
  - split; [assumption|].
    replace (a - b - 1 + 1)%Z with (a - b)%Z by lia.
    apply Qnot_le_lt. intros Hc. apply Qle_bool_iff in Hc. congruence.
Qed.

Lemma u64_pow : 2 ^ (-53) == u64.
Proof. reflexivity. Qed.

Lemma rnd64_zero (q : Q) : q == 0 -> rnd64 q == 0.
Proof.
  intros H. unfold rnd64. apply Qeq_bool_iff in H. now rewrite H.
Qed.

Lemma rnd64_val (q : Q) :
  ~ q == 0 -> rnd64 q == inject_Z (rne (q / 2 ^ fexp q)) * 2 ^ fexp q.
Proof.
  intros H. unfold rnd64.
  destruct (Qeq_bool q 0) eqn:E.
  - apply Qeq_bool_iff in E. contradiction.
  - cbv zeta. apply Qred_correct.
Qed.

Lemma rnd64_err_ulp (q : Q) : Qabs (rnd64 q - q) <= (1 # 2) * 2 ^ fexp q.
Proof.
  pose proof (pow2_pos (fexp q)) as Hp.
  destruct (Qeq_dec q 0) as [Hz | Hnz].
  - pose proof (rnd64_zero _ Hz). apply Qabs_case; intros; lra.
  - rewrite (rnd64_val _ Hnz).
    set (p := 2 ^ fexp q) in *.
    pose proof (rne_err (q / p)) as He.
    set (m := inject_Z (rne (q / p))) in *.
    assert (Hq : q == (q / p) * p) by (field; lra).
    assert (Heq : m * p - q == (m - q / p) * p) by (rewrite Hq at 1; ring).
    rewrite Heq, Qabs_Qmult, (Qabs_pos p) by lra.
    apply Qmult_le_compat_r; lra.
Qed.

Lemma fexp_cases (q : Q) :
  (fexp q = -1074 /\ ilog2 (Qabs q) - 52 <= -1074)%Z \/
  (fexp q = ilog2 (Qabs q) - 52 /\ -1074 <= ilog2 (Qabs q) - 52)%Z.
Proof. unfold fexp. lia. Qed.

Lemma Qabs_pos_nz (q : Q) : ~ q == 0 -> 0 < Qabs q.
Proof.
  intros H. pose proof (Qabs_nonneg q).
  destruct (Qeq_dec (Qabs q) 0) as [E | E]; [|lra].
  exfalso. apply H. revert E. apply Qabs_case; intros; lra.
Qed.

Lemma rnd64_err (q B : Q) :
  Qabs q <= B -> 2 ^ (-1022) <= B -> Qabs (rnd64 q - q) <= B * u64.
Proof.
  intros HB Ht.
  destruct (Qeq_dec q 0) as [Hz | Hnz].
  { pose proof (rnd64_zero _ Hz). pose proof (pow2_pos (-1022)).
    unfold u64. apply Qabs_case; intros; nra. }
  eapply Qle_trans; [apply rnd64_err_ulp|].
  rewrite <- u64_pow.
  destruct (fexp_cases q) as [[-> _] | [-> Hn]].
  - assert (E : (1 # 2) * 2 ^ (-1074) == 2 ^ (-1022) * 2 ^ (-53)) by reflexivity.
    rewrite E. apply Qmult_le_compat_r; [assumption | discriminate].
  - pose proof (ilog2_spec _ (Qabs_pos_nz _ Hnz)) as [Hl _].
    set (k := ilog2 (Qabs q)) in *.
    assert (E : (1 # 2) * 2 ^ (k - 52) == 2 ^ k * 2 ^ (-53)).
    { replace (k - 52)%Z with (k + -52)%Z by lia. rewrite pow2_add.
      assert (E' : (1 # 2) * 2 ^ (-52) == 2 ^ (-53)) by reflexivity.
      rewrite <- E'. ring. }
    rewrite E. apply Qmult_le_compat_r; [lra | discriminate].
Qed.

Lemma fexp_small (q : Q) : ~ q == 0 -> Qabs q < 2 ^ 53 -> (fexp q <= 0)%Z.
Proof.
  intros Hnz Hb.
  pose proof (ilog2_spec _ (Qabs_pos_nz _ Hnz)) as [Hl _].
  assert (Hk : (ilog2 (Qabs q) < 53)%Z).
  { apply (Qpower_lt_compat_l_inv 2); [lra | reflexivity]. }
  unfold fexp. lia.
Qed.

Lemma scale_int (n e : Z) :
  (e <= 0)%Z -> inject_Z n / 2 ^ e == inject_Z (n * 2 ^ (- e)).
Proof.
  intros He. rewrite inject_Z_mult, pow2_inject by lia.
  rewrite Qpower_opp. pose proof (pow2_pos e). field. lra.
Qed.

Lemma rnd64_ge_int (q : Q) (n : Z) :
  Qabs q < 2 ^ 53 -> inject_Z n <= q -> inject_Z n <= rnd64 q.
Proof.
  intros Hb Hn.
  destruct (Qeq_dec q 0) as [Hz | Hnz].
  { rewrite (rnd64_zero _ Hz). lra. }
  rewrite (rnd64_val _ Hnz).
  pose proof (fexp_small _ Hnz Hb) as He.
  pose proof (pow2_pos (fexp q)) as Hp.
  set (e := fexp q) in *. set (p := 2 ^ e) in *.
  assert (Hs : inject_Z (n * 2 ^ (- e)) <= q / p).
  { rewrite <- scale_int by assumption. fold p.
    unfold Qdiv. apply Qmult_le_compat_r; [assumption|].
    apply Qlt_le_weak, Qinv_lt_0_compat, Hp. }
  apply rne_ge in Hs. rewrite Zle_Qle in Hs.
  rewrite <- scale_int in Hs by assumption. fold p in Hs.
  assert (Hn' : inject_Z n == inject_Z n / p * p) by (field; lra).
  rewrite Hn'. apply Qmult_le_compat_r; lra.
Qed.

Lemma rnd64_le_int (q : Q) (n : Z) :
  Qabs q < 2 ^ 53 -> q <= inject_Z n -> rnd64 q <= inject_Z n.
Proof.
  intros Hb Hn.
  destruct (Qeq_dec q 0) as [Hz | Hnz].
  { rewrite (rnd64_zero _ Hz). lra. }
  rewrite (rnd64_val _ Hnz).
  pose proof (fexp_small _ Hnz Hb) as He.
  pose proof (pow2_pos (fexp q)) as Hp.
  set (e := fexp q) in *. set (p := 2 ^ e) in *.
  assert (Hs : q / p <= inject_Z (n * 2 ^ (- e))).
  { rewrite <- scale_int by assumption. fold p.
    unfold Qdiv. apply Qmult_le_compat_r; [assumption|].
    apply Qlt_le_weak, Qinv_lt_0_compat, Hp. }
  apply rne_le in Hs. rewrite Zle_Qle in Hs.
  rewrite <- scale_int in Hs by assumption. fold p in Hs.
  assert (Hn' : inject_Z n == inject_Z n / p * p) by (field; lra).
  rewrite Hn'. apply Qmult_le_compat_r; lra.
Qed.

Lemma rnd64_int (n : Z) :
  (Z.abs n < 2 ^ 53)%Z -> rnd64 (inject_Z n) == inject_Z n.
Proof.
  intros Hn.
  assert (Hb : Qabs (inject_Z n) < 2 ^ 53).
  { change (Qabs (inject_Z n)) with (inject_Z (Z.abs n)).
    change (2 ^ 53) with (inject_Z (2 ^ 53)). now rewrite <- Zlt_Qlt. }
  apply Qle_antisym.
  - apply rnd64_le_int; [assumption | lra].
  - apply rnd64_ge_int; [assumption | lra].
Qed.

Lemma trunc_nonneg (q : Q) :
  0 <= q -> inject_Z (trunc q) <= q /\ q < inject_Z (trunc q) + 1.
Proof.
  destruct q as [n d]. unfold trunc, Qle, Qlt, Qplus, inject_Z. simpl. intros Hq.
  pose proof (Z.quot_rem' n (Z.pos d)) as Hqr.
  assert (Hr : (0 <= Z.rem n (Z.pos d) < Z.pos d)%Z) by (apply Z.rem_bound_pos; lia).
  nia.
Qed.

Lemma trunc_nonpos (q : Q) :
  q <= 0 -> q <= inject_Z (trunc q) /\ inject_Z (trunc q) - 1 < q.
Proof.
  destruct q as [n d]. unfold trunc, Qle, Qlt, Qminus, Qplus, Qopp, inject_Z. simpl. intros Hq.
  pose proof (Z.quot_rem' n (Z.pos d)) as Hqr.
  assert (Hr : (- Z.pos d < Z.rem n (Z.pos d) <= 0)%Z).
  { pose proof (Z.rem_bound_pos_neg n (Z.pos d)). lia. }
  nia.
Qed.

Lemma trunc_ge_int (q : Q) (m : Z) : inject_Z m <= q -> (m <= trunc q)%Z.
Proof.
  intros H. destruct (Qlt_le_dec q 0) as [Hneg | Hpos].
  - pose proof (trunc_nonpos q (Qlt_le_weak _ _ Hneg)) as [Hl _].
    rewrite Zle_Qle. lra.
  - pose proof (trunc_nonneg q Hpos) as [_ Hu].
    assert (Hlt : inject_Z m < inject_Z (trunc q + 1)).
    { rewrite inject_Z_plus. change (inject_Z 1) with 1. lra. }
    rewrite <- Zlt_Qlt in Hlt. lia.
Qed.

Lemma trunc_le_int (q : Q) (m : Z) : q <= inject_Z m -> (trunc q <= m)%Z.
Proof.
  intros H. destruct (Qlt_le_dec q 0) as [Hneg | Hpos].
  - pose proof (trunc_nonpos q (Qlt_le_weak _ _ Hneg)) as [_ Hu].
    assert (Hlt : inject_Z (trunc q) < inject_Z (m + 1)).
    { rewrite inject_Z_plus. change (inject_Z 1) with 1. lra. }
    rewrite <- Zlt_Qlt in Hlt. lia.
  - pose proof (trunc_nonneg q Hpos) as [Hl _].
    rewrite Zle_Qle. lra.
Qed.

Lemma trunc_err (q : Q) : Qabs (inject_Z (trunc q) - q) < 1.
Proof.
  destruct (Qlt_le_dec q 0) as [Hneg | Hpos].
  - pose proof (trunc_nonpos q (Qlt_le_weak _ _ Hneg)). apply Qabs_case; intros; lra.
  - pose proof (trunc_nonneg q Hpos). apply Qabs_case; intros; lra.
Qed.

End Rounding.

(** ** Printing and reading numbers *)

Section Digits.

Local Open Scope Z_scope.

Ltac digit_cases d :=
  let H := fresh in
  assert (H : d = 0 \/ d = 1 \/ d = 2 \/ d = 3 \/ d = 4 \/ d = 5 \/ d = 6 \/
              d = 7 \/ d = 8 \/ d = 9) by lia;
  repeat (destruct H as [H | H]; [subst d; try reflexivity|]);
  subst d; try reflexivity.

Lemma digit_of_char (d : Z) : 0 <= d < 10 -> digit_of (digit_char d) = Some d.
Proof. intros Hd. digit_cases d. Qed.

Lemma digit_char_number (d : Z) :
  0 <= d < 10 -> is_number_char (digit_char d) = true.
Proof. intros Hd. digit_cases d. Qed.

Lemma digit_char_not_dot (d : Z) : 0 <= d < 10 -> is_dot (digit_char d) = false.
Proof. intros Hd. digit_cases d. Qed.

Lemma string_forall_impl (p q : ascii -> bool) (s : string) :
  (forall c, p c = true -> q c = true) ->
  string_forall p s = true -> string_forall q s = true.
Proof.
  intros Hpq. induction s as [|c s IH]; [reflexivity|]. cbn.
  intros H. apply andb_true_iff in H as [Hc Hs].
  now rewrite (Hpq _ Hc), (IH Hs).
Qed.

Lemma string_forall_app (p : ascii -> bool) (s t : string) :
  string_forall p (s ++ t) = string_forall p s && string_forall p t.
Proof.
  induction s as [|c s IH]; [reflexivity|]. cbn. now rewrite IH, andb_assoc.
Qed.

(** The digits [digits_fuel] puts in front of [acc] read back as [n]:
    they extend the number read so far by [n], shifted by their count. *)
Lemma parse_digits_fuel (fuel : nat) :
  forall n, 0 <= n < 10 ^ Z.of_nat fuel ->
  exists k, 0 <= k /\
    forall a acc,
      parse_digits a (digits_fuel fuel n acc) = parse_digits (a * 10 ^ k + n) acc.
Proof.
  induction fuel as [|f IH]; intros n Hn.
  - exists 0. split; [lia|]. intros a acc. cbn in Hn |- *.
    f_equal. lia.
  - cbn [digits_fuel].
    assert (Hd : 0 <= n mod 10 < 10) by (apply Z.mod_pos_bound; lia).
    destruct (Z.ltb_spec n 10) as [Hlt | Hge].
    + exists 1. split; [lia|]. intros a acc. cbn [parse_digits].
      rewrite digit_of_char by assumption.
      f_equal. rewrite Z.mod_small by lia. lia.
    + destruct (IH (n / 10)) as (k & Hk & IHk).
      { rewrite Nat2Z.inj_succ, Z.pow_succ_r in Hn by lia.
        split; [apply Z.div_pos; lia|].
        apply Z.div_lt_upper_bound; lia. }
      exists (k + 1). split; [lia|]. intros a acc.
      rewrite IHk. cbn [parse_digits]. rewrite digit_of_char by assumption.
      f_equal. rewrite Z.pow_add_r by lia.
      pose proof (Z.div_mod n 10 ltac:(lia)). lia.
Qed.

Lemma str_nat_fuel (n : Z) : 0 <= n -> n < 10 ^ Z.of_nat (S (Z.to_nat (Z.log2 n))).
Proof.
  intros Hn. rewrite Nat2Z.inj_succ, Z2Nat.id by apply Z.log2_nonneg.
  destruct (Z.eq_dec n 0) as [-> | Hnz]; [reflexivity|].
  pose proof (Z.log2_spec n ltac:(lia)) as [_ Hu].
  eapply Z.lt_le_trans; [exact Hu|].
  apply Z.pow_le_mono_l. lia.
Qed.

Lemma parse_str_nat (n : Z) : 0 <= n -> parse_digits 0 (str_nat n) = Some n.
Proof.
  intros Hn. unfold str_nat.
  destruct (parse_digits_fuel _ n (conj Hn (str_nat_fuel n Hn))) as (k & _ & Hk).
  rewrite Hk. reflexivity.
Qed.

Lemma digits_fuel_forall (p : ascii -> bool) (fuel : nat) :
  (forall d, 0 <= d < 10 -> p (digit_char d) = true) ->
  forall n acc, 0 <= n -> string_forall p acc = true ->
                string_forall p (digits_fuel fuel n acc) = true.
Proof.
  intros Hp. induction fuel as [|f IH]; intros n acc Hn Hacc; [exact Hacc|].
  cbn [digits_fuel].
  assert (Hd : 0 <= n mod 10 < 10) by (apply Z.mod_pos_bound; lia).
  destruct (n <? 10).
  - cbn. now rewrite Hp, Hacc.
  - apply IH; [apply Z.div_pos; lia|]. cbn. now rewrite Hp, Hacc.
Qed.

(** A printed natural number starts with a digit. *)
Lemma digits_fuel_head (fuel : nat) :
  forall n acc, 0 <= n ->
  (exists d r, 0 <= d < 10 /\ acc = String (digit_char d) r) ->
  exists d r, 0 <= d < 10 /\ digits_fuel fuel n acc = String (digit_char d) r.
Proof.
  induction fuel as [|f IH]; intros n acc Hn Hacc; [exact Hacc|].
  cbn [digits_fuel].
  assert (Hd : 0 <= n mod 10 < 10) by (apply Z.mod_pos_bound; lia).
  destruct (n <? 10).
  - eauto.
  - apply IH; [apply Z.div_pos; lia|]. eauto.
Qed.

Lemma str_nat_head (n : Z) :
  0 <= n -> exists d r, 0 <= d < 10 /\ str_nat n = String (digit_char d) r.
Proof.
  intros Hn. unfold str_nat. cbn [digits_fuel].
  assert (Hd : 0 <= n mod 10 < 10) by (apply Z.mod_pos_bound; lia).
  destruct (n <? 10).
  - eauto.
  - apply digits_fuel_head; [apply Z.div_pos; lia|]. eauto.
Qed.

Lemma str_nat_forall (p : ascii -> bool) (n : Z) :
  (forall d, 0 <= d < 10 -> p (digit_char d) = true) ->
  0 <= n -> string_forall p (str_nat n) = true.
Proof. intros Hp Hn. now apply digits_fuel_forall. Qed.

Lemma pad6_forall (p : ascii -> bool) (m : Z) :
  (forall d, 0 <= d < 10 -> p (digit_char d) = true) ->
  string_forall p (pad6 m) = true.
Proof.
  intros Hp. unfold pad6. cbn.
  rewrite !Hp by (apply Z.mod_pos_bound; lia). reflexivity.
Qed.

Lemma parse_pad6 (m : Z) : 0 <= m < 1000000 -> parse_digits 0 (pad6 m) = Some m.
Proof.
  intros Hm. unfold pad6. cbn [parse_digits].
  rewrite !digit_of_char by (apply Z.mod_pos_bound; lia).
  f_equal. 
  pose proof (Z.div_mod m 10 ltac:(lia)).
  pose proof (Z.div_mod (m / 10) 10 ltac:(lia)).
  pose proof (Z.div_mod (m / 100) 10 ltac:(lia)).
  pose proof (Z.div_mod (m / 1000) 10 ltac:(lia)).
  pose proof (Z.div_mod (m / 10000) 10 ltac:(lia)).
  rewrite !Z.div_div in * by lia.
  change (10 * 10) with 100 in *. change (100 * 10) with 1000 in *.
  change (1000 * 10) with 10000 in *. change (10000 * 10) with 100000 in *.
  assert (m / 100000 < 10) by (apply Z.div_lt_upper_bound; lia).
  assert (0 <= m / 100000) by (apply Z.div_pos; lia).
  rewrite (Z.mod_small (m / 100000) 10) by lia.
  lia.
Qed.

End Digits.

Section Reading.

Local Open Scope Z_scope.

Lemma break_at_none (p : ascii -> bool) (s : string) :
  string_forall (fun c => negb (p c)) s = true ->
  break_at p s = (s, None).
Proof.
  induction s as [|c s IH]; [reflexivity|]. cbn.
  intros H. apply andb_true_iff in H as [Hc Hs].
  apply negb_true_iff in Hc. now rewrite Hc, (IH Hs).
Qed.

Lemma break_at_first (p : ascii -> bool) (s t : string) (c : ascii) :
  string_forall (fun c => negb (p c)) s = true -> p c = true ->
  break_at p (s ++ String c t) = (s, Some t).
Proof.
  intros Hs Hc. induction s as [|c' s IH]; cbn.
  - now rewrite Hc.
  - cbn in Hs. apply andb_true_iff in Hs as [Hc' Hs].
    apply negb_true_iff in Hc'. now rewrite Hc', (IH Hs).
Qed.

Lemma number_char_not_exp (c : ascii) :
  is_number_char c = true -> negb (is_exp c) = true.
Proof.
  unfold is_number_char, is_exp.
  set (n := Z.of_nat (nat_of_ascii c)). intros H.
  destruct (Z.eqb_spec n 101), (Z.eqb_spec n 69); try reflexivity; subst n; lia.
Qed.

Lemma number_char_not_space (c : ascii) :
  is_number_char c = true -> negb (is_space c) = true.
Proof.
  unfold is_number_char, is_space.
  set (n := Z.of_nat (nat_of_ascii c)). intros H.
  apply negb_true_iff. lia.
Qed.

(** A sign prefix is read only from a string that starts with a sign. *)
Lemma signed_digit_head {A : Type} (neg : A -> A) (p : string -> option A)
    (d : Z) (r : string) :
  0 <= d < 10 ->
  signed neg p (String (digit_char d) r) = p (String (digit_char d) r).
Proof.
  intros Hd.
  assert (H : d = 0 \/ d = 1 \/ d = 2 \/ d = 3 \/ d = 4 \/ d = 5 \/ d = 6 \/
              d = 7 \/ d = 8 \/ d = 9) by lia.
  repeat (destruct H as [H | H]; [subst d; reflexivity|]).
  subst d; reflexivity.
Qed.

(** [int(str(z))] is [z], for a non-negative [z]. *)
Lemma int_of_string_str_int (z : Z) :
  0 <= z -> int_of_string (str_int z) = Some z.
Proof.
  intros Hz. unfold str_int, int_of_string.
  destruct (Z.ltb_spec z 0); [lia|].
  destruct (str_nat_head z Hz) as (d & r & Hd & E).
  pose proof (parse_str_nat z Hz) as Hp.
  rewrite E in *. rewrite signed_digit_head by assumption.
  unfold parse_nat. cbn [is_empty]. exact Hp.
Qed.

Lemma str_int_number (z : Z) :
  0 <= z -> string_forall is_number_char (str_int z) = true.
Proof.
  intros Hz. unfold str_int. destruct (Z.ltb_spec z 0); [lia|].
  apply str_nat_forall; [apply digit_char_number | assumption].
Qed.

Lemma format_6f_number (q : Q) : string_forall is_number_char (format_6f q) = true.
Proof.
  unfold format_6f. cbv zeta.
  set (n := rne (Qabs q * 1000000)).
  assert (Hn : 0 <= n).
  { apply rne_ge. change (inject_Z 0) with 0%Q.
    pose proof (Qabs_nonneg q). nra. }
  assert (Hbody : string_forall is_number_char
            (str_nat (n / 1000000) ++ String "." (pad6 (n mod 1000000))) = true).
  { rewrite string_forall_app. cbn [string_forall].
    rewrite str_nat_forall, pad6_forall;
      [reflexivity | apply digit_char_number | apply digit_char_number |
       apply Z.div_pos; lia]. }
  destruct (Qle_bool 0 q); [exact Hbody|]. cbn [string_forall].
  now rewrite Hbody.
Qed.

Lemma is_word_number (s : string) :
  is_empty s = false -> string_forall is_number_char s = true ->
  is_word s = true.
Proof.
  intros He Hs. unfold is_word. rewrite He. cbn.
  revert Hs. apply string_forall_impl. apply number_char_not_space.
Qed.

Lemma str_int_word (z : Z) : 0 <= z -> is_word (str_int z) = true.
Proof.
  intros Hz. apply is_word_number; [|now apply str_int_number].
  unfold str_int. destruct (Z.ltb_spec z 0); [lia|].
  destruct (str_nat_head z Hz) as (d & r & _ & ->). reflexivity.
Qed.

Lemma format_6f_word (q : Q) : is_word (format_6f q) = true.
Proof.
  apply is_word_number; [|apply format_6f_number].
  unfold format_6f. cbv zeta. destruct (Qle_bool 0 q); [|reflexivity].
  set (n := rne (Qabs q * 1000000)).
  assert (Hn : 0 <= n / 1000000).
  { apply Z.div_pos; [|lia]. apply rne_ge. change (inject_Z 0) with 0%Q.
    pose proof (Qabs_nonneg q). nra. }
  destruct (str_nat_head _ Hn) as (d & r & _ & ->). reflexivity.
Qed.

(** [float(format(q, '.6f'))] for a non-negative [q]: the decimal with
    six digits nearest to [q], rounded to binary64. *)
Lemma float_of_format_6f (q : Q) :
  (0 <= q)%Q ->
  exists v : Q,
    float_of_string (format_6f q) = Some (rnd64 v) /\
    (v == inject_Z (rne (Qabs q * 1000000)) / 1000000)%Q.
Proof.
  intros Hq. unfold format_6f. cbv zeta.
  set (n := rne (Qabs q * 1000000)).
  assert (Hn : 0 <= n).
  { apply rne_ge. change (inject_Z 0) with 0%Q.
    pose proof (Qabs_nonneg q). nra. }
  assert (Hq' : Qle_bool 0 q = true) by now apply Qle_bool_iff.
  rewrite Hq'.
  assert (Hi : 0 <= n / 1000000) by (apply Z.div_pos; lia).
  assert (Hm : 0 <= n mod 1000000 < 1000000) by (apply Z.mod_pos_bound; lia).
  set (ip := str_nat (n / 1000000)). set (fp := pad6 (n mod 1000000)).
  assert (Hipn : string_forall is_number_char ip = true)
    by (apply str_nat_forall; [apply digit_char_number | assumption]).
  assert (Hfpn : string_forall is_number_char fp = true)
    by (apply pad6_forall, digit_char_number).
  assert (Hipd : string_forall (fun c => negb (is_dot c)) ip = true).
  { apply str_nat_forall; [|assumption].
    intros d Hd. now rewrite digit_char_not_dot. }
  exists (inject_Z (n / 1000000) + inject_Z (n mod 1000000) / pow10 6)%Q.
  split.
  - unfold float_of_string.
    destruct (str_nat_head _ Hi) as (d & r & Hd & E). fold ip in E.
    assert (Hsig : signed Qopp parse_unsigned_float (ip ++ String "." fp)
                   = parse_unsigned_float (ip ++ String "." fp)).
    { rewrite E. cbn [append]. now apply signed_digit_head. }
    rewrite Hsig. unfold parse_unsigned_float.
    rewrite break_at_none.
    2:{ rewrite string_forall_app. cbn [string_forall].
        rewrite (string_forall_impl _ _ _ number_char_not_exp Hipn).
        rewrite (string_forall_impl _ _ _ number_char_not_exp Hfpn).
        reflexivity. }
    unfold parse_decimal. rewrite break_at_first by (assumption || reflexivity).
    assert (Hne : is_empty ip = false) by (rewrite E; reflexivity).
    rewrite Hne. cbn [andb].
    unfold ip, fp. rewrite parse_str_nat, parse_pad6 by assumption.
    reflexivity.
  - pose proof (Z.div_mod n 1000000 ltac:(lia)) as Hdm.
    assert (E : inject_Z n ==
                (inject_Z 1000000 * inject_Z (n / 1000000)
                 + inject_Z (n mod 1000000))%Q).
    { rewrite <- inject_Z_mult, <- inject_Z_plus. now rewrite <- Hdm. }
    rewrite E. change (pow10 6) with (Qpower 10 6).
    assert (P : (Qpower 10 6 == 1000000)%Q) by reflexivity.
    rewrite P. change (inject_Z 1000000) with 1000000%Q. field.
Qed.

End Reading.

(** ** Splitting a line into words *)

Section Splitting.

Local Open Scope string_scope.

Lemma append_assoc (a b c : string) : (a ++ b) ++ c = a ++ (b ++ c).
Proof. induction a as [|x a IH]; cbn; [reflexivity | now rewrite IH]. Qed.

Lemma append_nil_r (a : string) : a ++ "" = a.
Proof. induction a as [|x a IH]; cbn; [reflexivity | now rewrite IH]. Qed.

(** The characters of a word extend the word under way. *)
Lemma split_acc_word (t : string) :
  forall cur rest,
    string_forall (fun c => negb (is_space c)) t = true ->
    split_acc cur (t ++ rest) = split_acc (cur ++ t) rest.
Proof.
  induction t as [|c t IH]; intros cur rest Ht; cbn [append].
  - now rewrite append_nil_r.
  - cbn in Ht. apply andb_true_iff in Ht as [Hc Ht].
    apply negb_true_iff in Hc. cbn [split_acc]. rewrite Hc.
    rewrite IH by assumption. now rewrite append_assoc.
Qed.

(** A word followed by a white space and more. *)
Lemma split_word_then (t rest : string) (c : ascii) :
  is_word t = true -> is_space c = true ->
  split_acc "" (t ++ String c rest) = t :: split_acc "" rest.
Proof.
  intros Ht Hc. unfold is_word in Ht. apply andb_true_iff in Ht as [Hne Hns].
  apply negb_true_iff in Hne.
  rewrite split_acc_word by assumption. cbn [append split_acc].
  now rewrite Hc, Hne.
Qed.

(** Five words joined by single spaces and ended by a newline, as
    [save_annotation] writes them. *)
Lemma split_five_words (t1 t2 t3 t4 t5 : string) :
  is_word t1 = true -> is_word t2 = true -> is_word t3 = true ->
  is_word t4 = true -> is_word t5 = true ->
  split (t1 ++ " " ++ t2 ++ " " ++ t3 ++ " " ++ t4 ++ " " ++ t5 ++ newline)
  = [t1; t2; t3; t4; t5].
Proof.
  intros H1 H2 H3 H4 H5. unfold split, newline. cbn [append].
  rewrite !split_word_then by (assumption || reflexivity).
  reflexivity.
Qed.

Lemma split_acc_spaces (s cur : string) :
  string_forall is_space s = true -> split_acc cur s = split_acc cur "".
Proof.
  revert cur. induction s as [|c s IH]; intros cur Hs; [reflexivity|].
  cbn in Hs. apply andb_true_iff in Hs as [Hc Hs].
  cbn [split_acc]. rewrite Hc.
  destruct (is_empty cur) eqn:E.
  - rewrite IH by assumption. reflexivity.
  - rewrite IH by assumption. reflexivity.
Qed.

Lemma rstrip_empty (s : string) :
  rstrip s = "" -> string_forall is_space s = true.
Proof.
  induction s as [|c s IH]; [reflexivity|]. cbn [rstrip].
  destruct (is_empty (rstrip s)) eqn:E.
  - destruct (is_space c) eqn:Ec; cbn [andb]; [|discriminate].
    intros _. cbn. rewrite Ec. apply IH. now destruct (rstrip s).
  - cbn [andb]. discriminate.
Qed.

Lemma split_acc_rstrip (s : string) :
  forall cur, split_acc cur (rstrip s) = split_acc cur s.
Proof.
  induction s as [|c s IH]; intros cur; [reflexivity|]. cbn [rstrip].
  destruct (is_empty (rstrip s) && is_space c) eqn:E.
  - apply andb_true_iff in E as [E1 E2].
    assert (Hr : rstrip s = "") by now destruct (rstrip s).
    symmetry. apply split_acc_spaces. cbn. rewrite E2.
    now apply rstrip_empty.
  - cbn [split_acc]. now rewrite !IH.
Qed.

Lemma split_acc_lstrip (s : string) :
  split_acc "" (lstrip s) = split_acc "" s.
Proof.
  induction s as [|c s IH]; [reflexivity|]. cbn [lstrip split_acc is_empty].
  destruct (is_space c) eqn:E; [exact IH|]. cbn [split_acc]. now rewrite E.
Qed.

(** [s.strip().split()] is [s.split()]. *)
Lemma split_strip (s : string) : split (strip s) = split s.
Proof.
  unfold split, strip. now rewrite split_acc_rstrip, split_acc_lstrip.
Qed.

End Splitting.

(** ** [rnd64] against the kernel's binary64 arithmetic

    The operations of the model agree with the hardware operations on the
    values the statements below turn on: decimal literals, products and
    quotients that need rounding, a tie, a subnormal result. *)

Section KernelFloats.

Local Open Scope Q_scope.

Definition fl (n : Z) : float := PrimFloat.of_uint63 (Uint63.of_Z n).

Example rnd64_matches_binary64 :
  (* the literals 1.1, 0.9, 0.01 and 0.95 *)
  Prim2Q (fl 11 / fl 10)%float = Some f_1_1 /\
  Prim2Q (fl 9 / fl 10)%float = Some f_0_9 /\
  Prim2Q (fl 1 / fl 100)%float = Some f_0_01 /\
  Prim2Q (fl 95 / fl 100)%float = Some f_0_95 /\
  (* 9 * 0.9 and 9 - 9 * 0.9 *)
  Prim2Q (fl 9 * (fl 9 / fl 10))%float = Some (rnd64 (9 * f_0_9)) /\
  Prim2Q (fl 9 - fl 9 * (fl 9 / fl 10))%float
    = Some (rnd64 (9 - rnd64 (9 * f_0_9))) /\
  (* (0.2 + 0.2 / 2) * 1000 *)
  Prim2Q ((fl 2 / fl 10 + fl 2 / fl 10 / fl 2) * fl 1000)%float
    = Some (rnd64 (rnd64 (rnd64 (2 # 10) + rnd64 (rnd64 (2 # 10) / 2)) * 1000)) /\
  (* 1 / 3, and 2 / 3 negated *)
  Prim2Q (fl 1 / fl 3)%float = Some (rnd64 (1 # 3)) /\
  Prim2Q (- (fl 2 / fl 3))%float = Some (rnd64 (- (2 # 3))) /\
  (* 2^53 + 1 is a tie and goes to the even neighbour, 2^53 + 3 goes up *)
  Prim2Q (fl 9007199254740993) = Some (rnd64 9007199254740993) /\
  Prim2Q (fl 9007199254740995) = Some (rnd64 9007199254740995) /\
  (* a subnormal product: (1 / 3) * 2^-1070 *)
  Prim2Q (PrimFloat.ldshiftexp (fl 1 / fl 3)%float (Uint63.of_Z (2101 - 1070)))
    = Some (rnd64 (rnd64 (1 # 3) * 2 ^ (-1070))).
Proof. vm_compute. repeat split. Qed.

End KernelFloats.

(** ** The drawing gesture *)

Section GestureLemmas.

Local Open Scope Z_scope.

Lemma py_truediv_float (a : pynum) (q : Q) :
  ~ (q == 0)%Q ->
  py_truediv a (PyFloat q) = Ok (PyFloat (rnd64 (to_float a / q))).
Proof.
  intros Hq. unfold py_truediv.
  assert (E : Qeq_bool (to_float (PyFloat q)) 0 = false).
  { simpl. destruct (Qeq_bool q 0) eqn:E; [|reflexivity].
    apply Qeq_bool_iff in E. contradiction. }
  destruct a; rewrite E; reflexivity.
Qed.

Lemma screen_to_img_ok (v : View) (sx sy : pynum) :
  ~ (scale_factor v == 0)%Q ->
  screen_to_img v sx sy =
  Ok (trunc (rnd64 (to_float (py_sub sx (PyInt (fst (offset v))))
                    / scale_factor v)),
      trunc (rnd64 (to_float (py_sub sy (PyInt (snd (offset v))))
                    / scale_factor v))).
Proof.
  intros Hs. unfold screen_to_img.
  rewrite !py_truediv_float by assumption. reflexivity.
Qed.

Lemma clamped_img_pos_ok (ev : MouseEvent) (s : Session) :
  ~ (scale_factor (view s) == 0)%Q ->
  exists ix iy,
    screen_to_img (view s) (PyFloat (fst (position ev)))
                  (PyFloat (snd (position ev))) = Ok (ix, iy) /\
    clamped_img_pos ev s =
    Ok (Z.max 0 (Z.min ix (img_width s)), Z.max 0 (Z.min iy (img_height s))).
Proof.
  intros Hs. unfold clamped_img_pos.
  rewrite (screen_to_img_ok _ _ _ Hs). eexists _, _. split; reflexivity.
Qed.

Lemma py_getitem_ok {A : Type} (l : list A) (i : Z) :
  0 <= i < len l -> exists a, py_getitem l i = Ok a.
Proof.
  intros Hi. unfold py_getitem.
  destruct (i <? 0) eqn:E; [lia|].
  replace ((0 <=? i) && (i <? len l)) with true by lia.
  destruct (nth_error l (Z.to_nat i)) eqn:En; [eexists; reflexivity|].
  apply nth_error_None in En. unfold len in Hi. lia.
Qed.

Lemma py_update_ok {A : Type} (f : A -> A) (l : list A) (i : Z) :
  0 <= i < len l -> py_update f l i = Ok (list_update f (Z.to_nat i) l).
Proof.
  intros Hi. unfold py_update.
  destruct (i <? 0) eqn:E; [lia|].
  now replace ((0 <=? i) && (i <? len l)) with true by lia.
Qed.

Lemma list_update_length {A : Type} (f : A -> A) (k : nat) (l : list A) :
  List.length (list_update f k l) = List.length l.
Proof.
  revert k. induction l as [|a l IH]; intros [|k]; simpl; auto.
Qed.

Lemma len_list_update {A : Type} (f : A -> A) (k : nat) (l : list A) :
  len (list_update f k l) = len l.
Proof. unfold len. now rewrite list_update_length. Qed.

Lemma map_list_update {A B : Type} (g : A -> B) (f : A -> A) (k : nat)
    (l : list A) :
  (forall a, g (f a) = g a) -> map g (list_update f k l) = map g l.
Proof.
  intros Hg. revert k.
  induction l as [|a l IH]; intros [|k]; simpl; rewrite ?Hg, ?IH; reflexivity.
Qed.

(** The bookkeeping after a change of the box list touches the image
    records and the image table only. *)
Lemma sync_annot_count_ok (s : Session) :
  last_selected_row s < len (image_list_data s) ->
  exists s',
    sync_annot_count s = Ok s' /\
    boxes s' = boxes s /\ gesture s' = gesture s /\ view s' = view s /\
    is_modified s' = is_modified s /\ qt_pixmap s' = qt_pixmap s /\
    img_width s' = img_width s /\ img_height s' = img_height s /\
    last_selected_row s' = last_selected_row s /\
    dialogs (ui s') = dialogs (ui s) /\
    map has_annotation (image_list_data s') =
    map has_annotation (image_list_data s).
Proof.
  intros Hrow. unfold sync_annot_count.
  destruct (0 <=? last_selected_row s) eqn:E.
  - rewrite py_update_ok by lia. cbn [bind].
    unfold update_image_list_ui_item. cbn [image_list_data set_image_list_data].
    destruct (py_getitem_ok
                (list_update (set_annot_count (len (boxes s)))
                   (Z.to_nat (last_selected_row s)) (image_list_data s))
                (last_selected_row s)) as [a ->].
    { rewrite len_list_update. lia. }
    cbn [bind]. eexists. split; [reflexivity|].
    repeat split; try reflexivity.
    cbn. apply map_list_update. reflexivity.
  - exists s. repeat split; reflexivity.
Qed.

End GestureLemmas.

(** C10.  A pointer release that ends a drawing gesture (a loaded image,
    no pan under way, draw mode on, a start point set) switches draw mode
    off whatever its outcome: the drawing flag and the toggle button are
    cleared, and so are the start point and the provisional box.  Without
    a selected class nothing is added and a message is shown; otherwise the
    box list grows by at most one box. *)
Theorem release_disables_draw_mode (ev : MouseEvent) (s : Session) (p : Z * Z) :
  has_pixmap s = true ->
  panning (gesture s) = false ->
  drawing (gesture s) = true ->
  start_point (gesture s) = Some p ->
  ~ (scale_factor (view s) == 0)%Q ->
  (last_selected_row s < len (image_list_data s))%Z ->
  exists s',
    on_mouse_release ev s = Ok s' /\
    drawing (gesture s') = false /\
    btn_draw_box (ui s') = false /\
    start_point (gesture s') = None /\
    current_box (gesture s') = None /\
    (class_combo_index (ui s) = (-1)%Z ->
       boxes s' = boxes s /\
       dialogs (ui s') = (dialogs (ui s) ++ [SelectClassFirst])%list) /\
    (class_combo_index (ui s) <> (-1)%Z ->
       dialogs (ui s') = dialogs (ui s) /\
       (boxes s' = boxes s \/ exists b, boxes s' = (boxes s ++ [b])%list)).
Proof.
  intros Hpix Hpan Hdraw Hstart Hscale Hrow.
  unfold on_mouse_release. rewrite Hpix, Hpan, Hdraw, Hstart. cbn [negb].
  destruct p as [sx sy].
  destruct (Z.eqb_spec (class_combo_index (ui s)) (-1)) as [Hc | Hc].
  - eexists. split; [reflexivity|].
    repeat split; try reflexivity; intros; congruence.
  - destruct (clamped_img_pos_ok ev s Hscale) as (ix & iy & _ & ->).
    cbn [bind].
    match goal with |- context [if ?c then _ else _] => destruct c end.
    + match goal with |- context [sync_annot_count ?t] =>
        destruct (sync_annot_count_ok t) as (s1 & -> & Hb & _ & _ & _ & _ & _ & _ & _ & Hd & _)
      end; [exact Hrow|].
      cbn [bind]. eexists. split; [reflexivity|].
      repeat split; try reflexivity; try (intros; congruence).
      * cbn. rewrite Hd. reflexivity.
      * right. eexists. cbn. rewrite Hb. reflexivity.
    + cbn [bind]. eexists. split; [reflexivity|].
      repeat split; try reflexivity; try (intros; congruence).
      left. reflexivity.
Qed.

Lemma release_disables_draw_mode_witness :
  exists s',
    on_mouse_release far_event drawing_session = Ok s' /\
    drawing (gesture s') = false /\
    btn_draw_box (ui s') = false /\
    start_point (gesture s') = None /\
    current_box (gesture s') = None /\
    (class_combo_index (ui drawing_session) = (-1)%Z ->
       boxes s' = boxes drawing_session /\
       dialogs (ui s') =
       (dialogs (ui drawing_session) ++ [SelectClassFirst])%list) /\
    (class_combo_index (ui drawing_session) <> (-1)%Z ->
       dialogs (ui s') = dialogs (ui drawing_session) /\
       (boxes s' = boxes drawing_session \/
        exists b, boxes s' = (boxes drawing_session ++ [b])%list)).
Proof.
  apply (release_disables_draw_mode far_event drawing_session (5, 5)%Z).
  - reflexivity.
  - reflexivity.
  - reflexivity.
  - reflexivity.
  - intros H. vm_compute in H. discriminate H.
  - vm_compute. reflexivity.
Defined.

Section ClampLemmas.

Local Open Scope Z_scope.

Lemma clamp_range (a w : Z) : 0 <= w -> 0 <= Z.max 0 (Z.min a w) <= w.
Proof. lia. Qed.











End ClampLemmas.




(** ** Switching images *)

(** C6.  With unsaved changes, a click on another row of the image table
    that is answered with "cancel" switches nothing: the handler returns
    before [load_image_data], touches neither the file system nor any
    attribute of the session (the current image, the boxes and the
    modified flag included), and sets the highlighted row of the table
    back to the row of the image on display (or clears it when no image
    was chosen yet).  When the highlighted row was that row before the
    click, the whole session after the click is the session before it. *)
Theorem cancel_switch_keeps_session
    (row : Z) (fault : Fault) (fs : FileSystem) (s : Session) :
  is_modified s = true ->
  row <> last_selected_row s ->
  (last_selected_row s = (-1)%Z \/
   (0 <= last_selected_row s < len (image_list (ui s)))%Z) ->
  let restored :=
    if (last_selected_row s =? -1)%Z then None
    else Some (last_selected_row s) in
  click_image_list row Cancel fault fs s
  = Ok (fs, upd_ui (set_image_list_selection restored) s) /\
  (image_list_selection (ui s) = restored ->
   click_image_list row Cancel fault fs s = Ok (fs, s)).
Proof.
  intros Hmod Hrow Hrange restored.
  assert (Hclick : click_image_list row Cancel fault fs s
                   = Ok (fs, upd_ui (set_image_list_selection restored) s)).
  { unfold click_image_list, on_image_list_clicked, check_unsaved_changes.
    cbn [last_selected_row upd_ui set_ui is_modified].
    rewrite Hmod. cbn [bind negb].
    destruct (Z.eqb_spec row (last_selected_row s)) as [E | _]; [contradiction|].
    subst restored.
    destruct s as [bx cip ild cls cci qp im lsr iw ih vw ge w].
    destruct w as [il ils ait cci' cidx bdb bsa cur st ls dl co].
    cbn in *.
    destruct (Z.eqb_spec lsr (-1)) as [E | E]; cbn [negb].
    - reflexivity.
    - destruct Hrange as [? | Hrange]; [contradiction|].
      unfold upd_ui, select_row.
      cbn [ui set_ui image_list set_image_list_selection].
      replace ((0 <=? lsr)%Z && (lsr <? len il)%Z) with true by lia.
      reflexivity. }
  split; [exact Hclick|].
  intros Hsel. rewrite Hclick. f_equal. f_equal.
  destruct s as [bx cip ild cls cci qp im lsr iw ih vw ge w].
  destruct w as [il ils ait cci' cidx bdb bsa cur st ls dl co].
  cbn in *. now subst ils.
Qed.

Lemma cancel_switch_keeps_session_witness :
  click_image_list 5 Cancel None (sample_fs [good_line]) modified_session
  = Ok (sample_fs [good_line],
        upd_ui (set_image_list_selection (Some 0%Z)) modified_session) /\
  (image_list_selection (ui modified_session) = Some 0%Z ->
   click_image_list 5 Cancel None (sample_fs [good_line]) modified_session
   = Ok (sample_fs [good_line], modified_session)).
Proof.
  apply (cancel_switch_keeps_session 5 None (sample_fs [good_line])
           modified_session).
  - reflexivity.
  - vm_compute. discriminate.
  - right. vm_compute. split; [discriminate | reflexivity].
Defined.

(** ** Editing the box list *)

Section DeleteLemmas.

Local Open Scope Z_scope.

(** [delete_selected_box] never writes the [has_annotation] field of an
    image record. *)
Lemma delete_keeps_has_annotation (row : Z) (s s' : Session) :
  last_selected_row s < len (image_list_data s) ->
  delete_selected_box row s = Ok s' ->
  map has_annotation (image_list_data s') =
  map has_annotation (image_list_data s).
Proof.
  intros Hrow. unfold delete_selected_box.
  destruct ((0 <=? row) && (row <? len (boxes s))).
  - match goal with |- context [sync_annot_count ?t] =>
      destruct (sync_annot_count_ok t) as (s1 & -> & H)
    end; [exact Hrow|].
    intros [= <-]. apply H.
  - now intros [= <-].
Qed.

End DeleteLemmas.

(** C7 (the code departs from the claim).  Deleting the only box of the
    sample session, whose image record says [has_annotation = true], sets
    [annot_count] of the record to 0 and shows "no" and 0 in the image
    table, but leaves [has_annotation] of the record [true];
    [clear_all_boxes] on the same session sets it to [false]. *)
Example delete_only_box_keeps_has_annotation :
  (exists s',
     delete_selected_box 0 sample_session = Ok s' /\
     boxes s' = [] /\
     map annot_count (image_list_data s') = [0%Z] /\
     map has_annotation (image_list_data s') = [true] /\
     map cell_status (image_list (ui s')) = [false] /\
     map cell_count (image_list (ui s')) = [0%Z]) /\
  (exists s',
     clear_all_boxes true sample_session = Ok s' /\
     boxes s' = [] /\
     map annot_count (image_list_data s') = [0%Z] /\
     map has_annotation (image_list_data s') = [false]).
Proof.
  split; eexists; (split; [vm_compute; reflexivity|]); repeat split.
Qed.

(** ** Loading a label file *)

Section LoadLemmas.

(** A line with fewer than five words is skipped. *)
Lemma load_lines_skip (cls : list string) (W H : Z) (l : string)
    (ls : list string) (acc : list Box) :
  (len (split (strip l)) < 5)%Z ->
  load_lines cls W H (l :: ls) acc = load_lines cls W H ls acc.
Proof.
  intros Hl. cbn [load_lines]. unfold parse_label_line.
  destruct (Z.leb_spec 5 (len (split (strip l)))); [lia|]. reflexivity.
Qed.

(** A line that raises ends the loading: the lines after it are not read. *)
Lemma load_lines_raise (cls : list string) (W H : Z) (l : string)
    (ls : list string) (acc : list Box) (e : exn) :
  parse_label_line cls W H l = Raise e ->
  load_lines cls W H (l :: ls) acc = (acc, Some e).
Proof. intros Hl. cbn [load_lines]. now rewrite Hl. Qed.

(** Loading a file in two parts: the second part is read only when the
    first ended without exception. *)
Lemma load_lines_app (cls : list string) (W H : Z) (pre post : list string)
    (acc : list Box) :
  load_lines cls W H (pre ++ post) acc =
  match load_lines cls W H pre acc with
  | (acc', None) => load_lines cls W H post acc'
  | (acc', Some e) => (acc', Some e)
  end.
Proof.
  revert acc. induction pre as [|l pre IH]; intros acc; [reflexivity|].
  cbn [app load_lines].
  destruct (parse_label_line cls W H l) as [[b|]|e]; [apply IH | apply IH | reflexivity].
Qed.

(** A line that raises after lines that load: the boxes of the lines
    before it are kept, the lines after it are not read. *)
Lemma load_lines_stops (cls : list string) (W H : Z) (pre post : list string)
    (bad : string) (acc acc' : list Box) (e : exn) :
  load_lines cls W H pre acc = (acc', None) ->
  parse_label_line cls W H bad = Raise e ->
  load_lines cls W H (pre ++ bad :: post) acc = (acc', Some e).
Proof.
  intros Hpre Hbad. rewrite load_lines_app, Hpre.
  now apply load_lines_raise.
Qed.

End LoadLemmas.

(** C1 (the code departs from the claim).  A label file of the sample
    image (1000 x 800) with two well-formed lines after a line whose class
    id is no number loads no box at all: the [ValueError] of the first line
    ends the loop.  A line with too few words in the same place is skipped
    and both boxes are loaded. *)
Example malformed_number_aborts_load :
  (exists s',
     load_image_data (sample_fs [bad_number_line; good_line; good_line]) 0
                     sample_session = Ok s' /\
     boxes s' = [] /\ console (ui s') = [ValueError]) /\
  (exists s',
     load_image_data (sample_fs [good_line; bad_number_line; good_line]) 0
                     sample_session = Ok s' /\
     boxes s' = [sample_box] /\ console (ui s') = [ValueError]) /\
  (exists s',
     load_image_data (sample_fs [short_line; good_line; good_line]) 0
                     sample_session = Ok s' /\
     boxes s' = [sample_box; sample_box] /\ console (ui s') = []).
Proof.
  repeat split; eexists; (split; [vm_compute; reflexivity|]); split; reflexivity.
Qed.

(** ** Saving *)

Section SaveLemmas.

Local Open Scope Z_scope.

Lemma path_eqb_eq (p q : Path) : path_eqb p q = true <-> p = q.
Proof.
  unfold path_eqb. destruct (list_eq_dec string_dec p q); split; congruence.
Qed.

Lemma path_eqb_refl (p : Path) : path_eqb p p = true.
Proof. now apply path_eqb_eq. Qed.

Lemma files_fs_write_same (p : Path) (c : list string) (fs : FileSystem) :
  files (fs_write p c fs) p = Some c.
Proof. cbn. now rewrite path_eqb_refl. Qed.

Lemma files_fs_write_other (p q : Path) (c : list string) (fs : FileSystem) :
  q <> p -> files (fs_write p c fs) q = files fs q.
Proof.
  intros Hq. cbn. destruct (path_eqb q p) eqn:E; [|reflexivity].
  apply path_eqb_eq in E. contradiction.
Qed.

(** The loop on a device without fault: all lines are handed over. *)
Lemma write_boxes_all (bs : list Box) (W H : Z) (lines acc : list string) :
  encode_all bs W H = Ok lines ->
  write_boxes None bs W H acc = ((acc ++ lines)%list, None, None).
Proof.
  revert lines acc. induction bs as [|b bs IH]; intros lines acc Henc.
  - injection Henc as <-. cbn. now rewrite app_nil_r.
  - cbn [encode_all write_boxes] in Henc |- *.
    destruct (encode_box b W H) as [line|e]; [|discriminate].
    cbn [bind] in Henc. destruct (encode_all bs W H) as [ls|e]; [|discriminate].
    injection Henc as <-. rewrite (IH ls) by reflexivity.
    now rewrite <- app_assoc.
Qed.

(** The loop on a device that lets [k] operations succeed: when a line is
    left for the operation that fails, the loop ends in that [write] with
    [OSError]; otherwise all lines are handed over. *)
Lemma write_boxes_budget (bs : list Box) (W H : Z) (lines acc : list string)
    (k : nat) :
  encode_all bs W H = Ok lines ->
  write_boxes (Some k) bs W H acc =
  if (k <? List.length lines)%nat
  then ((acc ++ firstn (S k) lines)%list, Some O, Some OSError)
  else ((acc ++ lines)%list, Some (k - List.length lines)%nat, None).
Proof.
  revert lines acc k. induction bs as [|b bs IH]; intros lines acc k Henc.
  - injection Henc as <-. cbn. now rewrite app_nil_r, Nat.sub_0_r.
  - cbn [encode_all write_boxes] in Henc |- *.
    destruct (encode_box b W H) as [line|e]; [|discriminate].
    cbn [bind] in Henc. destruct (encode_all bs W H) as [ls|e]; [|discriminate].
    cbn [bind] in Henc. injection Henc as <-. destruct k as [|k].
    + cbn. reflexivity.
    + rewrite (IH ls) by reflexivity. cbn [List.length].
      change (S k <? S (List.length ls))%nat with (k <? List.length ls)%nat.
      destruct (k <? List.length ls)%nat.
      * cbn [firstn]. now rewrite <- app_assoc.
      * cbn [Nat.sub]. now rewrite <- app_assoc.
Qed.

(** The loop ends without exception only when it handed over the line of
    every box. *)
Lemma write_boxes_complete (budget : option nat) (bs : list Box) (W H : Z)
    (acc written : list string) (remaining : option nat) :
  write_boxes budget bs W H acc = (written, remaining, None) ->
  exists lines, encode_all bs W H = Ok lines /\ written = (acc ++ lines)%list.
Proof.
  revert budget acc. induction bs as [|b bs IH]; intros budget acc Hw.
  - cbn in Hw. injection Hw as <- _. exists []. now rewrite app_nil_r.
  - cbn [encode_all write_boxes] in Hw |- *.
    destruct (encode_box b W H) as [line|e]; [|discriminate].
    cbn [bind]. destruct budget as [[|k]|]; [discriminate| |];
      apply IH in Hw; destruct Hw as (ls & -> & ->);
      exists (line :: ls); (split; [reflexivity|]); now rewrite <- app_assoc.
Qed.

(** What is left of the operations the device lets succeed, after a loop
    that ended without exception. *)
Lemma write_boxes_remaining (bs : list Box) (W H : Z) (acc written : list string)
    (k : nat) (remaining : option nat) :
  write_boxes (Some k) bs W H acc = (written, remaining, None) ->
  remaining = Some (k - List.length bs)%nat /\ (List.length bs <= k)%nat.
Proof.
  revert acc k. induction bs as [|b bs IH]; intros acc k Hw.
  - cbn in Hw. injection Hw as _ <-. cbn. split; [f_equal|]; lia.
  - cbn [write_boxes] in Hw.
    destruct (encode_box b W H) as [line|e]; [|discriminate].
    destruct k as [|k]; [discriminate|].
    apply IH in Hw. cbn [List.length Nat.sub]. split; [apply Hw | lia].
Qed.

(** With fewer operations allowed than there are boxes, the loop ends
    with an exception. *)
Lemma write_boxes_fails (bs : list Box) (W H : Z) (acc : list string) (k : nat) :
  (k < List.length bs)%nat ->
  exists written remaining e,
    write_boxes (Some k) bs W H acc = (written, remaining, Some e).
Proof.
  revert acc k. induction bs as [|b bs IH]; intros acc k Hk; [inversion Hk|].
  cbn [write_boxes]. destruct (encode_box b W H) as [line|e]; [|eauto].
  destruct k as [|k]; [eauto|]. apply IH. cbn in Hk. lia.
Qed.

Lemma string_app_assoc (a b c : string) :
  ((a ++ b) ++ c)%string = (a ++ (b ++ c))%string.
Proof. induction a as [|x a IH]; cbn; [reflexivity | now rewrite IH]. Qed.

Lemma text_of_app (l l' : list string) :
  text_of (l ++ l') = (text_of l ++ text_of l')%string.
Proof.
  induction l as [|a l IH]; cbn; [reflexivity|].
  fold (text_of (l ++ l')). fold (text_of l).
  now rewrite IH, string_app_assoc.
Qed.

Lemma is_prefix_of_trans (t u v : string) :
  is_prefix_of t u -> is_prefix_of u v -> is_prefix_of t v.
Proof.
  intros (r1 & <-) (r2 & <-). exists (r1 ++ r2)%string.
  now rewrite string_app_assoc.
Qed.

Lemma text_of_firstn_prefix (k : nat) (lines : list string) :
  is_prefix_of (text_of (firstn k lines)) (text_of lines).
Proof.
  exists (text_of (skipn k lines)).
  now rewrite <- text_of_app, firstn_skipn.
Qed.

Lemma substring_all (l : string) : substring 0 (String.length l) l = l.
Proof. induction l as [|c l IH]; cbn; [reflexivity | now rewrite IH]. Qed.

Lemma substring_split (n : nat) (l : string) :
  (substring 0 n l ++ substring n (String.length l - n) l)%string = l.
Proof.
  revert n. induction l as [|c l IH]; intros [|n]; cbn; try reflexivity.
  - now rewrite substring_all.
  - f_equal. apply IH.
Qed.

(** What has reached the file is the beginning of the text handed over. *)
Lemma text_prefix_is_prefix (n : nat) (lines : list string) :
  is_prefix_of (text_of (text_prefix n lines)) (text_of lines).
Proof.
  revert n. induction lines as [|l ls IH]; intros n.
  - exists EmptyString. reflexivity.
  - destruct n as [|n]; cbn [text_prefix].
    + exists (text_of (l :: ls)). reflexivity.
    + destruct (S n <? String.length l)%nat.
      * exists (substring (S n) (String.length l - S n) l ++ text_of ls)%string.
        change (text_of [substring 0 (S n) l])
          with (substring 0 (S n) l ++ EmptyString)%string.
        change (text_of (l :: ls)) with (l ++ text_of ls)%string.
        rewrite !string_app_assoc. cbn [append].
        now rewrite <- string_app_assoc, substring_split.
      * destruct (IH (S n - String.length l)%nat) as (rest & Hrest).
        exists rest.
        change (text_of (l :: ls)) with (l ++ text_of ls)%string.
        change (text_of (l :: text_prefix (S n - String.length l) ls))
          with (l ++ text_of (text_prefix (S n - String.length l) ls))%string.
        now rewrite string_app_assoc, Hrest.
Qed.

(** When the destination could be resolved, the bookkeeping after the
    write cannot raise. *)
Lemma resolve_row_ok (fs : FileSystem) (s : Session) (img p : Path) :
  resolve_save_path fs s img = Ok p ->
  last_selected_row s < len (image_list_data s).
Proof.
  unfold resolve_save_path. destruct (with_suffix_txt img); [|discriminate].
  cbn [bind]. destruct (Z.leb_spec 0 (last_selected_row s)) as [Hr | Hr].
  - unfold py_getitem.
    destruct (last_selected_row s <? 0) eqn:E; [lia|].
    destruct ((0 <=? last_selected_row s) &&
              (last_selected_row s <? len (image_list_data s))) eqn:E';
      [lia | discriminate].
  - intros _. unfold len. lia.
Qed.

(** The [try] of [save_annotation] when the file could be opened, the loop
    ended without exception and the device did not fail: the destination
    holds the lines, the modified flag is cleared, no message is shown. *)
Lemma save_try_success (fault : Fault) (fs : FileSystem) (s : Session)
    (p : Path) (lines : list string) (r : option nat) :
  last_selected_row s < len (image_list_data s) ->
  open_w fault fs p = Ok (fs_write p [] fs) ->
  write_boxes (io_budget fault) (boxes s) (img_width s) (img_height s) []
  = (lines, r, None) ->
  r <> Some O ->
  exists s',
    save_try fault fs s p = (fs_write p lines (fs_write p [] fs), s', None) /\
    is_modified s' = false /\
    dialogs (ui s') = dialogs (ui s).
Proof.
  intros Hrow Hopen Hw Hr. unfold save_try. rewrite Hopen, Hw.
  assert (E : match r with Some O => true | _ => false end = false)
    by (destruct r as [[|r]|]; congruence).
  rewrite E.
  cbn [last_selected_row set_is_modified upd_ui set_ui image_list_data boxes].
  destruct (Z.leb_spec 0 (last_selected_row s)) as [Hr0 | Hr0].
  - rewrite py_update_ok by lia. cbn [bind].
    rewrite py_update_ok by (rewrite len_list_update; lia). cbn [bind].
    unfold update_image_list_ui_item.
    cbn [image_list_data set_image_list_data].
    match goal with |- context [py_getitem ?l ?i] =>
      destruct (py_getitem_ok l i) as [a ->]
    end.
    { rewrite !len_list_update. lia. }
    cbn [bind]. eexists. repeat split.
  - eexists. repeat split.
Qed.

Lemma open_w_ok (fault : Fault) (fs fs0 : FileSystem) (p : Path) :
  open_w fault fs p = Ok fs0 -> fs0 = fs_write p [] fs.
Proof.
  unfold open_w. destruct fault as [[[|k] m]|]; try discriminate;
    destruct (dirs fs (parent p)); congruence.
Qed.

(** The two ways the [try] of [save_annotation] can end: with an
    exception and the session untouched; or normally, the destination
    holding the complete file and the modified flag cleared. *)
Lemma save_try_cases (fault : Fault) (fs : FileSystem) (s : Session) (p : Path) :
  last_selected_row s < len (image_list_data s) ->
  exists fs' s' err,
    save_try fault fs s p = (fs', s', err) /\
    match err with
    | Some e => s' = s
    | None =>
        is_modified s' = false /\
        dialogs (ui s') = dialogs (ui s) /\
        exists lines,
          encode_all (boxes s) (img_width s) (img_height s) = Ok lines /\
          fs' = fs_write p lines (fs_write p [] fs)
    end.
Proof.
  intros Hrow.
  destruct (open_w fault fs p) as [fs0|e] eqn:Hopen.
  2:{ exists fs, s, (Some e). unfold save_try. rewrite Hopen.
      split; reflexivity. }
  pose proof (open_w_ok _ _ _ _ Hopen) as ->.
  destruct (write_boxes (io_budget fault) (boxes s) (img_width s)
              (img_height s) []) as [[written remaining] err] eqn:Hw.
  assert (Hfail : remaining = Some O \/ err <> None ->
            exists fs' e, save_try fault fs s p = (fs', s, Some e)).
  { intros H. unfold save_try. rewrite Hopen, Hw.
    destruct remaining as [[|r]|]; [eauto| |];
      (destruct H as [H | H]; [discriminate H|]);
      (destruct err as [e|]; [eauto | contradiction]). }
  destruct remaining as [[|r]|].
  - destruct Hfail as (fs' & e & ->); [now left|].
    exists fs', s, (Some e). split; reflexivity.
  - destruct err as [e|].
    + destruct Hfail as (fs' & e' & ->); [right; discriminate|].
      exists fs', s, (Some e'). split; reflexivity.
    + pose proof (write_boxes_complete _ _ _ _ _ _ _ Hw) as (lines & Henc & E).
      cbn [app] in E. subst written.
      destruct (save_try_success fault fs s p lines (Some (S r)) Hrow Hopen Hw)
        as (s' & -> & Hm & Hd); [discriminate|].
      eexists _, s', None. split; [reflexivity|].
      split; [exact Hm|]. split; [exact Hd|]. now exists lines.
  - destruct err as [e|].
    + destruct Hfail as (fs' & e' & ->); [right; discriminate|].
      exists fs', s, (Some e'). split; reflexivity.
    + pose proof (write_boxes_complete _ _ _ _ _ _ _ Hw) as (lines & Henc & E).
      cbn [app] in E. subst written.
      destruct (save_try_success fault fs s p lines None Hrow Hopen Hw)
        as (s' & -> & Hm & Hd); [discriminate|].
      eexists _, s', None. split; [reflexivity|].
      split; [exact Hm|]. split; [exact Hd|]. now exists lines.
Qed.

(** A save whose boxes can all be encoded, on a device that fails in a
    [write] or in the closing of the file: the destination holds what had
    reached it, and the session is untouched. *)
Lemma save_try_device_failed (fs : FileSystem) (s : Session) (p : Path)
    (lines : list string) (k m : nat) :
  dirs fs (parent p) = true ->
  encode_all (boxes s) (img_width s) (img_height s) = Ok lines ->
  (k <= List.length lines)%nat ->
  save_try (Some (S k, m)) fs s p
  = (fs_write p (text_prefix m (firstn (S k) lines)) (fs_write p [] fs), s,
     Some OSError).
Proof.
  intros Hdir Henc Hk. unfold save_try, open_w. rewrite Hdir.
  cbn [io_budget option_map fst Nat.pred flushed].
  rewrite (write_boxes_budget _ _ _ lines [] k Henc). cbn [app].
  destruct (k <? List.length lines)%nat eqn:E; [reflexivity|].
  apply Nat.ltb_ge in E.
  replace (k - List.length lines)%nat with O by lia.
  now rewrite firstn_all2 by lia.
Qed.

Lemma with_suffix_txt_ok (p : Path) :
  is_empty (path_name p) = false -> exists q, with_suffix_txt p = Ok q.
Proof. intros Hn. unfold with_suffix_txt. rewrite Hn. eauto. Qed.

(** The destination of a save can be resolved whenever the image path has
    a name and the selected row, if any, is a row of the image list. *)
Lemma resolve_save_path_ok (fs : FileSystem) (s : Session) (img : Path) :
  is_empty (path_name img) = false ->
  last_selected_row s < len (image_list_data s) ->
  exists p, resolve_save_path fs s img = Ok p.
Proof.
  intros Hn Hrow. unfold resolve_save_path.
  destruct (with_suffix_txt_ok img Hn) as (q & ->). cbn [bind].
  assert (Hrec : exists recorded,
            (if 0 <=? last_selected_row s
             then bind (py_getitem (image_list_data s) (last_selected_row s))
                       (fun d => Ok (txt_path d))
             else Ok None) = Ok recorded).
  { destruct (Z.leb_spec 0 (last_selected_row s)); [|eauto].
    destruct (py_getitem_ok (image_list_data s) (last_selected_row s))
      as (d & ->); [lia|]. cbn [bind]. eauto. }
  destruct Hrec as (recorded & ->). cbn [bind].
  destruct (negb (is_falsy_path recorded)); [eauto|].
  destruct (replace_last_images img); [|eauto].
  destruct (with_suffix_txt l); [|eauto].
  destruct (path_exists fs (parent a)); eauto.
Qed.

End SaveLemmas.

(** C8.  In a session whose image path has a name and whose selected
    row, if any, is a row of the image list (so that the destination can
    be resolved), a save ends in one of two ways.  Either it failed
    (opening the file, encoding a box, writing a line or closing the file
    raised): then the failure is shown in a message box and nothing else
    of the session changes, the modified flag included.  Or the write
    completed: the destination holds the line of every box, no message is
    shown, and only then is the modified flag cleared.  An I/O operation
    that is made to fail among those the save performs always leads to the
    first case. *)
Theorem save_failure_keeps_modified
    (fault : Fault) (fs : FileSystem) (s : Session) (img : Path) :
  current_image_path s = Some img ->
  is_empty (path_name img) = false ->
  (last_selected_row s < len (image_list_data s))%Z ->
  exists p fs' s',
    resolve_save_path fs s img = Ok p /\
    save_annotation fault fs s = Ok (fs', s') /\
    ((exists e,
        s' = show_message (SaveFailed e) s /\
        dialogs (ui s') = (dialogs (ui s) ++ [SaveFailed e])%list /\
        is_modified s' = is_modified s)
     \/
     (is_modified s' = false /\
      dialogs (ui s') = dialogs (ui s) /\
      exists lines,
        encode_all (boxes s) (img_width s) (img_height s) = Ok lines /\
        files fs' p = Some lines)) /\
    (forall k m, fault = Some (k, m) ->
       (k <= S (List.length (boxes s)))%nat ->
       exists e, s' = show_message (SaveFailed e) s).
Proof.
  intros Himg Hname Hrow.
  destruct (resolve_save_path_ok fs s img Hname Hrow) as (p & Hres).
  exists p.
  unfold save_annotation. rewrite Himg.
  destruct img as [|i0 img']; [discriminate Hname|]. cbn [is_falsy_path].
  rewrite Hres. cbn [bind].
  destruct (save_try_cases fault fs s p Hrow) as (fs' & s' & err & Htry & Hcase).
  rewrite Htry. destruct err as [e|].
  - subst s'.
    eexists _, _. split; [reflexivity|]. split; [reflexivity|]. split.
    + left. exists e. repeat split.
    + intros k m _ _. now exists e.
  - destruct Hcase as (Hm & Hd & lines & Henc & ->).
    eexists _, _. split; [reflexivity|]. split; [reflexivity|]. split.
    + right. split; [exact Hm|]. split; [exact Hd|].
      exists lines. split; [exact Henc|]. apply files_fs_write_same.
    + intros k m -> Hk. exfalso.
      unfold save_try in Htry.
      destruct k as [|k]; [discriminate Htry|].
      cbn [open_w io_budget option_map fst Nat.pred] in Htry.
      destruct (dirs fs (parent p)); [|discriminate Htry].
      destruct (write_boxes (Some k) (boxes s) (img_width s) (img_height s) [])
        as [[written remaining] err] eqn:Hw.
      destruct err as [e|].
      * destruct remaining as [[|r]|]; discriminate Htry.
      * apply write_boxes_remaining in Hw. destruct Hw as [-> Hlen].
        replace (k - List.length (boxes s))%nat with O in Htry by lia.
        discriminate Htry.
Qed.

Lemma save_failure_keeps_modified_witness :
  exists p fs' s',
    resolve_save_path (sample_fs [old_line]) modified_session sample_image
    = Ok p /\
    save_annotation (Some (1%nat, 0%nat)) (sample_fs [old_line])
                    modified_session
    = Ok (fs', s') /\
    ((exists e,
        s' = show_message (SaveFailed e) modified_session /\
        dialogs (ui s') =
        (dialogs (ui modified_session) ++ [SaveFailed e])%list /\
        is_modified s' = is_modified modified_session)
     \/
     (is_modified s' = false /\
      dialogs (ui s') = dialogs (ui modified_session) /\
      exists lines,
        encode_all (boxes modified_session) (img_width modified_session)
                   (img_height modified_session) = Ok lines /\
        files fs' p = Some lines)) /\
    (forall k m, Some (1%nat, 0%nat) = Some (k, m) ->
       (k <= S (List.length (boxes modified_session)))%nat ->
       exists e, s' = show_message (SaveFailed e) modified_session).
Proof.
  apply (save_failure_keeps_modified (Some (1%nat, 0%nat))
           (sample_fs [old_line]) modified_session sample_image).
  - reflexivity.
  - reflexivity.
  - vm_compute. reflexivity.
Defined.

(** C2 as stated fails: a save of two boxes over a label file that held
    one line, on a device that fails when the file is closed, before any
    of the buffered text has reached it.  [open] has emptied the file, and
    empty it stays: it holds neither its former content nor the new
    one. *)
Lemma save_not_atomic :
  ~ save_is_atomic (Some (3%nat, 0%nat)) (sample_fs [old_line])
      two_box_session.
Proof.
  intros H.
  assert (Hr : exists fs' s',
             save_annotation (Some (3%nat, 0%nat)) (sample_fs [old_line])
                             two_box_session = Ok (fs', s') /\
             files fs' sample_label = Some []).
  { vm_compute. eexists _, _. split; reflexivity. }
  destruct Hr as (fs' & s' & Hr & Hf).
  assert (Hres : resolve_save_path (sample_fs [old_line]) two_box_session
                   sample_image = Ok sample_label) by (vm_compute; reflexivity).
  assert (Henc : encode_all (boxes two_box_session) (img_width two_box_session)
                   (img_height two_box_session) = Ok [line1; line2])
    by (vm_compute; reflexivity).
  destruct (H sample_image sample_label [line1; line2] fs' s' eq_refl Hres Henc Hr)
    as [Ho | Hn]; rewrite Hf in *.
  - vm_compute in Ho. discriminate Ho.
  - discriminate Hn.
Qed.

(** C2, amended.  [save_annotation] opens the destination itself for
    writing, which empties it, and hands the line of each box in turn to
    the buffered file; no other file and no directory is created, renamed
    or changed.  When opening fails the destination keeps its content.
    When the device fails later, in a [write] or when the file is closed,
    the destination is left with the part of the new text that had
    reached it, which may be nothing and may end inside a line.  With no
    failure it holds the line of every box and the modified flag is
    cleared.  A failure does not leave [save_annotation] as an exception:
    it is shown in a message box and the session is otherwise
    unchanged. *)
Theorem save_writes_destination_in_place
    (fault : Fault) (fs : FileSystem) (s : Session) (img p : Path)
    (lines : list string) :
  current_image_path s = Some img ->
  img <> [] ->
  resolve_save_path fs s img = Ok p ->
  dirs fs (parent p) = true ->
  encode_all (boxes s) (img_width s) (img_height s) = Ok lines ->
  exists fs' s',
    save_annotation fault fs s = Ok (fs', s') /\
    (forall q, q <> p -> files fs' q = files fs q) /\
    (forall q, dirs fs' q = dirs fs q) /\
    match fault with
    | Some (O, _) =>
        files fs' p = files fs p /\ s' = show_message (SaveFailed OSError) s
    | Some (S k, m) =>
        if (k <=? List.length lines)%nat
        then exists content,
               files fs' p = Some content /\
               content = text_prefix m (firstn (S k) lines) /\
               is_prefix_of (text_of content) (text_of lines) /\
               s' = show_message (SaveFailed OSError) s
        else files fs' p = Some lines /\ is_modified s' = false
    | None => files fs' p = Some lines /\ is_modified s' = false
    end.
Proof.
  intros Himg Hne Hres Hdir Henc.
  pose proof (resolve_row_ok _ _ _ _ Hres) as Hrow.
  unfold save_annotation. rewrite Himg.
  destruct img as [|i0 img']; [contradiction|]. cbn [is_falsy_path].
  rewrite Hres. cbn [bind].
  assert (Hgood : forall fault',
            match fault' with
            | Some (O, _) => False
            | Some (S k, _) => (List.length lines < k)%nat
            | None => True
            end ->
            exists s',
              save_try fault' fs s p
              = (fs_write p lines (fs_write p [] fs), s', None) /\
              is_modified s' = false).
  { intros fault' Hf.
    assert (Hopen : open_w fault' fs p = Ok (fs_write p [] fs)).
    { unfold open_w. rewrite Hdir.
      destruct fault' as [[[|k] m]|]; [contradiction| |]; reflexivity. }
    assert (Hw : exists r,
              write_boxes (io_budget fault') (boxes s) (img_width s)
                (img_height s) [] = (lines, r, None) /\ r <> Some O).
    { destruct fault' as [[[|k] m]|]; [contradiction| |].
      - cbn [io_budget option_map fst Nat.pred].
        rewrite (write_boxes_budget _ _ _ lines [] k Henc).
        replace (k <? List.length lines)%nat with false
          by (symmetry; apply Nat.ltb_ge; lia).
        eexists. split; [reflexivity|].
        intros E. injection E as E. lia.
      - cbn [io_budget option_map].
        rewrite (write_boxes_all _ _ _ lines [] Henc). eexists.
        split; [reflexivity | discriminate]. }
    destruct Hw as (r & Hw & Hr).
    destruct (save_try_success fault' fs s p lines r Hrow Hopen Hw Hr)
      as (s' & E & Hm & _).
    exists s'. now split. }
  destruct fault as [[[|k] m]|].
  - unfold save_try, open_w.
    eexists _, _. split; [reflexivity|]. repeat split.
  - destruct (Nat.leb_spec k (List.length lines)) as [Hk | Hk].
    + rewrite (save_try_device_failed fs s p lines k m Hdir Henc Hk).
      eexists _, _. split; [reflexivity|].
      split; [intros q Hq; now rewrite !files_fs_write_other by assumption|].
      split; [reflexivity|].
      eexists. split; [apply files_fs_write_same|]. split; [reflexivity|].
      split; [|reflexivity].
      apply (is_prefix_of_trans _ (text_of (firstn (S k) lines)));
        [apply text_prefix_is_prefix | apply text_of_firstn_prefix].
    + destruct (Hgood (Some (S k, m)) Hk) as (s' & -> & Hm).
      eexists _, _. split; [reflexivity|].
      split; [intros q Hq; now rewrite !files_fs_write_other by assumption|].
      split; [reflexivity|].
      split; [apply files_fs_write_same | exact Hm].
  - destruct (Hgood None I) as (s' & -> & Hm).
    eexists _, _. split; [reflexivity|].
    split; [intros q Hq; now rewrite !files_fs_write_other by assumption|].
    split; [reflexivity|].
    split; [apply files_fs_write_same | exact Hm].
Qed.

Lemma save_writes_destination_in_place_witness :
  exists fs' s',
    save_annotation (Some (2%nat, 50%nat)) (sample_fs [old_line])
                    two_box_session
    = Ok (fs', s') /\
    (forall q, q <> sample_label ->
               files fs' q = files (sample_fs [old_line]) q) /\
    (forall q, dirs fs' q = dirs (sample_fs [old_line]) q) /\
    (if (1 <=? List.length [line1; line2])%nat
     then exists content,
            files fs' sample_label = Some content /\
            content = text_prefix 50 (firstn 2 [line1; line2]) /\
            is_prefix_of (text_of content) (text_of [line1; line2]) /\
            s' = show_message (SaveFailed OSError) two_box_session
     else files fs' sample_label = Some [line1; line2] /\
          is_modified s' = false).
Proof.
  apply (save_writes_destination_in_place (Some (2%nat, 50%nat))
           (sample_fs [old_line]) two_box_session sample_image sample_label
           [line1; line2]).
  - reflexivity.
  - discriminate.
  - vm_compute. reflexivity.
  - reflexivity.
  - vm_compute. reflexivity.
Defined.

(** ** The viewport transform *)

Section ViewportLemmas.

Local Open Scope Q_scope.

Lemma Qabs_lt_intro (q b : Q) : - b < q -> q < b -> Qabs q < b.
Proof. intros. apply Qabs_case; intros; lra. Qed.

Lemma inject_Z_le (a b : Z) : (a <= b)%Z -> inject_Z a <= inject_Z b.
Proof. now rewrite <- Zle_Qle. Qed.

Lemma inject_Z_sub (a b : Z) : inject_Z (a - b) == inject_Z a - inject_Z b.
Proof. unfold Z.sub. rewrite inject_Z_plus, inject_Z_opp. ring. Qed.

(** One axis of [screen_to_img] after [img_to_screen], at a scale of at
    least 1: the image coordinate comes back within one pixel. *)
Lemma round_trip_axis (s : Q) (o x : Z) :
  1 <= s -> s <= 50 ->
  (Z.abs o <= 2 ^ 31)%Z -> (0 <= x <= 2 ^ 31)%Z ->
  let sx := trunc (rnd64 (rnd64 (rnd64 (inject_Z x) * s)
                          + rnd64 (inject_Z o))) in
  let ix := trunc (rnd64 (rnd64 (inject_Z (sx - o)) / s)) in
  (x - 1 <= ix <= x + 1)%Z.
Proof.
  intros Hs1 Hs50 Ho Hx.
  assert (HX : 0 <= inject_Z x <= 2147483648).
  { change 0 with (inject_Z 0). change 2147483648 with (inject_Z (2 ^ 31)).
    split; apply inject_Z_le; lia. }
  assert (HO : -(2147483648) <= inject_Z o <= 2147483648).
  { change (-(2147483648)) with (inject_Z (- 2 ^ 31)).
    change 2147483648 with (inject_Z (2 ^ 31)).
    split; apply inject_Z_le; lia. }
  assert (P53 : 2 ^ 53 == 9007199254740992) by reflexivity.
  pose proof (rnd64_int x ltac:(lia)) as Ex.
  pose proof (rnd64_int o ltac:(lia)) as Eo.
  set (x' := rnd64 (inject_Z x)) in *. set (o' := rnd64 (inject_Z o)) in *.
  (* the product x * s between its floor and its ceiling *)
  pose proof (Qfloor_le (inject_Z x * s)) as HMl.
  pose proof (Qlt_floor (inject_Z x * s)) as HMu.
  pose proof (Qle_ceiling (inject_Z x * s)) as HCl.
  pose proof (Qceiling_lt (inject_Z x * s)) as HCu.
  set (M := Qfloor (inject_Z x * s)) in *.
  set (C := Qceiling (inject_Z x * s)) in *.
  rewrite inject_Z_plus in HMu. rewrite inject_Z_sub in HCu.
  change (inject_Z 1) with 1 in HMu, HCu.
  assert (Hxs : inject_Z x * s <= 107374182400) by nra.
  assert (Hxs0 : inject_Z x <= inject_Z x * s) by nra.
  assert (Hq1 : x' * s == inject_Z x * s) by (rewrite Ex; reflexivity).
  assert (Ha2l : inject_Z M <= rnd64 (x' * s)).
  { apply rnd64_ge_int; [apply Qabs_lt_intro; lra | lra]. }
  assert (Ha2u : rnd64 (x' * s) <= inject_Z C).
  { apply rnd64_le_int; [apply Qabs_lt_intro; lra | lra]. }
  set (a2 := rnd64 (x' * s)) in *.
  assert (Ha3l : inject_Z (M + o) <= rnd64 (a2 + o')).
  { apply rnd64_ge_int; [apply Qabs_lt_intro; lra | rewrite inject_Z_plus; lra]. }
  assert (Ha3u : rnd64 (a2 + o') <= inject_Z (C + o)).
  { apply rnd64_le_int; [apply Qabs_lt_intro; lra | rewrite inject_Z_plus; lra]. }
  set (a3 := rnd64 (a2 + o')) in *.
  apply trunc_ge_int in Ha3l. apply trunc_le_int in Ha3u.
  cbv zeta. fold x' o' a2 a3.
  set (k := (trunc a3 - o)%Z).
  assert (Hk : (M <= k <= C)%Z) by (unfold k; lia).
  assert (HK : inject_Z M <= inject_Z k <= inject_Z C)
    by (split; apply inject_Z_le; lia).
  assert (HK53 : (Z.abs k < 2 ^ 53)%Z).
  { assert (inject_Z (Z.abs k) < inject_Z (2 ^ 53)); [|now rewrite Zlt_Qlt].
    change (inject_Z (Z.abs k)) with (Qabs (inject_Z k)).
    change (inject_Z (2 ^ 53)) with 9007199254740992.
    apply Qabs_lt_intro; lra. }
  pose proof (rnd64_int k HK53) as Ek.
  set (k' := rnd64 (inject_Z k)) in *.
  assert (Hs0 : 0 < s) by lra.
  assert (Hq3l : inject_Z (x - 1) <= k' / s).
  { rewrite inject_Z_sub. change (inject_Z 1) with 1.
    apply Qle_shift_div_l; [assumption|]. rewrite Ek. nra. }
  assert (Hq3u : k' / s <= inject_Z (x + 1)).
  { rewrite inject_Z_plus. change (inject_Z 1) with 1.
    apply Qle_shift_div_r; [assumption|]. rewrite Ek. nra. }
  assert (Hq3 : Qabs (k' / s) < 2 ^ 53).
  { rewrite inject_Z_sub in Hq3l. rewrite inject_Z_plus in Hq3u.
    change (inject_Z 1) with 1 in Hq3l, Hq3u.
    apply Qabs_lt_intro; lra. }
  pose proof (rnd64_ge_int _ _ Hq3 Hq3l) as Hl.
  pose proof (rnd64_le_int _ _ Hq3 Hq3u) as Hu.
  apply trunc_ge_int in Hl. apply trunc_le_int in Hu. lia.
Qed.

End ViewportLemmas.

(** C5 as stated fails below scale 1: at scale 1/4 with no offset the
    image point (7, 7) is drawn at the screen pixel (1, 1), which maps back
    to (4, 4). *)
Lemma round_trip_fails_at_quarter_scale :
  ~ round_trip_within_1 quarter_view 7 7.
Proof.
  intros (ix & iy & H & Hx & _).
  vm_compute in H. injection H as <- <-. vm_compute in Hx. apply Hx. reflexivity.
Qed.

(** C5, amended.  For every viewport state with a scale from 1 to 50 and
    offsets of at most [2^31] in absolute value, and every point with
    integer coordinates from 0 to [2^31], [screen_to_img] of
    [img_to_screen] of the point returns the point within one pixel per
    coordinate. *)
Theorem screen_img_round_trip (v : View) (x y : Z) :
  (1 <= scale_factor v)%Q -> (scale_factor v <= 50)%Q ->
  (Z.abs (fst (offset v)) <= 2 ^ 31)%Z ->
  (Z.abs (snd (offset v)) <= 2 ^ 31)%Z ->
  (0 <= x <= 2 ^ 31)%Z -> (0 <= y <= 2 ^ 31)%Z ->
  round_trip_within_1 v x y.
Proof.
  intros Hs1 Hs50 Hox Hoy Hx Hy.
  unfold round_trip_within_1.
  rewrite screen_to_img_ok by lra.
  eexists _, _. split; [reflexivity|].
  pose proof (round_trip_axis _ _ _ Hs1 Hs50 Hox Hx) as Ax.
  pose proof (round_trip_axis _ _ _ Hs1 Hs50 Hoy Hy) as Ay.
  cbv zeta in Ax, Ay.
  cbn [img_to_screen fst snd py_mul py_add py_sub py_int to_float].
  lia.
Qed.

Lemma screen_img_round_trip_witness : round_trip_within_1 zoomed_view 333 777.
Proof.
  apply screen_img_round_trip.
  - vm_compute. discriminate.
  - vm_compute. discriminate.
  - vm_compute. discriminate.
  - vm_compute. discriminate.
  - split; vm_compute; discriminate.
  - split; vm_compute; discriminate.
Defined.

Section ZoomLemmas.

Local Open Scope Q_scope.

Lemma tiny_le : 2 ^ (-1022) <= 1 # 1000000.
Proof. vm_compute. discriminate. Qed.

(** The error of one rounding, for operands of everyday size. *)
Lemma rnd64_err_le (q B : Q) :
  Qabs q <= B -> (1 # 1000000) <= B -> Qabs (rnd64 q - q) <= B * u64.
Proof.
  intros HB Ht. apply rnd64_err; [assumption|].
  eapply Qle_trans; [apply tiny_le | assumption].
Qed.

Lemma Qabs_le_iff (q b : Q) : Qabs q <= b <-> - b <= q <= b.
Proof. apply Qabs_Qle_condition. Qed.

Lemma rnd64_near (q B : Q) :
  - B <= q <= B -> (1 # 1000000) <= B ->
  - (B * u64) <= rnd64 q - q <= B * u64.
Proof.
  intros HB Ht. apply Qabs_le_iff. apply rnd64_err_le; [|assumption].
  now apply Qabs_le_iff.
Qed.

(** Error of a product of two approximations. *)
Lemma prod_err (a a0 b b0 ea eb A B : Q) :
  - ea <= a - a0 <= ea -> - eb <= b - b0 <= eb ->
  - A <= a0 <= A -> - B <= b <= B ->
  - (ea * B + A * eb) <= a * b - a0 * b0 <= ea * B + A * eb.
Proof.
  intros Ha Hb HA HB.
  assert (E : a * b - a0 * b0 == (a - a0) * b + a0 * (b - b0)) by ring.
  rewrite E. split; nra.
Qed.

(** One axis of the zoom step: the image point under the cursor
    coordinate [m] is drawn, after the step, less than one pixel and a
    rounding residue away from [m]. *)
Lemma zoom_axis (s s' m : Q) (o : Z) :
  0 < s -> 0 < s' -> s' <= (6 # 5) * s ->
  - (2147483648) <= m <= 2147483648 ->
  (Z.abs o <= 2 ^ 31)%Z ->
  let o' := trunc (rnd64 (m - rnd64 (rnd64 (m - rnd64 (inject_Z o))
                                     * rnd64 (s' / s)))) in
  Qabs (screen_coord s' o' (img_coord s o m) - m) < 1 + (1 # 100000).
Proof.
  intros Hs Hs' Hratio Hm Ho.
  assert (HO : -(2147483648) <= inject_Z o <= 2147483648).
  { change (-(2147483648)) with (inject_Z (- 2 ^ 31)).
    change 2147483648 with (inject_Z (2 ^ 31)).
    split; apply inject_Z_le; lia. }
  pose proof (rnd64_int o ltac:(lia)) as Eo.
  set (oq := inject_Z o) in *. set (ofl := rnd64 oq) in *.
  (* the ratio of the scales *)
  set (r0 := s' / s).
  assert (Hr0 : 0 < r0 <= 6 # 5).
  { unfold r0. split.
    - apply Qlt_shift_div_l; lra.
    - apply Qle_shift_div_r; lra. }
  pose proof (rnd64_near r0 (6 # 5) ltac:(lra) ltac:(lra)) as Hr.
  set (r := rnd64 r0) in *.
  (* the vector from the offset to the cursor *)
  set (d0 := m - oq).
  assert (Hd0 : m - ofl == d0) by (unfold d0; rewrite Eo; reflexivity).
  pose proof (rnd64_near (m - ofl) 4294967296 ltac:(lra) ltac:(lra)) as Hv.
  set (v := rnd64 (m - ofl)) in *.
  (* their product *)
  unfold u64 in *.
  assert (Hvr : - (5 * 2147483648 * (1 # 9007199254740992)) <= v * r - d0 * r0
                <= 5 * 2147483648 * (1 # 9007199254740992)).
  { pose proof (prod_err v d0 r r0
                  (4294967296 * (1 # 9007199254740992))
                  ((6 # 5) * (1 # 9007199254740992))
                  4294967296 (13 # 10)
                  ltac:(lra) ltac:(lra) ltac:(unfold d0; lra) ltac:(lra)) as P.
    lra. }
  assert (Hd0r0 : - ((12 # 5) * 2147483648) <= d0 * r0 <= (12 # 5) * 2147483648).
  { assert (- (4294967296) <= d0 <= 4294967296) by (unfold d0; lra).
    split; nra. }
  pose proof (rnd64_near (v * r) (3 * 2147483648) ltac:(lra) ltac:(lra)) as Hpr.
  unfold u64 in Hpr. set (pr := rnd64 (v * r)) in *.
  pose proof (rnd64_near (m - pr) (5 * 2147483648) ltac:(lra) ltac:(lra)) as HF.
  unfold u64 in HF. set (F := rnd64 (m - pr)) in *.
  pose proof (trunc_err F) as Ht. apply Qabs_Qlt_condition in Ht.
  cbv zeta. fold oq ofl v r pr F.
  unfold screen_coord, img_coord. fold oq d0.
  assert (E : d0 / s * s' + inject_Z (trunc F) - m
              == (inject_Z (trunc F) - F) + (F - (m - pr)) - (pr - v * r)
                 - (v * r - d0 * r0)).
  { unfold r0. field. lra. }
  rewrite E. apply Qabs_Qlt_condition. lra.
Qed.

(** One axis of the zoom step: for a cursor coordinate and an offset of
    at most [2^29] in absolute value, the new offset is a C int. *)
Lemma zoom_axis_fits (s s' m : Q) (o : Z) :
  0 < s -> 0 < s' -> s' <= (6 # 5) * s ->
  - (536870912) <= m <= 536870912 ->
  (Z.abs o <= 2 ^ 29)%Z ->
  fits_int (trunc (rnd64 (m - rnd64 (rnd64 (m - rnd64 (inject_Z o))
                                     * rnd64 (s' / s))))) = true.
Proof.
  intros Hs Hs' Hratio Hm Ho.
  assert (HO : -(536870912) <= inject_Z o <= 536870912).
  { change (-(536870912)) with (inject_Z (- 2 ^ 29)).
    change 536870912 with (inject_Z (2 ^ 29)).
    split; apply inject_Z_le; lia. }
  pose proof (rnd64_int o ltac:(lia)) as Eo.
  set (oq := inject_Z o) in *. set (ofl := rnd64 oq) in *.
  set (r0 := s' / s).
  assert (Hr0 : 0 < r0 <= 6 # 5).
  { unfold r0. split.
    - apply Qlt_shift_div_l; lra.
    - apply Qle_shift_div_r; lra. }
  pose proof (rnd64_near r0 (6 # 5) ltac:(lra) ltac:(lra)) as Hr.
  set (r := rnd64 r0) in *.
  pose proof (rnd64_near (m - ofl) 1073741824 ltac:(lra) ltac:(lra)) as Hv.
  set (v := rnd64 (m - ofl)) in *.
  unfold u64 in *.
  assert (Hr' : - (121 # 100) <= r <= 121 # 100) by lra.
  assert (Hv' : - (1073741825) <= v <= 1073741825) by lra.
  assert (Hvr : - (1300000000) <= v * r <= 1300000000) by (split; nra).
  pose proof (rnd64_near (v * r) 1300000000 Hvr ltac:(lra)) as Hpr.
  unfold u64 in Hpr. set (pr := rnd64 (v * r)) in *.
  pose proof (rnd64_near (m - pr) 1900000000 ltac:(lra) ltac:(lra)) as HF.
  unfold u64 in HF. set (F := rnd64 (m - pr)) in *.
  assert (HFl : inject_Z (- 2 ^ 31) <= F).
  { change (inject_Z (- 2 ^ 31)) with (- (2147483648)). lra. }
  assert (HFu : F <= inject_Z (2 ^ 31 - 1)).
  { change (inject_Z (2 ^ 31 - 1)) with 2147483647. lra. }
  apply trunc_ge_int in HFl. apply trunc_le_int in HFu.
  unfold fits_int. apply andb_true_intro.
  split; [apply Z.leb_le | apply Z.ltb_lt]; lia.
Qed.

End ZoomLemmas.

Section WheelLemmas.

Local Open Scope Q_scope.

Lemma f_0_01_bounds : (1 # 100) <= f_0_01 /\ f_0_01 <= 1 # 99.
Proof. split; vm_compute; discriminate. Qed.

Lemma f_1_1_bounds : 1 <= f_1_1 /\ f_1_1 <= 111 # 100.
Proof. split; vm_compute; discriminate. Qed.

Lemma f_0_9_bounds : (89 # 100) <= f_0_9 /\ f_0_9 <= 1.
Proof. split; vm_compute; discriminate. Qed.

Lemma fmax_spec (a b : Q) :
  a <= fmax a b /\ b <= fmax a b /\ (fmax a b = a \/ fmax a b = b).
Proof.
  unfold fmax. destruct (Qle_bool b a) eqn:E.
  - apply Qle_bool_iff in E. repeat split; try lra. now left.
  - assert (~ b <= a) by (intros H; apply Qle_bool_iff in H; congruence).
    repeat split; try lra. now right.
Qed.

Lemma fmin_spec (a b : Q) :
  fmin a b <= a /\ fmin a b <= b /\ (fmin a b = a \/ fmin a b = b).
Proof.
  unfold fmin. destruct (Qle_bool a b) eqn:E.
  - apply Qle_bool_iff in E. repeat split; try lra. now left.
  - assert (~ a <= b) by (intros H; apply Qle_bool_iff in H; congruence).
    repeat split; try lra. now right.
Qed.

(** The scale after a wheel step stays in the clamp range and grows by
    less than a fifth. *)
Lemma wheel_scale_bounds (s rate : Q) :
  f_0_01 <= s -> s <= f_50 -> 0 <= rate -> rate <= 111 # 100 ->
  let s' := fmax f_0_01 (fmin (rnd64 (s * rate)) f_50) in
  f_0_01 <= s' /\ s' <= f_50 /\ 0 < s' /\ s' <= (6 # 5) * s.
Proof.
  intros Hlo Hhi Hr0 Hr1. cbv zeta.
  pose proof f_0_01_bounds as [Ha Hb]. unfold f_50 in *.
  assert (Hsr : - (56) <= s * rate <= 56) by (split; nra).
  pose proof (rnd64_near (s * rate) 56 Hsr ltac:(lra)) as He. unfold u64 in He.
  set (s1 := rnd64 (s * rate)) in *.
  destruct (fmin_spec s1 50) as (Hm1 & Hm2 & _).
  destruct (fmax_spec f_0_01 (fmin s1 50)) as (Hx1 & Hx2 & [E | E]);
    rewrite E in *.
  - repeat split; lra.
  - assert (Hsr' : s * rate <= (111 # 100) * s).
    { rewrite (Qmult_comm s rate). apply Qmult_le_compat_r; lra. }
    repeat split; lra.
Qed.

End WheelLemmas.

(** C3 as stated fails: a wheel step down at the cursor (9, 9), in the
    view at scale 1 with no offset, sets the scale to the float 0.9 and the
    offset to (0, 0); the image point (9, 9) that was under the cursor is
    then at the screen position (8.1, 8.1), and [img_to_screen] draws it at
    the pixel (8, 8). *)
Lemma wheel_zoom_moves_anchor :
  ~ anchor_kept (-120) (9, 9)%Q sample_session /\
  exists s',
    on_wheel_event (-120) (9, 9)%Q sample_session = (s', None) /\
    screen_to_img (view sample_session) (PyFloat 9) (PyFloat 9) = Ok (9, 9)%Z /\
    img_to_screen (view s') (PyInt 9) (PyInt 9) = (8, 8)%Z.
Proof.
  split.
  - intros (s' & H & Hx & _).
    vm_compute in H. injection H as <-. vm_compute in Hx. discriminate Hx.
  - eexists. split; [vm_compute; reflexivity|]. split; vm_compute; reflexivity.
Qed.

(** C3, amended.  For every session showing an image whose scale lies in
    the clamp range, with cursor coordinates and offsets of at most [2^29]
    in absolute value, a wheel step changes the view only.  The new scale
    is the product of the scale and the zoom rate, clamped into the range.
    Each coordinate of the new offset is the truncation of [cursor -
    (cursor - offset) * (new_scale / scale)] computed in floating point;
    it is a C int, so that the handler ends without exception.  The image
    point that was under the cursor is then drawn less than [1 +
    1/100000] pixel away from the cursor, along each axis. *)
Theorem wheel_zoom_keeps_anchor_within_a_pixel
    (angle : Z) (mx my : Q) (s : Session) :
  has_pixmap s = true ->
  (f_0_01 <= scale_factor (view s))%Q -> (scale_factor (view s) <= f_50)%Q ->
  (- (536870912) <= mx <= 536870912)%Q ->
  (- (536870912) <= my <= 536870912)%Q ->
  (Z.abs (fst (offset (view s))) <= 2 ^ 29)%Z ->
  (Z.abs (snd (offset (view s))) <= 2 ^ 29)%Z ->
  let scale := scale_factor (view s) in
  let rate := if (0 <? angle)%Z then f_1_1 else f_0_9 in
  let scale' :=
    fmax f_0_01 (fmin (to_float (py_mul (PyFloat scale) (PyFloat rate))) f_50) in
  let ratio := PyFloat (rnd64 (scale' / scale)) in
  let offset' (m : Q) (o : Z) :=
    py_int (py_sub (PyFloat m) (py_mul (py_sub (PyFloat m) (PyInt o)) ratio)) in
  let s' :=
    set_view {| scale_factor := scale';
                offset := (offset' mx (fst (offset (view s))),
                           offset' my (snd (offset (view s)))) |} s in
  on_wheel_event angle (mx, my) s = (s', None) /\
  py_truediv (PyFloat scale') (PyFloat scale) = Ok ratio /\
  (f_0_01 <= scale')%Q /\ (scale' <= f_50)%Q /\
  fits_int (fst (offset (view s'))) = true /\
  fits_int (snd (offset (view s'))) = true /\
  (Qabs (fst (anchor_drift s s' (mx, my))) < 1 + (1 # 100000))%Q /\
  (Qabs (snd (anchor_drift s s' (mx, my))) < 1 + (1 # 100000))%Q.
Proof.
  intros Hpix Hlo Hhi Hmx Hmy Hox Hoy. cbv zeta.
  cbn [view set_view scale_factor offset fst snd to_float py_mul py_sub
       py_int anchor_drift].
  set (scale := scale_factor (view s)) in *.
  set (rate := if (0 <? angle)%Z then f_1_1 else f_0_9).
  set (scale' := fmax f_0_01 (fmin (rnd64 (scale * rate)) f_50)).
  pose proof f_0_01_bounds as [Ha _].
  assert (Hs0 : (0 < scale)%Q) by lra.
  assert (Hrate : (0 <= rate <= 111 # 100)%Q).
  { pose proof f_1_1_bounds. pose proof f_0_9_bounds.
    unfold rate. destruct (0 <? angle)%Z; lra. }
  destruct (wheel_scale_bounds _ _ Hlo Hhi (proj1 Hrate) (proj2 Hrate))
    as (Hlo' & Hhi' & Hs0' & Hratio).
  fold scale' in Hlo', Hhi', Hs0', Hratio.
  assert (Hdiv : py_truediv (PyFloat scale') (PyFloat scale)
                 = Ok (PyFloat (rnd64 (scale' / scale)))).
  { apply py_truediv_float. lra. }
  pose proof (zoom_axis_fits scale scale' mx (fst (offset (view s)))
                Hs0 Hs0' Hratio Hmx Hox) as Hfx.
  pose proof (zoom_axis_fits scale scale' my (snd (offset (view s)))
                Hs0 Hs0' Hratio Hmy Hoy) as Hfy.
  assert (Hmx' : (- (2147483648) <= mx <= 2147483648)%Q) by lra.
  assert (Hmy' : (- (2147483648) <= my <= 2147483648)%Q) by lra.
  assert (Hox' : (Z.abs (fst (offset (view s))) <= 2 ^ 31)%Z) by lia.
  assert (Hoy' : (Z.abs (snd (offset (view s))) <= 2 ^ 31)%Z) by lia.
  pose proof (zoom_axis scale scale' mx (fst (offset (view s)))
                Hs0 Hs0' Hratio Hmx' Hox') as Hdx.
  pose proof (zoom_axis scale scale' my (snd (offset (view s)))
                Hs0 Hs0' Hratio Hmy' Hoy') as Hdy.
  cbv zeta in Hdx, Hdy.
  split; [|split; [exact Hdiv|]].
  - unfold on_wheel_event. rewrite Hpix. cbn [negb].
    fold scale. destruct (offset (view s)) as [ox oy].
    cbn [fst snd to_float py_mul] in *. fold rate. fold scale'.
    rewrite Hdiv. cbn [py_int py_sub py_mul to_float].
    rewrite Hfx. cbn [negb]. rewrite Hfy. cbn [negb]. reflexivity.
  - split; [exact Hlo'|]. split; [exact Hhi'|].
    split; [exact Hfx|]. split; [exact Hfy|].
    split; [exact Hdx | exact Hdy].
Qed.

Lemma wheel_zoom_keeps_anchor_within_a_pixel_witness :
  exists s',
    on_wheel_event (-120) (9, 9)%Q sample_session = (s', None) /\
    scale_factor (view s') = f_0_9 /\
    offset (view s') = (0, 0)%Z /\
    (Qabs (fst (anchor_drift sample_session s' (9, 9)%Q)) < 1 + (1 # 100000))%Q /\
    (Qabs (snd (anchor_drift sample_session s' (9, 9)%Q)) < 1 + (1 # 100000))%Q.
Proof.
  destruct (wheel_zoom_keeps_anchor_within_a_pixel (-120) 9 9 sample_session)
    as (H & _ & _ & _ & _ & _ & Hx & Hy).
  - reflexivity.
  - vm_compute. discriminate.
  - vm_compute. discriminate.
  - split; vm_compute; discriminate.
  - split; vm_compute; discriminate.
  - vm_compute. discriminate.
  - vm_compute. discriminate.
  - eexists. split; [exact H|].
    split; [vm_compute; reflexivity|]. split; [vm_compute; reflexivity|].
    split; [exact Hx | exact Hy].
Defined.

(** ** The label codec *)

Section CodecNumerics.

Local Open Scope Q_scope.

Lemma dim_bounds (W : Z) :
  (1 <= W <= 2 ^ 20)%Z -> 1 <= inject_Z W <= 1048576.
Proof.
  intros HW. change 1 with (inject_Z 1). change 1048576 with (inject_Z (2 ^ 20)).
  split; apply inject_Z_le; lia.
Qed.

(** What [save_annotation] computes for one axis of a box with the
    corners [a < b] in an image of size [W]: the centre and the size, each
    within a few units of roundoff of the exact quotient, and not
    negative. *)
Lemma encode_axis (W a b : Z) :
  (1 <= W <= 2 ^ 20)%Z -> (0 <= a)%Z -> (a < b)%Z -> (b <= W)%Z ->
  let Wf := rnd64 (inject_Z W) in
  let c := rnd64 (rnd64 (rnd64 (inject_Z (a + b)) / f_2) / Wf) in
  let w := rnd64 (rnd64 (inject_Z (b - a)) / Wf) in
  (0 <= c <= 3 # 2) /\ (0 <= w <= 3 # 2) /\
  - (3 * u64) <= c - inject_Z (a + b) / (2 * inject_Z W) <= 3 * u64 /\
  - (3 * u64) <= w - inject_Z (b - a) / inject_Z W <= 3 * u64.
Proof.
  intros HW Ha Hab Hb. cbv zeta. unfold f_2, u64.
  pose proof (dim_bounds W HW) as HWq.
  pose proof (rnd64_int W ltac:(lia)) as EW.
  pose proof (rnd64_int (a + b) ltac:(lia)) as ES.
  pose proof (rnd64_int (b - a) ltac:(lia)) as ED.
  set (Wq := inject_Z W) in *. set (Wf := rnd64 Wq) in *.
  assert (HS : 1 <= inject_Z (a + b) <= 2 * Wq).
  { unfold Wq. change 1 with (inject_Z 1). change 2 with (inject_Z 2).
    rewrite <- inject_Z_mult. split; apply inject_Z_le; lia. }
  assert (HD : 1 <= inject_Z (b - a) <= Wq).
  { unfold Wq. change 1 with (inject_Z 1). split; apply inject_Z_le; lia. }
  set (Sq := inject_Z (a + b)) in *. set (Sf := rnd64 Sq) in *.
  set (Dq := inject_Z (b - a)) in *. set (Df := rnd64 Dq) in *.
  (* the exact quotients *)
  set (C := Sq / (2 * Wq)). set (Wd := Dq / Wq).
  assert (EC : C * Wq * 2 == Sq) by (unfold C; field; lra).
  assert (EWd : Wd * Wq == Dq) by (unfold Wd; field; lra).
  assert (HC : 0 <= C <= 1) by (split; nra).
  assert (HWd : 0 <= Wd <= 1) by (split; nra).
  (* half the sum *)
  assert (Ht0 : Sf / 2 == Sq * (1 # 2)) by (rewrite ES; field).
  pose proof (rnd64_near (Sf / 2) (Sq * (1 # 2)) ltac:(lra) ltac:(lra)) as Ht.
  unfold u64 in Ht.
  assert (Htge : inject_Z 0 <= rnd64 (Sf / 2)).
  { apply rnd64_ge_int; [apply Qabs_lt_intro; change (2 ^ 53) with 9007199254740992; lra|].
    change (inject_Z 0) with 0. lra. }
  change (inject_Z 0) with 0 in Htge.
  set (t := rnd64 (Sf / 2)) in *.
  (* the centre *)
  set (c0 := t / Wf).
  assert (Ec0 : c0 * Wq == t) by (unfold c0; rewrite EW; field; lra).
  assert (Hc0 : - (C * (1 # 9007199254740992)) <= c0 - C
                <= C * (1 # 9007199254740992)).
  { assert (E : (c0 - C) * Wq == t - Sq * (1 # 2)) by (rewrite <- Ec0, <- EC; ring).
    assert (E' : Sq * (1 # 2) == C * Wq) by (rewrite <- EC; ring).
    split; nra. }
  assert (Hc0' : 0 <= c0) by nra.
  pose proof (rnd64_near c0 2 ltac:(lra) ltac:(lra)) as Hc. unfold u64 in Hc.
  assert (Hcge : inject_Z 0 <= rnd64 c0).
  { apply rnd64_ge_int; [apply Qabs_lt_intro; change (2 ^ 53) with 9007199254740992; lra|].
    change (inject_Z 0) with 0. lra. }
  change (inject_Z 0) with 0 in Hcge.
  (* the size *)
  set (w0 := Df / Wf).
  assert (Ew0 : w0 == Wd) by (unfold w0, Wd; rewrite EW, ED; reflexivity).
  pose proof (rnd64_near w0 1 ltac:(lra) ltac:(lra)) as Hw. unfold u64 in Hw.
  assert (Hwge : inject_Z 0 <= rnd64 w0).
  { apply rnd64_ge_int; [apply Qabs_lt_intro; change (2 ^ 53) with 9007199254740992; lra|].
    change (inject_Z 0) with 0. lra. }
  change (inject_Z 0) with 0 in Hwge.
  repeat split; lra.
Qed.

(** Printing a value with six decimals and reading it back moves it by at
    most half a unit of the sixth decimal and one rounding. *)
Lemma reread_err (q v : Q) :
  0 <= q <= 3 # 2 ->
  v == inject_Z (rne (Qabs q * 1000000)) / 1000000 ->
  - ((1 # 2000000) + 2 * u64) <= rnd64 v - q <= (1 # 2000000) + 2 * u64.
Proof.
  intros Hq Hv.
  pose proof (rne_err (Qabs q * 1000000)) as He.
  apply Qabs_le_iff in He.
  assert (Eq : Qabs q == q) by (apply Qabs_pos; lra).
  assert (Hvn : v * 1000000 == inject_Z (rne (Qabs q * 1000000)))
    by (rewrite Hv; field).
  pose proof (rnd64_near v 2 ltac:(lra) ltac:(lra)) as Hr.
  unfold u64 in *. lra.
Qed.

(** What [load_image_data] computes for one axis from a centre and a size
    that are within [1/2000000 + 5 u] of the exact quotients: the corners
    within one pixel. *)
Lemma decode_axis (W a b : Z) (c' w' : Q) :
  (1 <= W <= 2 ^ 20)%Z -> (0 <= a)%Z -> (a < b)%Z -> (b <= W)%Z ->
  - ((1 # 2000000) + 5 * u64) <= c' - inject_Z (a + b) / (2 * inject_Z W)
    <= (1 # 2000000) + 5 * u64 ->
  - ((1 # 2000000) + 5 * u64) <= w' - inject_Z (b - a) / inject_Z W
    <= (1 # 2000000) + 5 * u64 ->
  let hw := rnd64 (w' / rnd64 (inject_Z 2)) in
  (a - 1 <= trunc (rnd64 (rnd64 (c' - hw) * rnd64 (inject_Z W))) <= a + 1)%Z /\
  (b - 1 <= trunc (rnd64 (rnd64 (c' + hw) * rnd64 (inject_Z W))) <= b + 1)%Z.
Proof.
  intros HW Ha Hab Hb Hc Hw. cbv zeta. unfold u64 in *.
  pose proof (dim_bounds W HW) as HWq.
  pose proof (rnd64_int W ltac:(lia)) as EW.
  pose proof (rnd64_int 2 ltac:(lia)) as E2. change (inject_Z 2) with 2 in E2.
  change (inject_Z 2) with 2.
  set (Wq := inject_Z W) in *. set (Wf := rnd64 Wq) in *.
  assert (HA : 0 <= inject_Z a <= Wq).
  { unfold Wq. change 0 with (inject_Z 0). split; apply inject_Z_le; lia. }
  assert (HB : 0 <= inject_Z b <= Wq).
  { unfold Wq. change 0 with (inject_Z 0). split; apply inject_Z_le; lia. }
  assert (HAB : inject_Z a + 1 <= inject_Z b).
  { change 1 with (inject_Z 1). rewrite <- inject_Z_plus.
    apply inject_Z_le. lia. }
  assert (ES : inject_Z (a + b) == inject_Z a + inject_Z b)
    by (rewrite inject_Z_plus; reflexivity).
  assert (ED : inject_Z (b - a) == inject_Z b - inject_Z a) by apply inject_Z_sub.
  set (Aq := inject_Z a) in *. set (Bq := inject_Z b) in *.
  set (C := inject_Z (a + b) / (2 * Wq)) in *.
  set (Wd := inject_Z (b - a) / Wq) in *.
  assert (EC : C * Wq * 2 == Aq + Bq) by (unfold C; rewrite ES; field; lra).
  assert (EWd : Wd * Wq == Bq - Aq) by (unfold Wd; rewrite ED; field; lra).
  assert (HC : 0 <= C <= 1) by (split; nra).
  assert (HWd : 0 <= Wd <= 1) by (split; nra).
  (* half the size *)
  assert (Eh : w' / rnd64 2 == w' * (1 # 2)) by (rewrite E2; field).
  pose proof (rnd64_near (w' / rnd64 2) 1 ltac:(lra) ltac:(lra)) as Hh.
  unfold u64 in Hh.
  set (hw := rnd64 (w' / rnd64 2)) in *.
  (* the exact corners, as fractions of the size of the image *)
  set (A := C - Wd * (1 # 2)). set (B := C + Wd * (1 # 2)).
  assert (EA : A * Wq == Aq) by (unfold A; nra).
  assert (EB : B * Wq == Bq) by (unfold B; nra).
  assert (HA01 : 0 <= A <= 1) by (split; nra).
  assert (HB01 : 0 <= B <= 1) by (split; nra).
  pose proof (rnd64_near (c' - hw) 2 ltac:(unfold A in *; lra) ltac:(lra)) as Hd1.
  pose proof (rnd64_near (c' + hw) 2 ltac:(unfold B in *; lra) ltac:(lra)) as Hd2.
  unfold u64 in Hd1, Hd2.
  set (d1 := rnd64 (c' - hw)) in *. set (d2 := rnd64 (c' + hw)) in *.
  assert (Hd1A : - ((3 # 4000000) + 11 * (1 # 9007199254740992)) <= d1 - A
                 <= (3 # 4000000) + 11 * (1 # 9007199254740992))
    by (unfold A; lra).
  assert (Hd2B : - ((3 # 4000000) + 11 * (1 # 9007199254740992)) <= d2 - B
                 <= (3 # 4000000) + 11 * (1 # 9007199254740992))
    by (unfold B; lra).
  assert (Ep1 : d1 * Wf - Aq == (d1 - A) * Wq) by (rewrite EW, <- EA; ring).
  assert (Ep2 : d2 * Wf - Bq == (d2 - B) * Wq) by (rewrite EW, <- EB; ring).
  assert (Hp1 : - (4 # 5) <= d1 * Wf - Aq <= 4 # 5) by (rewrite Ep1; split; nra).
  assert (Hp2 : - (4 # 5) <= d2 * Wf - Bq <= 4 # 5) by (rewrite Ep2; split; nra).
  pose proof (rnd64_near (d1 * Wf) 2097152 ltac:(lra) ltac:(lra)) as Hr1.
  pose proof (rnd64_near (d2 * Wf) 2097152 ltac:(lra) ltac:(lra)) as Hr2.
  unfold u64 in Hr1, Hr2.
  set (p1 := rnd64 (d1 * Wf)) in *. set (p2 := rnd64 (d2 * Wf)) in *.
  assert (H1l : inject_Z (a - 1) <= p1).
  { rewrite inject_Z_sub. change (inject_Z 1) with 1. fold Aq. lra. }
  assert (H1u : p1 <= inject_Z (a + 1)).
  { rewrite inject_Z_plus. change (inject_Z 1) with 1. fold Aq. lra. }
  assert (H2l : inject_Z (b - 1) <= p2).
  { rewrite inject_Z_sub. change (inject_Z 1) with 1. fold Bq. lra. }
  assert (H2u : p2 <= inject_Z (b + 1)).
  { rewrite inject_Z_plus. change (inject_Z 1) with 1. fold Bq. lra. }
  apply trunc_ge_int in H1l, H2l. apply trunc_le_int in H1u, H2u. lia.
Qed.

End CodecNumerics.

Section CodecLines.

Local Open Scope Z_scope.

Lemma rnd64_dim_nonzero (W : Z) : 1 <= W <= 2 ^ 20 -> ~ (rnd64 (inject_Z W) == 0)%Q.
Proof.
  intros HW E. rewrite rnd64_int in E by lia.
  pose proof (dim_bounds W HW). lra.
Qed.

Lemma py_truediv_float_int (q : Q) (W : Z) :
  ~ (rnd64 (inject_Z W) == 0)%Q ->
  py_truediv (PyFloat q) (PyInt W)
  = Ok (PyFloat (rnd64 (q / rnd64 (inject_Z W)))).
Proof.
  intros HW. unfold py_truediv. cbn [to_float].
  destruct (Qeq_bool (rnd64 (inject_Z W)) 0) eqn:E; [|reflexivity].
  apply Qeq_bool_iff in E. contradiction.
Qed.

(** The line written for a box, its five words spelled out. *)
Lemma encode_box_ok (b : Box) (W H : Z) :
  1 <= W <= 2 ^ 20 -> 1 <= H <= 2 ^ 20 ->
  encode_box b W H =
  Ok (str_int (class_id b) ++ " "
      ++ format_6f (rnd64 (rnd64 (rnd64 (inject_Z (x1 b + x2 b)) / f_2)
                           / rnd64 (inject_Z W))) ++ " "
      ++ format_6f (rnd64 (rnd64 (rnd64 (inject_Z (y1 b + y2 b)) / f_2)
                           / rnd64 (inject_Z H))) ++ " "
      ++ format_6f (rnd64 (rnd64 (inject_Z (x2 b - x1 b))
                           / rnd64 (inject_Z W))) ++ " "
      ++ format_6f (rnd64 (rnd64 (inject_Z (y2 b - y1 b))
                           / rnd64 (inject_Z H))) ++ newline)%string.
Proof.
  intros HW HH. unfold encode_box.
  pose proof (rnd64_dim_nonzero W HW) as NW.
  pose proof (rnd64_dim_nonzero H HH) as NH.
  assert (N2 : ~ (f_2 == 0)%Q) by (intros E; vm_compute in E; discriminate E).
  rewrite (py_truediv_float _ f_2 N2). cbn [bind].
  rewrite py_truediv_float_int by assumption. cbn [bind].
  rewrite (py_truediv_float _ f_2 N2). cbn [bind].
  rewrite py_truediv_float_int by assumption. cbn [bind].
  rewrite (py_truediv_float _ _ NW). cbn [bind].
  rewrite (py_truediv_float _ _ NH). cbn [bind].
  reflexivity.
Qed.

End CodecLines.

(** C4 as stated fails for very wide images: in an image 10000000 pixels
    wide the box with [x1 = 0] and [x2 = 4] is saved with the centre and
    the width both printed as [0.000000], and loaded with [x2 = 0]. *)
Lemma round_trip_fails_in_wide_image :
  ~ round_trip_box [] narrow_box 10000000 10.
Proof.
  intros (line & b' & He & Hd & _ & _ & _ & Hx2 & _).
  vm_compute in He. injection He as <-.
  vm_compute in Hd. injection Hd as <-.
  vm_compute in Hx2. apply Hx2. reflexivity.
Qed.

(** C4, amended.  For image sizes up to [2^20 = 1048576] pixels per side
    (the largest image [cv2.imread] loads by default) and every box with a
    class id of at least 0 and integer corners [0 <= x1 < x2 <= W],
    [0 <= y1 < y2 <= H], the line [save_annotation] writes for the box is
    read back by [load_image_data] as a box with the same class id and each
    coordinate within one pixel.  In a 1000 x 800 image the box with
    corners (100, 100) and (300, 300) and class id 2 is written as
    [2 0.200000 0.250000 0.200000 0.250000] and read back with exactly
    these corners. *)
Theorem codec_round_trip (cls : list string) (b : Box) (W H : Z) :
  (1 <= W <= 2 ^ 20)%Z -> (1 <= H <= 2 ^ 20)%Z ->
  valid_box b W H ->
  round_trip_box cls b W H /\
  encode_box sample_box 1000 800 = Ok line1 /\
  parse_label_line ["cat"; "dog"; "bird"]%string 1000 800 line1
  = Ok (Some sample_box).
Proof.
  intros HW HH (Hcid & Hx1 & Hx12 & Hx2 & Hy1 & Hy12 & Hy2).
  split; [|split; vm_compute; reflexivity].
  unfold round_trip_box.
  rewrite (encode_box_ok b W H HW HH).
  destruct (encode_axis W (x1 b) (x2 b) HW Hx1 Hx12 Hx2)
    as (Hcx & Hwx & Hcxe & Hwxe).
  destruct (encode_axis H (y1 b) (y2 b) HH Hy1 Hy12 Hy2)
    as (Hcy & Hwy & Hcye & Hwye).
  cbv zeta in Hcx, Hwx, Hcxe, Hwxe, Hcy, Hwy, Hcye, Hwye.
  set (cx := rnd64 (rnd64 (rnd64 (inject_Z (x1 b + x2 b)) / f_2)
                    / rnd64 (inject_Z W))) in *.
  set (cy := rnd64 (rnd64 (rnd64 (inject_Z (y1 b + y2 b)) / f_2)
                    / rnd64 (inject_Z H))) in *.
  set (wx := rnd64 (rnd64 (inject_Z (x2 b - x1 b)) / rnd64 (inject_Z W))) in *.
  set (wy := rnd64 (rnd64 (inject_Z (y2 b - y1 b)) / rnd64 (inject_Z H))) in *.
  destruct (float_of_format_6f cx (proj1 Hcx)) as (vcx & Pcx & Vcx).
  destruct (float_of_format_6f cy (proj1 Hcy)) as (vcy & Pcy & Vcy).
  destruct (float_of_format_6f wx (proj1 Hwx)) as (vwx & Pwx & Vwx).
  destruct (float_of_format_6f wy (proj1 Hwy)) as (vwy & Pwy & Vwy).
  pose proof (reread_err cx vcx Hcx Vcx) as Rcx.
  pose proof (reread_err cy vcy Hcy Vcy) as Rcy.
  pose proof (reread_err wx vwx Hwx Vwx) as Rwx.
  pose proof (reread_err wy vwy Hwy Vwy) as Rwy.
  destruct (decode_axis W (x1 b) (x2 b) (rnd64 vcx) (rnd64 vwx)
              HW Hx1 Hx12 Hx2 ltac:(lra) ltac:(lra)) as (Dx1 & Dx2).
  destruct (decode_axis H (y1 b) (y2 b) (rnd64 vcy) (rnd64 vwy)
              HH Hy1 Hy12 Hy2 ltac:(lra) ltac:(lra)) as (Dy1 & Dy2).
  cbv zeta in Dx1, Dx2, Dy1, Dy2.
  assert (N2 : ~ (rnd64 (inject_Z 2) == 0)%Q)
    by (intros E; vm_compute in E; discriminate E).
  assert (Hname : exists cname,
             (if (class_id b <? len cls)%Z then py_getitem cls (class_id b)
              else Ok (str_int (class_id b))) = Ok cname).
  { destruct (Z.ltb_spec (class_id b) (len cls)); [|eauto].
    apply py_getitem_ok. lia. }
  destruct Hname as (cname & Hname).
  eexists _, _. split; [reflexivity|]. split.
  - unfold parse_label_line. rewrite split_strip.
    rewrite split_five_words
      by (try apply format_6f_word; now apply str_int_word).
    cbn [len List.length Z.of_nat Pos.of_succ_nat Pos.succ Z.leb Z.compare
         Pos.compare Pos.compare_cont nth].
    rewrite int_of_string_str_int by assumption.
    rewrite Pcx, Pcy, Pwx, Pwy. cbn [of_option bind].
    rewrite !py_truediv_float_int by assumption. cbn [bind].
    rewrite Hname. cbn [bind]. reflexivity.
  - cbn [class_id x1 y1 x2 y2 py_int py_mul py_sub py_add to_float].
    split; [reflexivity|]. lia.
Qed.

Lemma codec_round_trip_witness :
  round_trip_box ["cat"; "dog"; "bird"]%string sample_box 1000 800 /\
  encode_box sample_box 1000 800 = Ok line1 /\
  parse_label_line ["cat"; "dog"; "bird"]%string 1000 800 line1
  = Ok (Some sample_box).
Proof.
  apply (codec_round_trip ["cat"; "dog"; "bird"]%string sample_box 1000 800).
  - split; vm_compute; discriminate.
  - split; vm_compute; discriminate.
  - unfold valid_box. cbn. lia.
Defined.
